(** * App Store Connect CLI: pagination, dashboard aggregation and
      submission readiness

    A shallow embedding of
      - [internal/cli/status]   (the [asc status] dashboard: [collectDashboard],
        [runTasks], the [fill...] section tasks and the [selectLatest...]
        reductions),
      - [internal/cli/submit]   ([asc submit validate]: [runValidation] and its
        checks),
      - [internal/cli/validate] ([asc validate iap] and
        [asc validate subscriptions]: the page loops),
      - the validator of the [--next] cursor, after its specification,
      - the command side of [asc status] and [asc submit validate] (the
        [--include] flag, the renderers, [Exec]),
      - [internal/cli/install]  ([asc install-skills]),
      - [internal/cli/profiles] ([writeFileBytesNoSymlink]),
    together with the properties the specification states about them and
    further properties of the code.

    Go strings are byte strings and are modelled by [string] (a list of
    8-bit [ascii]); [>] and [==] on Go strings are the byte-wise
    lexicographic order and equality. *)

From Stdlib Require Import List String Ascii Bool Arith ZArith Lia.
From Stdlib Require Import OrderedTypeEx Permutation.
From Stdlib Require DecimalString.
Import ListNotations.

Local Open Scope string_scope.
Local Open Scope list_scope.

(* ================================================================== *)
(** ** Go's [strings] package: the operations the commands use *)
(* ================================================================== *)

Module strings.

(** [a > b] on Go strings. *)
Definition gt (a b : string) : bool := String.ltb b a.

Definition bytes (l : list nat) : list ascii := map ascii_of_nat l.

(** The UTF-8 encodings of the code points for which [unicode.IsSpace]
    holds: tab, LF, VT, FF, CR, space, U+0085, U+00A0, U+1680,
    U+2000..U+200A, U+2028, U+2029, U+202F, U+205F, U+3000. *)
Definition spaceRunes : list (list ascii) :=
  map bytes
    [ [9]; [10]; [11]; [12]; [13]; [32];
      [194; 133]; [194; 160];
      [225; 154; 128];
      [226; 128; 128]; [226; 128; 129]; [226; 128; 130]; [226; 128; 131];
      [226; 128; 132]; [226; 128; 133]; [226; 128; 134]; [226; 128; 135];
      [226; 128; 136]; [226; 128; 137]; [226; 128; 138];
      [226; 128; 168]; [226; 128; 169]; [226; 128; 175];
      [226; 129; 159];
      [227; 128; 128] ].

(** [stripPrefix p s] is [Some r] when [s = p ++ r]. *)
Fixpoint stripPrefix (p s : list ascii) : option (list ascii) :=
  match p, s with
  | [], _ => Some s
  | _ :: _, [] => None
  | a :: p', b :: s' => if Ascii.eqb a b then stripPrefix p' s' else None
  end.

(** Remove one leading run of bytes out of [runes], the first that fits. *)
Fixpoint stripOne (runes : list (list ascii)) (s : list ascii)
  : option (list ascii) :=
  match runes with
  | [] => None
  | r :: runes' =>
      match stripPrefix r s with
      | Some rest => Some rest
      | None => stripOne runes' s
      end
  end.

(** Drop leading runs as long as one fits; every run is non-empty, so
    [length s] rounds are enough. *)
Fixpoint trimRuns (runes : list (list ascii)) (n : nat) (s : list ascii)
  : list ascii :=
  match n with
  | O => s
  | S n' =>
      match stripOne runes s with
      | Some rest => trimRuns runes n' rest
      | None => s
      end
  end.

Definition trimLeftSpace (s : list ascii) : list ascii :=
  trimRuns spaceRunes (List.length s) s.

(** Trailing white space is leading white space of the reversed bytes,
    with every encoding read backwards. *)
Definition trimRightSpace (s : list ascii) : list ascii :=
  rev (trimRuns (map (@rev ascii) spaceRunes) (List.length s) (rev s)).

(** [strings.TrimSpace]: the string without leading and trailing white
    space as defined by Unicode. *)
Definition TrimSpace (s : string) : string :=
  string_of_list_ascii
    (trimRightSpace (trimLeftSpace (list_ascii_of_string s))).

(** A string made of white space only. *)
Inductive onlySpace : list ascii -> Prop :=
| onlySpace_nil : onlySpace []
| onlySpace_app r s : In r spaceRunes -> onlySpace s -> onlySpace (r ++ s).

End strings.

(* ================================================================== *)
(** ** The API client: errors and typed resources ([internal/asc]) *)
(* ================================================================== *)

Module asc.

(** Modelled from the spec: the [error] values of the API client, which
    section 7 describes as opaque failures distinguished only by a binary
    not-found signal.  [Error] is the text [err.Error()] prints and
    [NotFound] is what [asc.IsNotFound] answers. *)
Record error : Type := mkError { Error : string; NotFound : bool }.

Definition IsNotFound (err : error) : bool := NotFound err.

(** [fmt.Errorf("<prefix>: %w", err)]: the text is prefixed, and the
    wrapped error is still found by [errors.Is]/[errors.As]. *)
Definition wrap (prefix : string) (err : error) : error :=
  mkError (prefix ++ ": " ++ Error err) (NotFound err).

(** A fallible call: [(value, nil)] or [(nil, err)]. *)
Inductive result (A : Type) : Type :=
| Ok (a : A)
| Err (e : error).
Arguments Ok {A} a.
Arguments Err {A} e.

(** [asc.Resource[T]]. *)
Record Resource (T : Type) : Type :=
  mkResource { ID : string; Attributes : T }.
Arguments mkResource {T} ID Attributes.
Arguments ID {T} r.
Arguments Attributes {T} r.

Record ResourceData : Type := mkResourceData
  { rdType : string; rdID : string }.

(** [links] of a collection response; an absent [next] decodes to [""]. *)
Record Links : Type := mkLinks { Next : string }.

(** A decoded response document: [Data] and [Links]. *)
Record Response (D : Type) : Type := mkResponse { Data : D; Links_ : Links }.
Arguments mkResponse {D} Data Links_.
Arguments Data {D} r.
Arguments Links_ {D} r.

Module AppAttributes.
Record t : Type := mk { BundleID : string; Name : string }.
End AppAttributes.

Module BuildAttributes.
Record t : Type := mk
  { Version : string; ProcessingState : string; UploadedDate : string }.
End BuildAttributes.

Module PreReleaseVersionAttributes.
Record t : Type := mk { Version : string; Platform : string }.
End PreReleaseVersionAttributes.

(** A build beta detail: its attributes and its [relationships] document
    as raw JSON bytes ([json.RawMessage]). *)
Module BuildBetaDetail.
Record t : Type := mk
  { ID : string; ExternalBuildState : string; Relationships : string }.
End BuildBetaDetail.

Module BetaAppReviewSubmissionAttributes.
Record t : Type := mk { BetaReviewState : string; SubmittedDate : string }.
End BetaAppReviewSubmissionAttributes.

Module AppStoreVersionAttributes.
Record t : Type := mk
  { Platform : string;
    VersionString : string;
    AppStoreState : string;
    AppVersionState : string;
    CreatedDate : string }.
End AppStoreVersionAttributes.

Module AppStoreVersionPhasedReleaseAttributes.
Record t : Type := mk
  { PhasedReleaseState : string;
    StartDate : string;
    CurrentDayNumber : Z;
    TotalPauseDuration : Z }.
End AppStoreVersionPhasedReleaseAttributes.

Module ReviewSubmissionAttributes.
Record t : Type := mk
  { SubmissionState : string; SubmittedDate : string; Platform : string }.
End ReviewSubmissionAttributes.

Definition ReviewSubmissionResource : Type :=
  Resource ReviewSubmissionAttributes.t.

Module AppStoreVersionLocalizationAttributes.
Record t : Type := mk
  { Locale : string; Description : string; Keywords : string }.
End AppStoreVersionLocalizationAttributes.

Module AppScreenshotSetAttributes.
Record t : Type := mk { ScreenshotDisplayType : string }.
End AppScreenshotSetAttributes.

Module AppInfoLocalizationAttributes.
Record t : Type := mk
  { Locale : string; Name : string; PrivacyPolicyURL : string }.
End AppInfoLocalizationAttributes.

Module InAppPurchaseV2Attributes.
Record t : Type := mk
  { Name : string; ProductID : string; InAppPurchaseType : string;
    State : string }.
End InAppPurchaseV2Attributes.

Module SubscriptionAttributes.
Record t : Type := mk { Name : string; ProductID : string; State : string }.
End SubscriptionAttributes.

(** A resource of which the commands read the identifier at most. *)
Definition Opaque : Type := Resource unit.

End asc.

(* ================================================================== *)
(** ** What the commands take from outside the modelled packages *)
(* ================================================================== *)

(** Library functions and constants that the modelled code calls and whose
    definitions are not part of it: [strings.ToUpper] and
    [strings.EqualFold] (Unicode case mapping), [json.Unmarshal] of a
    relationships document into [map[string]relationshipReference] (each
    reference given by its [Data]), [shared.ResolveAppStoreVersionState], and
    the [asc.ReviewSubmissionState...] constants. *)
Class Externals : Type :=
  { ToUpper : string -> string;
    EqualFold : string -> string -> bool;
    Unmarshal : string -> asc.result (string -> option asc.ResourceData);
    ResolveAppStoreVersionState : asc.AppStoreVersionAttributes.t -> string;
    ReviewSubmissionStateReadyForReview : string;
    ReviewSubmissionStateWaitingForReview : string;
    ReviewSubmissionStateInReview : string;
    ReviewSubmissionStateUnresolvedIssues : string;
    ReviewSubmissionStateCanceling : string }.

(* ================================================================== *)
(** ** [internal/cli/status]: the release dashboard *)
(* ================================================================== *)

Module status.
Import asc.

Record includeSet : Type := mkIncludeSet
  { builds : bool;
    testflight : bool;
    appstore : bool;
    submission : bool;
    review : bool;
    phasedRelease : bool;
    links : bool }.

Module statusApp.
Record t : Type := mk { ID : string; BundleID : string; Name : string }.
End statusApp.

Module latestBuild.
Record t : Type := mk
  { ID : string;
    Version : string;
    BuildNumber : string;
    ProcessingState : string;
    UploadedDate : string;
    Platform : string }.
End latestBuild.

Module buildsSection.
Record t : Type := mk { Latest : option latestBuild.t }.
End buildsSection.

Module testFlightSection.
Record t : Type := mk
  { LatestDistributedBuildID : string;
    BetaReviewState : string;
    ExternalBuildState : string;
    SubmittedDate : string }.
End testFlightSection.

Module appStoreSection.
Record t : Type := mk
  { VersionID : string;
    Version : string;
    State : string;
    Platform : string;
    CreatedDate : string }.
End appStoreSection.

Module submissionSection.
Record t : Type := mk { InFlight : bool; BlockingIssues : list string }.
End submissionSection.

Module reviewSection.
Record t : Type := mk
  { LatestSubmissionID : string;
    State : string;
    SubmittedDate : string;
    Platform : string }.
End reviewSection.

Module phasedReleaseSection.
Record t : Type := mk
  { Configured : bool;
    ID : string;
    State : string;
    StartDate : string;
    CurrentDayNumber : Z;
    TotalPauseDuration : Z }.
End phasedReleaseSection.

Module linksSection.
Record t : Type := mk
  { AppStoreConnect : string; TestFlight : string; Review : string }.
End linksSection.

(** The snapshot; a [nil] section pointer is [None]. *)
Record dashboardResponse : Type := mkDashboardResponse
  { App : statusApp.t;
    Builds : option buildsSection.t;
    TestFlight : option testFlightSection.t;
    AppStore : option appStoreSection.t;
    Submission : option submissionSection.t;
    Review : option reviewSection.t;
    PhasedRelease : option phasedReleaseSection.t;
    Links : option linksSection.t }.

(** The client methods the dashboard calls.  Every method is called at most
    once in a run, so an answer per argument describes any server. *)
Record Client : Type := mkClient
  { GetApp : string -> result (Response (Resource AppAttributes.t));
    GetBuilds :
      string -> string -> Z -> result (Response (list (Resource BuildAttributes.t)));
    GetBuildPreReleaseVersion :
      string -> result (Response (Resource PreReleaseVersionAttributes.t));
    GetBuildBetaDetails :
      list string -> Z -> result (Response (list BuildBetaDetail.t));
    GetBetaAppReviewSubmissions :
      list string -> Z ->
      result (Response (list (Resource BetaAppReviewSubmissionAttributes.t)));
    GetAppStoreVersions :
      string -> Z -> result (Response (list (Resource AppStoreVersionAttributes.t)));
    GetAppStoreVersionPhasedRelease :
      string -> result (Response (Resource AppStoreVersionPhasedReleaseAttributes.t));
    GetReviewSubmissions :
      string -> Z -> result (Response (list ReviewSubmissionResource)) }.

(** *** Section tasks: code that writes to the shared snapshot and may fail *)

(** A computation over the snapshot [resp] points to: the snapshot after
    it, and a value or the error it returns. *)
Definition Fill (A : Type) : Type :=
  dashboardResponse -> dashboardResponse * result A.

Definition ret {A} (a : A) : Fill A := fun resp => (resp, Ok a).

Definition fail {A} (err : error) : Fill A := fun resp => (resp, Err err).

Definition bind {A B} (m : Fill A) (k : A -> Fill B) : Fill B :=
  fun resp =>
    match m resp with
    | (resp', Ok a) => k a resp'
    | (resp', Err err) => (resp', Err err)
    end.

(** [v, err := call; if err != nil { return err }]. *)
Definition try {A} (r : result A) : Fill A :=
  match r with
  | Ok a => ret a
  | Err err => fail err
  end.

(** An assignment to a field of [*resp]. *)
Definition assign (f : dashboardResponse -> dashboardResponse) : Fill unit :=
  fun resp => (f resp, Ok tt).

Declare Scope fill_scope.
Delimit Scope fill_scope with fill.
Notation "x <- m ;; k" := (bind m (fun x => k))
  (at level 61, m at next level, right associativity) : fill_scope.
Notation "m ;;; k" := (bind m (fun _ => k))
  (at level 61, right associativity) : fill_scope.
Local Open Scope fill_scope.

Definition setBuilds (s : buildsSection.t) (r : dashboardResponse) :=
  mkDashboardResponse (App r) (Some s) (TestFlight r) (AppStore r)
    (Submission r) (Review r) (PhasedRelease r) (Links r).
Definition setTestFlight (s : testFlightSection.t) (r : dashboardResponse) :=
  mkDashboardResponse (App r) (Builds r) (Some s) (AppStore r)
    (Submission r) (Review r) (PhasedRelease r) (Links r).
Definition setAppStore (s : appStoreSection.t) (r : dashboardResponse) :=
  mkDashboardResponse (App r) (Builds r) (TestFlight r) (Some s)
    (Submission r) (Review r) (PhasedRelease r) (Links r).
Definition setSubmission (s : submissionSection.t) (r : dashboardResponse) :=
  mkDashboardResponse (App r) (Builds r) (TestFlight r) (AppStore r)
    (Some s) (Review r) (PhasedRelease r) (Links r).
Definition setReview (s : reviewSection.t) (r : dashboardResponse) :=
  mkDashboardResponse (App r) (Builds r) (TestFlight r) (AppStore r)
    (Submission r) (Some s) (PhasedRelease r) (Links r).
Definition setPhasedRelease (s : phasedReleaseSection.t) (r : dashboardResponse) :=
  mkDashboardResponse (App r) (Builds r) (TestFlight r) (AppStore r)
    (Submission r) (Review r) (Some s) (Links r).
Definition setLinks (s : linksSection.t) (r : dashboardResponse) :=
  mkDashboardResponse (App r) (Builds r) (TestFlight r) (AppStore r)
    (Submission r) (Review r) (PhasedRelease r) (Some s).

(** *** Latest-item selection *)

Definition selectLatestAppStoreVersion
    (versions : list (Resource AppStoreVersionAttributes.t))
  : option (Resource AppStoreVersionAttributes.t) :=
  match versions with
  | [] => None
  | first :: rest =>
      Some (fold_left
              (fun best current =>
                 if strings.gt
                      (AppStoreVersionAttributes.CreatedDate (Attributes current))
                      (AppStoreVersionAttributes.CreatedDate (Attributes best))
                 then current
                 else if (AppStoreVersionAttributes.CreatedDate (Attributes current)
                            =? AppStoreVersionAttributes.CreatedDate (Attributes best))
                         && strings.gt (ID current) (ID best)
                      then current
                      else best)
              rest first)
  end.

Definition selectLatestReviewSubmission
    (submissions : list ReviewSubmissionResource)
  : option ReviewSubmissionResource :=
  match submissions with
  | [] => None
  | first :: rest =>
      Some (fold_left
              (fun best current =>
                 if strings.gt
                      (ReviewSubmissionAttributes.SubmittedDate (Attributes current))
                      (ReviewSubmissionAttributes.SubmittedDate (Attributes best))
                 then current
                 else if (ReviewSubmissionAttributes.SubmittedDate (Attributes current)
                            =? ReviewSubmissionAttributes.SubmittedDate (Attributes best))
                         && strings.gt (ID current) (ID best)
                      then current
                      else best)
              rest first)
  end.

Definition selectLatestBetaReviewSubmission
    (submissions : list (Resource BetaAppReviewSubmissionAttributes.t))
  : option (Resource BetaAppReviewSubmissionAttributes.t) :=
  match submissions with
  | [] => None
  | first :: rest =>
      Some (fold_left
              (fun best current =>
                 if strings.gt
                      (BetaAppReviewSubmissionAttributes.SubmittedDate (Attributes current))
                      (BetaAppReviewSubmissionAttributes.SubmittedDate (Attributes best))
                 then current
                 else if (BetaAppReviewSubmissionAttributes.SubmittedDate (Attributes current)
                            =? BetaAppReviewSubmissionAttributes.SubmittedDate (Attributes best))
                         && strings.gt (ID current) (ID best)
                      then current
                      else best)
              rest first)
  end.

(** *** The three section tasks *)

(** [slices.Sort] on strings: ascending byte-wise order. *)
Fixpoint insertSorted (x : string) (l : list string) : list string :=
  match l with
  | [] => [x]
  | y :: l' => if String.leb x y then x :: l else y :: insertSorted x l'
  end.

Definition sortStrings (l : list string) : list string :=
  fold_right insertSorted [] l.

Section WithExternals.
Context {ext : Externals}.

Definition relationshipResourceID (relationships : string) (key : string)
  : result string :=
  if (String.length relationships =? 0)%nat then
    Err (mkError ("missing " ++ key ++ " relationship") false)
  else
    match Unmarshal relationships with
    | Err err => Err (wrap "parse relationships" err)
    | Ok references =>
        match references key with
        | None => Err (mkError ("missing " ++ key ++ " relationship") false)
        | Some reference =>
            let id := strings.TrimSpace (rdID reference) in
            if id =? "" then
              Err (mkError ("missing " ++ key ++ " relationship id") false)
            else Ok id
        end
    end.

Definition isDistributedState (state : string) : bool :=
  let s := ToUpper (strings.TrimSpace state) in
  (s =? "IN_BETA_TESTING") || (s =? "READY_FOR_TESTING").

Definition isInFlightSubmissionState (state : string) : bool :=
  let s := ToUpper (strings.TrimSpace state) in
  (s =? ReviewSubmissionStateReadyForReview)
  || (s =? ReviewSubmissionStateWaitingForReview)
  || (s =? ReviewSubmissionStateInReview)
  || (s =? ReviewSubmissionStateUnresolvedIssues)
  || (s =? ReviewSubmissionStateCanceling).

(** The loop that fills [externalStateByBuild]; a Go map read at a
    missing key gives [""]. *)
Fixpoint externalStates (details : list BuildBetaDetail.t)
    (externalStateByBuild : string -> string)
  : result (string -> string) :=
  match details with
  | [] => Ok externalStateByBuild
  | detail :: details' =>
      match relationshipResourceID (BuildBetaDetail.Relationships detail) "build" with
      | Err relErr => Err relErr
      | Ok buildID =>
          externalStates details'
            (fun k =>
               if k =? buildID
               then strings.TrimSpace (BuildBetaDetail.ExternalBuildState detail)
               else externalStateByBuild k)
      end
  end.

Definition fillBuildsAndTestFlight (client : Client) (appID : string)
    (includes : includeSet) : Fill unit :=
  buildsResp <- try (GetBuilds client appID "-uploadedDate" 50) ;;
  let latest := hd_error (Data buildsResp) in
  (if builds includes then
     section <-
       match latest with
       | None => ret (buildsSection.mk None)
       | Some latest =>
           match GetBuildPreReleaseVersion client (ID latest) with
           | Err preErr =>
               if negb (IsNotFound preErr) then fail preErr
               else
                 ret (buildsSection.mk
                        (Some (latestBuild.mk (ID latest) ""
                                 (BuildAttributes.Version (Attributes latest))
                                 (BuildAttributes.ProcessingState (Attributes latest))
                                 (BuildAttributes.UploadedDate (Attributes latest))
                                 "")))
           | Ok preRelease =>
               ret (buildsSection.mk
                      (Some (latestBuild.mk (ID latest)
                               (PreReleaseVersionAttributes.Version
                                  (Attributes (Data preRelease)))
                               (BuildAttributes.Version (Attributes latest))
                               (BuildAttributes.ProcessingState (Attributes latest))
                               (BuildAttributes.UploadedDate (Attributes latest))
                               (PreReleaseVersionAttributes.Platform
                                  (Attributes (Data preRelease))))))
           end
       end ;;
     assign (setBuilds section)
   else ret tt) ;;;
  if negb (testflight includes) then ret tt
  else
    match Data buildsResp with
    | [] => assign (setTestFlight (testFlightSection.mk "" "" "" ""))
    | _ :: _ =>
        let buildIDs := map ID (Data buildsResp) in
        betaDetails <- try (GetBuildBetaDetails client buildIDs 200) ;;
        externalStateByBuild <-
          try (externalStates (Data betaDetails) (fun _ => "")) ;;
        let distributed :=
          find (fun build =>
                  isDistributedState
                    (ToUpper (strings.TrimSpace (externalStateByBuild (ID build)))))
               (Data buildsResp) in
        reviewSubmissions <-
          try (GetBetaAppReviewSubmissions client buildIDs 200) ;;
        let latestReviewSubmission :=
          selectLatestBetaReviewSubmission (Data reviewSubmissions) in
        assign
          (setTestFlight
             (testFlightSection.mk
                (match distributed with Some build => ID build | None => "" end)
                (match latestReviewSubmission with
                 | Some l => BetaAppReviewSubmissionAttributes.BetaReviewState (Attributes l)
                 | None => ""
                 end)
                (match distributed with
                 | Some build =>
                     ToUpper (strings.TrimSpace (externalStateByBuild (ID build)))
                 | None => ""
                 end)
                (match latestReviewSubmission with
                 | Some l => BetaAppReviewSubmissionAttributes.SubmittedDate (Attributes l)
                 | None => ""
                 end)))
    end.

Definition fillAppStoreAndPhasedRelease (client : Client) (appID : string)
    (includes : includeSet) : Fill unit :=
  versions <- try (GetAppStoreVersions client appID 200) ;;
  let latestVersion := selectLatestAppStoreVersion (Data versions) in
  (if appstore includes then
     assign
       (setAppStore
          (match latestVersion with
           | Some latestVersion =>
               appStoreSection.mk (ID latestVersion)
                 (AppStoreVersionAttributes.VersionString (Attributes latestVersion))
                 (ResolveAppStoreVersionState (Attributes latestVersion))
                 (AppStoreVersionAttributes.Platform (Attributes latestVersion))
                 (AppStoreVersionAttributes.CreatedDate (Attributes latestVersion))
           | None => appStoreSection.mk "" "" "" "" ""
           end))
   else ret tt) ;;;
  if negb (phasedRelease includes) then ret tt
  else
    phased <-
      match latestVersion with
      | None => ret (phasedReleaseSection.mk false "" "" "" 0 0)
      | Some latestVersion =>
          match GetAppStoreVersionPhasedRelease client (ID latestVersion) with
          | Err phaseErr =>
              if negb (IsNotFound phaseErr) then fail phaseErr
              else ret (phasedReleaseSection.mk false "" "" "" 0 0)
          | Ok phaseResp =>
              let attrs := Attributes (Data phaseResp) in
              ret (phasedReleaseSection.mk true (ID (Data phaseResp))
                     (AppStoreVersionPhasedReleaseAttributes.PhasedReleaseState attrs)
                     (AppStoreVersionPhasedReleaseAttributes.StartDate attrs)
                     (AppStoreVersionPhasedReleaseAttributes.CurrentDayNumber attrs)
                     (AppStoreVersionPhasedReleaseAttributes.TotalPauseDuration attrs))
          end
      end ;;
    assign (setPhasedRelease phased).

Definition fillSubmissionAndReview (client : Client) (appID : string)
    (includes : includeSet) : Fill unit :=
  submissions <- try (GetReviewSubmissions client appID 200) ;;
  (if submission includes then
     let section :=
       fold_left
         (fun section submission =>
            let state :=
              ReviewSubmissionAttributes.SubmissionState (Attributes submission) in
            let inFlight :=
              if isInFlightSubmissionState state then true
              else submissionSection.InFlight section in
            if EqualFold state ReviewSubmissionStateUnresolvedIssues then
              submissionSection.mk inFlight
                (submissionSection.BlockingIssues section
                   ++ [("submission " ++ ID submission ++ " has unresolved issues")%string])
            else
              submissionSection.mk inFlight
                (submissionSection.BlockingIssues section))
         (Data submissions) (submissionSection.mk false []) in
     assign
       (setSubmission
          (submissionSection.mk (submissionSection.InFlight section)
             (sortStrings (submissionSection.BlockingIssues section))))
   else ret tt) ;;;
  if review includes then
    assign
      (setReview
         (match selectLatestReviewSubmission (Data submissions) with
          | Some latest =>
              reviewSection.mk (ID latest)
                (ReviewSubmissionAttributes.SubmissionState (Attributes latest))
                (ReviewSubmissionAttributes.SubmittedDate (Attributes latest))
                (ReviewSubmissionAttributes.Platform (Attributes latest))
          | None => reviewSection.mk "" "" "" ""
          end))
  else ret tt.

End WithExternals.

(** *** [runTasks]: bounded parallel execution of the section tasks *)

Record sectionTask : Type := mkSectionTask { name : string; run : Fill unit }.

(** Where the goroutine started for a task is: before [sem <- struct{}{}],
    inside [current.run()] holding a slot of [sem], or past its deferred
    [<-sem] and [wg.Done()]. *)
Inductive goroutine : Type := Spawned | Running | Finished.

Definition isRunning (g : goroutine) : bool :=
  match g with Running => true | _ => false end.

Definition isFinished (g : goroutine) : bool :=
  match g with Finished => true | _ => false end.

(** What the Go scheduler may do next: let goroutine [i] pass its send on
    [sem] and enter [current.run()], or let goroutine [i] come out of
    [current.run()], send the error (if any) on [errCh] and run its deferred
    [<-sem] and [wg.Done()].  The writes of a task go to fields of the
    snapshot no other task touches, so they are taken to happen together at
    that point. *)
Inductive event : Type :=
| Acquire (i : nat)
| Complete (i : nat).

(** The goroutines, the buffered channel [errCh] (oldest first) and the
    snapshot behind [resp]. *)
Record pool : Type := mkPool
  { routines : list goroutine;
    errCh : list error;
    shared : dashboardResponse }.

Definition slotsTaken (rs : list goroutine) : nat :=
  List.length (filter isRunning rs).

Fixpoint setRoutine (i : nat) (g : goroutine) (rs : list goroutine)
  : list goroutine :=
  match rs, i with
  | [], _ => []
  | _ :: rs', O => g :: rs'
  | r :: rs', S i' => r :: setRoutine i' g rs'
  end.

(** One scheduler step; [None] when the event cannot happen in this state
    (the send on a full [sem] blocks; a task that is not running cannot
    return). *)
Definition step (tasks : list sectionTask) (limit : Z) (p : pool) (ev : event)
  : option pool :=
  match ev with
  | Acquire i =>
      match nth_error (routines p) i with
      | Some Spawned =>
          if (Z.of_nat (slotsTaken (routines p)) <? limit)%Z then
            Some (mkPool (setRoutine i Running (routines p)) (errCh p) (shared p))
          else None
      | _ => None
      end
  | Complete i =>
      match nth_error (routines p) i, nth_error tasks i with
      | Some Running, Some current =>
          match run current (shared p) with
          | (resp, Err err) =>
              Some (mkPool (setRoutine i Finished (routines p))
                      (errCh p ++ [wrap (name current) err]) resp)
          | (resp, Ok _) =>
              Some (mkPool (setRoutine i Finished (routines p)) (errCh p) resp)
          end
      | _, _ => None
      end
  end.

Fixpoint exec (tasks : list sectionTask) (limit : Z) (schedule : list event)
    (p : pool) : option pool :=
  match schedule with
  | [] => Some p
  | ev :: schedule' =>
      match step tasks limit p ev with
      | Some p' => exec tasks limit schedule' p'
      | None => None
      end
  end.

Definition spawnAll (tasks : list sectionTask) (resp : dashboardResponse)
  : pool :=
  mkPool (map (fun _ => Spawned) tasks) [] resp.

(** [runTasks tasks limit] under the interleaving [schedule] chosen by the
    scheduler: the snapshot behind [resp] and the returned error.  [None]
    when [schedule] is not an execution that lets [wg.Wait()] return. *)
Definition runTasks (tasks : list sectionTask) (limit : Z)
    (schedule : list event) (resp : dashboardResponse)
  : option (dashboardResponse * option error) :=
  match tasks with
  | [] => Some (resp, None)
  | _ :: _ =>
      let limit := if (limit <? 1)%Z then 1%Z else limit in
      match exec tasks limit schedule (spawnAll tasks resp) with
      | Some p =>
          if forallb isFinished (routines p)
          then Some (shared p, hd_error (errCh p))
          else None
      | None => None
      end
  end.

Section WithExternals.
Context {ext : Externals}.

(** The tasks [collectDashboard] builds for [includes]. *)
Definition sectionTasks (client : Client) (appID : string)
    (includes : includeSet) : list sectionTask :=
  (if builds includes || testflight includes
   then [mkSectionTask "builds/testflight"
           (fillBuildsAndTestFlight client appID includes)]
   else [])
  ++ (if appstore includes || phasedRelease includes
      then [mkSectionTask "appstore/phased-release"
              (fillAppStoreAndPhasedRelease client appID includes)]
      else [])
  ++ (if submission includes || review includes
      then [mkSectionTask "submission/review"
              (fillSubmissionAndReview client appID includes)]
      else []).

(** The snapshot before the tasks run. *)
Definition initialResponse (appResp : Response (Resource AppAttributes.t))
    (appID : string) (includes : includeSet) : dashboardResponse :=
  let resp :=
    mkDashboardResponse
      (statusApp.mk (ID (Data appResp))
         (AppAttributes.BundleID (Attributes (Data appResp)))
         (AppAttributes.Name (Attributes (Data appResp))))
      None None None None None None None in
  if links includes then
    setLinks
      (linksSection.mk
         ("https://appstoreconnect.apple.com/apps/" ++ appID)
         ("https://appstoreconnect.apple.com/apps/" ++ appID ++ "/testflight/ios")
         ("https://appstoreconnect.apple.com/apps/" ++ appID ++ "/appstore/review"))
      resp
  else resp.

(** [collectDashboard]: the returned snapshot pointer ([None] for [nil])
    and error. *)
Definition collectDashboard (client : Client) (appID : string)
    (includes : includeSet) (schedule : list event)
  : option (option dashboardResponse * option error) :=
  match GetApp client appID with
  | Err err => Some (None, Some err)
  | Ok appResp =>
      let resp := initialResponse appResp appID includes in
      match runTasks (sectionTasks client appID includes) 3 schedule resp with
      | None => None
      | Some (_, Some err) => Some (None, Some err)
      | Some (resp', None) => Some (Some resp', None)
      end
  end.

(** The end of [StatusCommand]'s [Exec]: what is handed to
    [shared.PrintOutputWithRenderers] (nothing when the collection failed)
    and the error returned for a failed collection; an error of the
    printing itself is left aside. *)
Definition statusExec (client : Client) (appID : string)
    (includes : includeSet) (schedule : list event)
  : option (option dashboardResponse * option error) :=
  match collectDashboard client appID includes schedule with
  | None => None
  | Some (_, Some err) => Some (None, Some (wrap "status" err))
  | Some (resp, None) => Some (resp, None)
  end.

End WithExternals.

End status.

(* ================================================================== *)
(** ** [internal/cli/submit]: [asc submit validate] *)
(* ================================================================== *)

Module submit.
Import asc.

(** Go's [int] on a 64-bit platform: [n + 1] wraps around. *)
Definition wrapInt (n : Z) : Z :=
  ((n + 2 ^ 63) mod 2 ^ 64 - 2 ^ 63)%Z.

Record SubmitValidateIssue : Type := mkIssue
  { Check : string; Severity : string; Message : string }.

Record SubmitValidateResult : Type := mkResult
  { AppID : string;
    VersionID : string;
    Platform : string;
    Issues : list SubmitValidateIssue;
    ErrorCount : Z;
    WarnCount : Z;
    Ready : bool }.

(** The requests a validation run can make. *)
Inductive call : Type :=
| CallGetAppStoreVersion (versionID : string)
| CallGetAppStoreVersionBuild (versionID : string)
| CallGetAppStoreVersionLocalizations (versionID : string) (limit : Z)
| CallGetAppScreenshotSets (localizationID : string)
| CallGetAppScreenshots (setID : string)
| CallGetAppInfos (appID : string)
| CallGetAppInfoLocalizations (appInfoID : string) (limit : Z)
| CallGetAgeRatingDeclarationForAppStoreVersion (versionID : string).

(** The client: what each method answers, given the requests made before
    it (a server may answer the same request differently over time). *)
Record Client : Type := mkClient
  { GetAppStoreVersion :
      list call -> string -> result (Response (Resource AppStoreVersionAttributes.t));
    GetAppStoreVersionBuild :
      list call -> string -> result (Response Opaque);
    GetAppStoreVersionLocalizations :
      list call -> string -> Z ->
      result (Response (list (Resource AppStoreVersionLocalizationAttributes.t)));
    GetAppScreenshotSets :
      list call -> string ->
      result (Response (list (Resource AppScreenshotSetAttributes.t)));
    GetAppScreenshots :
      list call -> string -> result (Response (list Opaque));
    GetAppInfos :
      list call -> string -> result (Response (list Opaque));
    GetAppInfoLocalizations :
      list call -> string -> Z ->
      result (Response (list (Resource AppInfoLocalizationAttributes.t)));
    GetAgeRatingDeclarationForAppStoreVersion :
      list call -> string -> result (Response Opaque) }.

(** The state of a run: the result behind the [result] pointer and the
    requests made so far, oldest first. *)
Record state : Type := mkState
  { result_ : SubmitValidateResult; calls : list call }.

Definition Run (A : Type) : Type := state -> A * state.

Definition ret {A} (a : A) : Run A := fun st => (a, st).

Definition bind {A B} (m : Run A) (k : A -> Run B) : Run B :=
  fun st => let (a, st') := m st in k a st'.

Declare Scope run_scope.
Delimit Scope run_scope with run.
Notation "x <- m ;; k" := (bind m (fun x => k))
  (at level 61, m at next level, right associativity) : run_scope.
Notation "m ;;; k" := (bind m (fun _ => k))
  (at level 61, right associativity) : run_scope.
Local Open Scope run_scope.

(** A client call: answered from the requests so far, then recorded. *)
Definition request {A} (c : call) (answer : list call -> result A)
  : Run (result A) :=
  fun st => (answer (calls st), mkState (result_ st) (calls st ++ [c])).

Definition update (f : SubmitValidateResult -> SubmitValidateResult)
  : Run unit :=
  fun st => (tt, mkState (f (result_ st)) (calls st)).

Definition addError (check message : string) : Run unit :=
  update (fun r =>
    mkResult (AppID r) (VersionID r) (Platform r)
      (Issues r ++ [mkIssue check "error" message])
      (wrapInt (ErrorCount r + 1)) (WarnCount r) (Ready r)).

Definition addWarning (check message : string) : Run unit :=
  update (fun r =>
    mkResult (AppID r) (VersionID r) (Platform r)
      (Issues r ++ [mkIssue check "warning" message])
      (ErrorCount r) (wrapInt (WarnCount r + 1)) (Ready r)).

(** [for _, x := range l { body }]. *)
Fixpoint forEach {A} (l : list A) (body : A -> Run unit) : Run unit :=
  match l with
  | [] => ret tt
  | x :: l' => body x ;;; forEach l' body
  end.

Definition checkBuildAttached (client : Client) (versionID : string)
  : Run unit :=
  r <- request (CallGetAppStoreVersionBuild versionID)
         (fun h => GetAppStoreVersionBuild client h versionID) ;;
  match r with
  | Err err =>
      if IsNotFound err
      then addError "build" "no build attached to this version"
      else addWarning "build" ("unable to check build: " ++ Error err)
  | Ok _ => ret tt
  end.

Definition checkScreenshots (client : Client)
    (localizationID locale : string) : Run unit :=
  r <- request (CallGetAppScreenshotSets localizationID)
         (fun h => GetAppScreenshotSets client h localizationID) ;;
  match r with
  | Err err =>
      addWarning "screenshots"
        ("locale " ++ locale ++ ": unable to check screenshots: " ++ Error err)
  | Ok sets =>
      match Data sets with
      | [] =>
          addError "screenshots"
            ("locale " ++ locale ++ ": no screenshot sets found")
      | _ :: _ =>
          forEach (Data sets) (fun set =>
            r <- request (CallGetAppScreenshots (ID set))
                   (fun h => GetAppScreenshots client h (ID set)) ;;
            match r with
            | Err err =>
                addWarning "screenshots"
                  ("locale " ++ locale ++ " ("
                     ++ AppScreenshotSetAttributes.ScreenshotDisplayType (Attributes set)
                     ++ "): unable to check: " ++ Error err)
            | Ok screenshots =>
                match Data screenshots with
                | [] =>
                    addWarning "screenshots"
                      ("locale " ++ locale ++ " ("
                         ++ AppScreenshotSetAttributes.ScreenshotDisplayType (Attributes set)
                         ++ "): empty screenshot set")
                | _ :: _ => ret tt
                end
            end)
      end
  end.

Definition checkVersionLocalizations (client : Client) (versionID : string)
  : Run unit :=
  r <- request (CallGetAppStoreVersionLocalizations versionID 200)
         (fun h => GetAppStoreVersionLocalizations client h versionID 200) ;;
  match r with
  | Err err =>
      addWarning "version_localizations" ("unable to fetch: " ++ Error err)
  | Ok resp =>
      match Data resp with
      | [] =>
          addError "version_localizations" "no version localizations found"
      | _ :: _ =>
          forEach (Data resp) (fun loc =>
            let locale :=
              AppStoreVersionLocalizationAttributes.Locale (Attributes loc) in
            (if strings.TrimSpace
                  (AppStoreVersionLocalizationAttributes.Description (Attributes loc))
                =? ""
             then addError "description"
                    ("locale " ++ locale ++ ": description is empty")
             else ret tt) ;;;
            (if strings.TrimSpace
                  (AppStoreVersionLocalizationAttributes.Keywords (Attributes loc))
                =? ""
             then addWarning "keywords"
                    ("locale " ++ locale ++ ": keywords are empty")
             else ret tt) ;;;
            checkScreenshots client (ID loc) locale)
      end
  end.

Definition checkAppInfoLocalizations (client : Client) (appID : string)
  : Run unit :=
  r <- request (CallGetAppInfos appID) (fun h => GetAppInfos client h appID) ;;
  match r with
  | Err err =>
      addWarning "app_info" ("unable to fetch app info: " ++ Error err)
  | Ok appInfoResp =>
      match Data appInfoResp with
      | [] => addError "app_info" "no app info records found"
      | appInfo :: _ =>
          let appInfoID := ID appInfo in
          r <- request (CallGetAppInfoLocalizations appInfoID 200)
                 (fun h => GetAppInfoLocalizations client h appInfoID 200) ;;
          match r with
          | Err err =>
              addWarning "app_info_localizations"
                ("unable to fetch: " ++ Error err)
          | Ok locs =>
              match Data locs with
              | [] =>
                  addError "app_info_localizations"
                    "no app info localizations found"
              | _ :: _ =>
                  forEach (Data locs) (fun loc =>
                    let locale :=
                      AppInfoLocalizationAttributes.Locale (Attributes loc) in
                    (if strings.TrimSpace
                          (AppInfoLocalizationAttributes.Name (Attributes loc))
                        =? ""
                     then addError "name"
                            ("locale " ++ locale ++ ": app name is empty")
                     else ret tt) ;;;
                    (if strings.TrimSpace
                          (AppInfoLocalizationAttributes.PrivacyPolicyURL (Attributes loc))
                        =? ""
                     then addWarning "privacy_policy_url"
                            ("locale " ++ locale ++ ": privacy policy URL is empty")
                     else ret tt))
              end
          end
      end
  end.

Definition checkAgeRating (client : Client) (versionID : string) : Run unit :=
  r <- request (CallGetAgeRatingDeclarationForAppStoreVersion versionID)
         (fun h => GetAgeRatingDeclarationForAppStoreVersion client h versionID) ;;
  match r with
  | Err err =>
      if IsNotFound err
      then addError "age_rating" "no age rating declaration found"
      else addWarning "age_rating" ("unable to check: " ++ Error err)
  | Ok _ => ret tt
  end.

Section WithExternals.
Context {ext : Externals}.

Definition isEditableState (state : string) : bool :=
  let s := ToUpper state in
  (s =? "PREPARE_FOR_SUBMISSION") || (s =? "DEVELOPER_REJECTED")
  || (s =? "REJECTED") || (s =? "METADATA_REJECTED")
  || (s =? "INVALID_BINARY") || (s =? "DEVELOPER_REMOVED_FROM_SALE").

(** The body of [runValidation] on the freshly made result. *)
Definition validation (client : Client) (appID versionID : string)
  : Run unit :=
  r <- request (CallGetAppStoreVersion versionID)
         (fun h => GetAppStoreVersion client h versionID) ;;
  match r with
  | Err err =>
      addError "version" ("failed to fetch version: " ++ Error err)
  | Ok versionResp =>
      let state := ResolveAppStoreVersionState (Attributes (Data versionResp)) in
      (if negb (isEditableState state)
       then addError "version_state"
              ("version is in non-editable state: " ++ state)
       else ret tt) ;;;
      checkBuildAttached client versionID ;;;
      checkVersionLocalizations client versionID ;;;
      checkAppInfoLocalizations client appID ;;;
      checkAgeRating client versionID ;;;
      update (fun r =>
        mkResult (AppID r) (VersionID r) (Platform r) (Issues r)
          (ErrorCount r) (WarnCount r) (ErrorCount r =? 0)%Z)
  end.

(** [runValidation]: the result it returns, and the requests it made. *)
Definition runValidation (client : Client) (appID versionID platform : string)
  : SubmitValidateResult * list call :=
  let st :=
    snd (validation client appID versionID
           (mkState (mkResult appID versionID platform [] 0 0 false) [])) in
  (result_ st, calls st).

End WithExternals.

End submit.

(* ================================================================== *)
(** ** [internal/cli/validate]: the page loops of [asc validate] *)
(* ================================================================== *)

Module validate.
Import asc.

(** [validation.IAP]. *)
Module IAP.
Record t : Type := mk
  { ID : string; Name : string; ProductID : string; Type_ : string;
    State : string }.
End IAP.

(** [validation.Subscription]. *)
Module Subscription.
Record t : Type := mk
  { ID : string; Name : string; ProductID : string; State : string;
    GroupID : string }.
End Subscription.

(** The query option of a collection request: a page size for the first
    page ([With...Limit]) or the link of the next page ([With...NextURL]). *)
Inductive pageOption : Type :=
| WithLimit (limit : Z)
| WithNextURL (next : string).

Inductive call : Type :=
| CallGetInAppPurchasesV2 (appID : string) (opt : pageOption)
| CallGetSubscriptionGroups (appID : string) (opt : pageOption)
| CallGetSubscriptions (groupID : string) (opt : pageOption).

(** The client: what each method answers, given the requests made before. *)
Record Client : Type := mkClient
  { GetInAppPurchasesV2 :
      list call -> string -> pageOption ->
      result (Response (list (Resource InAppPurchaseV2Attributes.t)));
    GetSubscriptionGroups :
      list call -> string -> pageOption -> result (Response (list Opaque));
    GetSubscriptions :
      list call -> string -> pageOption ->
      result (Response (list (Resource SubscriptionAttributes.t))) }.

Definition pageLimit : Z := 200.

Definition toIAP (item : Resource InAppPurchaseV2Attributes.t) : IAP.t :=
  IAP.mk (ID item)
    (InAppPurchaseV2Attributes.Name (Attributes item))
    (InAppPurchaseV2Attributes.ProductID (Attributes item))
    (InAppPurchaseV2Attributes.InAppPurchaseType (Attributes item))
    (InAppPurchaseV2Attributes.State (Attributes item)).

Definition toSubscription (groupID : string)
    (sub : Resource SubscriptionAttributes.t) : Subscription.t :=
  Subscription.mk (ID sub)
    (SubscriptionAttributes.Name (Attributes sub))
    (SubscriptionAttributes.ProductID (Attributes sub))
    (SubscriptionAttributes.State (Attributes sub))
    groupID.

(** The [for] loop of [runValidateIAP], entered with [nextURL], [iaps] and
    the requests made so far; one round per unit of [fuel].  The answer is
    the error the function returns from inside the loop or the list the
    loop leaves in [iaps], with the requests made; [None] when [fuel]
    rounds did not reach the end. *)
Fixpoint fetchInAppPurchases (fuel : nat) (client : Client) (appID : string)
    (nextURL : string) (iaps : list IAP.t) (history : list call)
  : option (result (list IAP.t) * list call) :=
  match fuel with
  | O => None
  | S fuel' =>
      let opt :=
        if negb (strings.TrimSpace nextURL =? "")
        then WithNextURL nextURL else WithLimit pageLimit in
      let history' := history ++ [CallGetInAppPurchasesV2 appID opt] in
      match GetInAppPurchasesV2 client history appID opt with
      | Err err =>
          Some (Err (wrap "validate iap: failed to fetch in-app purchases" err),
                history')
      | Ok resp =>
          let iaps := iaps ++ map toIAP (Data resp) in
          let nextURL := strings.TrimSpace (Next (Links_ resp)) in
          if nextURL =? "" then Some (Ok iaps, history')
          else fetchInAppPurchases fuel' client appID nextURL iaps history'
      end
  end.

(** The first loop of [runValidateSubscriptions]. *)
Fixpoint fetchGroupIDs (fuel : nat) (client : Client) (appID : string)
    (nextGroupsURL : string) (groupIDs : list string) (history : list call)
  : option (result (list string) * list call) :=
  match fuel with
  | O => None
  | S fuel' =>
      let opt :=
        if negb (strings.TrimSpace nextGroupsURL =? "")
        then WithNextURL nextGroupsURL else WithLimit pageLimit in
      let history' := history ++ [CallGetSubscriptionGroups appID opt] in
      match GetSubscriptionGroups client history appID opt with
      | Err err =>
          Some (Err (wrap "validate subscriptions: failed to fetch subscription groups"
                       err),
                history')
      | Ok groupsResp =>
          let groupIDs :=
            groupIDs
              ++ map ID
                   (filter (fun group => negb (strings.TrimSpace (ID group) =? ""))
                      (Data groupsResp)) in
          let nextGroupsURL := strings.TrimSpace (Next (Links_ groupsResp)) in
          if nextGroupsURL =? "" then Some (Ok groupIDs, history')
          else fetchGroupIDs fuel' client appID nextGroupsURL groupIDs history'
      end
  end.

(** The inner loop of [runValidateSubscriptions], for one group. *)
Fixpoint fetchSubscriptions (fuel : nat) (client : Client) (groupID : string)
    (nextSubsURL : string) (subs : list Subscription.t) (history : list call)
  : option (result (list Subscription.t) * list call) :=
  match fuel with
  | O => None
  | S fuel' =>
      let opt :=
        if negb (strings.TrimSpace nextSubsURL =? "")
        then WithNextURL nextSubsURL else WithLimit pageLimit in
      let history' := history ++ [CallGetSubscriptions groupID opt] in
      match GetSubscriptions client history groupID opt with
      | Err err =>
          Some (Err (wrap ("validate subscriptions: failed to fetch subscriptions for group "
                             ++ groupID) err),
                history')
      | Ok subsResp =>
          let subs := subs ++ map (toSubscription groupID) (Data subsResp) in
          let nextSubsURL := strings.TrimSpace (Next (Links_ subsResp)) in
          if nextSubsURL =? "" then Some (Ok subs, history')
          else fetchSubscriptions fuel' client groupID nextSubsURL subs history'
      end
  end.

(** [for _, groupID := range groupIDs { nextSubsURL := ""; for { ... } }]. *)
Fixpoint fetchAllSubscriptions (fuel : nat) (client : Client)
    (groupIDs : list string) (subs : list Subscription.t) (history : list call)
  : option (result (list Subscription.t) * list call) :=
  match groupIDs with
  | [] => Some (Ok subs, history)
  | groupID :: groupIDs' =>
      match fetchSubscriptions fuel client groupID "" subs history with
      | None => None
      | Some (Err err, history') => Some (Err err, history')
      | Some (Ok subs', history') =>
          fetchAllSubscriptions fuel client groupIDs' subs' history'
      end
  end.

Record validateIAPOptions : Type := mkValidateIAPOptions
  { iapAppID : string; iapStrict : bool; iapOutput : string; iapPretty : bool }.

Record validateSubscriptionsOptions : Type := mkValidateSubscriptionsOptions
  { subAppID : string; subStrict : bool; subOutput : string; subPretty : bool }.

(** [validation.IAPInput] and [validation.SubscriptionsInput]. *)
Record IAPInput : Type := mkIAPInput
  { IAPInput_AppID : string; IAPs : list IAP.t }.

Record SubscriptionsInput : Type := mkSubscriptionsInput
  { SubscriptionsInput_AppID : string; Subscriptions : list Subscription.t }.

(** [runValidateIAP] up to its call of [validation.ValidateIAP]: the error
    it returns before that call, or the input it hands over; with the
    requests made.  [clientFactory] is the answer of [clientFactory()]. *)
Definition runValidateIAP (fuel : nat) (clientFactory : result Client)
    (opts : validateIAPOptions)
  : option (result IAPInput * list call) :=
  match clientFactory with
  | Err err => Some (Err (wrap "validate iap" err), [])
  | Ok client =>
      match fetchInAppPurchases fuel client (iapAppID opts) "" [] [] with
      | None => None
      | Some (Err err, history) => Some (Err err, history)
      | Some (Ok iaps, history) =>
          Some (Ok (mkIAPInput (iapAppID opts) iaps), history)
      end
  end.

(** [runValidateSubscriptions] up to its call of
    [validation.ValidateSubscriptions]. *)
Definition runValidateSubscriptions (fuel : nat) (clientFactory : result Client)
    (opts : validateSubscriptionsOptions)
  : option (result SubscriptionsInput * list call) :=
  match clientFactory with
  | Err err => Some (Err (wrap "validate subscriptions" err), [])
  | Ok client =>
      match fetchGroupIDs fuel client (subAppID opts) "" [] [] with
      | None => None
      | Some (Err err, history) => Some (Err err, history)
      | Some (Ok groupIDs, history) =>
          match fetchAllSubscriptions fuel client groupIDs [] history with
          | None => None
          | Some (Err err, history') => Some (Err err, history')
          | Some (Ok subs, history') =>
              Some (Ok (mkSubscriptionsInput (subAppID opts) subs), history')
          end
      end
  end.

End validate.

(* ================================================================== *)
(** ** The cursor validator of the paginated commands *)
(* ================================================================== *)

Module shared.
Import asc.

(** What [url.Parse] keeps of a URL, as far as the validator reads it. *)
Record URL : Type := mkURL { Scheme : string; Host : string; Rest : string }.

(** The trusted origin, as the command tests have it: cursors of
    [https://api.appstoreconnect.apple.com] are followed, the same host
    over [http] is refused. *)
Definition trustedScheme : string := "https".
Definition trustedHost : string := "api.appstoreconnect.apple.com".

(** What a command run leaves behind: the requests sent, the two output
    streams and the returned error. *)
Record outcome : Type := mkOutcome
  { requests : list string;
    stdout : string;
    stderr : string;
    returned : option error }.

Section Validator.
(** [url.Parse] of the Go library. *)
Variable urlParse : string -> result URL.

(** Modelled from the spec: the Cursor Validator, whose code
    ([shared.validateNextURL] and its callers) is not among the sources.
    Sections 4.1 and 6: a candidate resume URL is approved, or refused
    as (a) not a valid URL at all, with the message
    ["<command-path>: --next must be a valid URL: <parse error>"], or as
    (b) a valid URL whose scheme and host are not those of the trusted
    origin, with ["<command-path>: --next must be an App Store Connect
    URL"]. *)
Definition validateNextURL (commandPath next : string) : option error :=
  match urlParse next with
  | Err err =>
      Some (mkError (commandPath ++ ": --next must be a valid URL: " ++ Error err)
              false)
  | Ok u =>
      if (Scheme u =? trustedScheme) && (Host u =? trustedHost) then None
      else
        Some (mkError (commandPath ++ ": --next must be an App Store Connect URL")
                false)
  end.

(** Modelled from the spec: a paginated command given [--next].
    Sections 4.1 and 7: the check runs strictly before the first network
    attempt with that URL, and a validation error aborts immediately with
    no partial output.  [fetch] is what the command does with an approved
    cursor. *)
Definition runWithNext (commandPath : string) (fetch : string -> outcome)
    (next : string) : outcome :=
  match validateNextURL commandPath next with
  | Some err => mkOutcome [] "" "" (Some err)
  | None => fetch next
  end.

End Validator.

End shared.

(* ================================================================== *)
(** ** [internal/cli/status], continued: [--include] and the renderers *)
(* ================================================================== *)

Module dashboard.
Import asc status.

Definition allowedIncludes : list string :=
  ["builds"; "testflight"; "appstore"; "submission"; "review";
   "phased-release"; "links"].

(** [strings.Join]. *)
Fixpoint Join (elems : list string) (sep : string) : string :=
  match elems with
  | [] => ""
  | [e] => e
  | e :: elems' => (e ++ sep ++ Join elems' sep)%string
  end.

(** [fmt.Sprintf("%t", b)] and [fmt.Sprintf("%d", n)]. *)
Definition formatBool (b : bool) : string := if b then "true" else "false".

Definition formatInt (n : Z) : string :=
  DecimalString.NilZero.string_of_int (Z.to_int n).

Definition newline : string := String (ascii_of_nat 10) "".

Section ParseInclude.
(** [shared.SplitCSV], [strings.ToLower] and the verb [%q] of [fmt]. *)
Variable SplitCSV : string -> list string.
Variable ToLower : string -> string.
Variable Quote : string -> string.

(** The [for] loop of [parseInclude] over [parts], entered with
    [includes]; on an unsupported part the function returns the zero
    [includeSet] with the error, of which the error is kept here. *)
Fixpoint parseParts (parts : list string) (includes : includeSet)
  : result includeSet :=
  match parts with
  | [] => Ok includes
  | part :: parts' =>
      if part =? "builds" then
        parseParts parts'
          (mkIncludeSet true (testflight includes) (appstore includes)
             (submission includes) (review includes) (phasedRelease includes)
             (links includes))
      else if part =? "testflight" then
        parseParts parts'
          (mkIncludeSet (builds includes) true (appstore includes)
             (submission includes) (review includes) (phasedRelease includes)
             (links includes))
      else if part =? "appstore" then
        parseParts parts'
          (mkIncludeSet (builds includes) (testflight includes) true
             (submission includes) (review includes) (phasedRelease includes)
             (links includes))
      else if part =? "submission" then
        parseParts parts'
          (mkIncludeSet (builds includes) (testflight includes) (appstore includes)
             true (review includes) (phasedRelease includes) (links includes))
      else if part =? "review" then
        parseParts parts'
          (mkIncludeSet (builds includes) (testflight includes) (appstore includes)
             (submission includes) true (phasedRelease includes) (links includes))
      else if part =? "phased-release" then
        parseParts parts'
          (mkIncludeSet (builds includes) (testflight includes) (appstore includes)
             (submission includes) (review includes) true (links includes))
      else if part =? "links" then
        parseParts parts'
          (mkIncludeSet (builds includes) (testflight includes) (appstore includes)
             (submission includes) (review includes) (phasedRelease includes) true)
      else
        Err (mkError
               ("--include contains unsupported section " ++ Quote part
                  ++ " (allowed: " ++ Join allowedIncludes "," ++ ")")
               false)
  end.

Definition parseInclude (value : string) : result includeSet :=
  let parts := SplitCSV (ToLower (strings.TrimSpace value)) in
  if (List.length parts =? 0)%nat then
    Ok (mkIncludeSet true true true true true true true)
  else parseParts parts (mkIncludeSet false false false false false false false).

End ParseInclude.

Section Render.
(** [asc.RenderTable] and [asc.RenderMarkdown], by what they print for the
    headers and the rows, and [strings.ToUpper]. *)
Variable RenderTable : list string -> list (list string) -> string.
Variable RenderMarkdown : list string -> list (list string) -> string.
Variable ToUpper : string -> string.

(** The closure [renderSection] of [renderDashboard]: what it prints. *)
Definition renderSection (markdown : bool) (title : string)
    (rows : list (list string)) : string :=
  if markdown then
    ("### " ++ title ++ newline ++ newline
       ++ RenderMarkdown ["field"; "value"] rows ++ newline)%string
  else
    (ToUpper title ++ newline ++ RenderTable ["field"; "value"] rows
       ++ newline)%string.

(** The calls of [renderSection] that [renderDashboard] makes, in their
    order: the title and the rows of each. *)
Definition dashboardSections (resp : dashboardResponse)
  : list (string * list (list string)) :=
  [("App",
    [["id"; statusApp.ID (App resp)];
     ["name"; statusApp.Name (App resp)];
     ["bundleId"; statusApp.BundleID (App resp)]])]
  ++ match Builds resp with
     | None => []
     | Some section =>
         [("Builds",
           match buildsSection.Latest section with
           | None => [["latest"; "none"]]
           | Some latest =>
               [["latest.id"; latestBuild.ID latest];
                ["latest.version"; latestBuild.Version latest];
                ["latest.buildNumber"; latestBuild.BuildNumber latest];
                ["latest.processingState"; latestBuild.ProcessingState latest];
                ["latest.uploadedDate"; latestBuild.UploadedDate latest];
                ["latest.platform"; latestBuild.Platform latest]]
           end)]
     end
  ++ match TestFlight resp with
     | None => []
     | Some section =>
         [("TestFlight",
           [["latestDistributedBuildId";
             testFlightSection.LatestDistributedBuildID section];
            ["betaReviewState"; testFlightSection.BetaReviewState section];
            ["externalBuildState"; testFlightSection.ExternalBuildState section];
            ["submittedDate"; testFlightSection.SubmittedDate section]])]
     end
  ++ match AppStore resp with
     | None => []
     | Some section =>
         [("AppStore",
           [["versionId"; appStoreSection.VersionID section];
            ["version"; appStoreSection.Version section];
            ["state"; appStoreSection.State section];
            ["platform"; appStoreSection.Platform section];
            ["createdDate"; appStoreSection.CreatedDate section]])]
     end
  ++ match Submission resp with
     | None => []
     | Some section =>
         let blocking :=
           if (0 <? List.length (submissionSection.BlockingIssues section))%nat
           then Join (submissionSection.BlockingIssues section) "; "
           else "none" in
         [("Submission",
           [["inFlight"; formatBool (submissionSection.InFlight section)];
            ["blockingIssues"; blocking]])]
     end
  ++ match Review resp with
     | None => []
     | Some section =>
         [("Review",
           [["latestSubmissionId"; reviewSection.LatestSubmissionID section];
            ["state"; reviewSection.State section];
            ["submittedDate"; reviewSection.SubmittedDate section];
            ["platform"; reviewSection.Platform section]])]
     end
  ++ match PhasedRelease resp with
     | None => []
     | Some section =>
         [("PhasedRelease",
           [["configured"; formatBool (phasedReleaseSection.Configured section)];
            ["id"; phasedReleaseSection.ID section];
            ["state"; phasedReleaseSection.State section];
            ["startDate"; phasedReleaseSection.StartDate section];
            ["currentDayNumber";
             formatInt (phasedReleaseSection.CurrentDayNumber section)];
            ["totalPauseDuration";
             formatInt (phasedReleaseSection.TotalPauseDuration section)]])]
     end
  ++ match Links resp with
     | None => []
     | Some section =>
         [("Links",
           [["appStoreConnect"; linksSection.AppStoreConnect section];
            ["testFlight"; linksSection.TestFlight section];
            ["review"; linksSection.Review section]])]
     end.

(** [renderDashboard]: what it writes to the standard output. *)
Definition renderDashboard (resp : dashboardResponse) (markdown : bool) : string :=
  String.concat ""
    (map (fun section => renderSection markdown (fst section) (snd section))
       (dashboardSections resp)).

Definition renderTable (resp : dashboardResponse) : string :=
  renderDashboard resp false.

Definition renderMarkdown (resp : dashboardResponse) : string :=
  renderDashboard resp true.

End Render.

End dashboard.

(* ================================================================== *)
(** ** [internal/cli/install]: [asc install-skills] *)
(* ================================================================== *)

Module install.
Import asc.

Definition defaultSkillsPackage : string := "rudrankriyam/asc-skills".

Definition errNpxNotFound : error := mkError "npx not found" false.

(** The character class of [validPackage], [[A-Za-z0-9@._/-]], on a byte:
    a byte above 127 belongs to a code point outside the class, or to no
    code point at all. *)
Definition packageByte (c : ascii) : bool :=
  let n := nat_of_ascii c in
  (((65 <=? n) && (n <=? 90)) || ((97 <=? n) && (n <=? 122))
   || ((48 <=? n) && (n <=? 57))
   || (n =? 64) || (n =? 46) || (n =? 95) || (n =? 47) || (n =? 45))%nat.

Fixpoint allBytes (p : ascii -> bool) (s : string) : bool :=
  match s with
  | EmptyString => true
  | String c s' => p c && allBytes p s'
  end.

(** [validPackage.MatchString]: the whole text, of one byte of the class
    at least. *)
Definition MatchString (s : string) : bool :=
  match s with
  | EmptyString => false
  | String _ _ => allBytes packageByte s
  end.

(** The returned [error], [None] for [nil]. *)
Definition validatePackageName (pkg : string) : option error :=
  if prefix "-" pkg then
    Some (mkError "--package must not start with '-'" false)
  else if negb (MatchString pkg) then
    Some (mkError
            "--package must be a valid npm package or repo (letters, numbers, @, ., _, -, /)"
            false)
  else None.

(** What a run asks of the system. *)
Inductive call : Type :=
| LookPath (file : string)
| Run (name : string) (args : list string).

Section InstallSkills.
(** The package variables [lookupNpx] and [runCommand]. *)
Variable lookupNpx : string -> result string.
Variable runCommand : string -> list string -> option error.

(** [installSkills]: the returned error and the calls made. *)
Definition installSkills (pkg : string) : option error * list call :=
  let pkg := strings.TrimSpace pkg in
  if pkg =? "" then (Some (mkError "--package is required" false), [])
  else
    match validatePackageName pkg with
    | Some err => (Some err, [])
    | None =>
        match lookupNpx "npx" with
        | Err _ =>
            (Some (mkError (Error errNpxNotFound ++ "; install Node.js to continue")
                     false),
             [LookPath "npx"])
        | Ok path =>
            (runCommand path ["--yes"; "skills"; "add"; pkg],
             [LookPath "npx"; Run path ["--yes"; "skills"; "add"; pkg]])
        end
    end.

(** [Exec] of [InstallSkillsCommand], given the value of [--package]. *)
Definition exec (packageName : string) : option error * list call :=
  match installSkills packageName with
  | (Some err, calls) => (Some (wrap "install skills" err), calls)
  | (None, calls) => (None, calls)
  end.

End InstallSkills.

End install.

(* ================================================================== *)
(** ** [internal/cli/profiles]: writing a profile file *)
(* ================================================================== *)

Module profiles.
Import asc.

(** What the code reads of an [os.FileInfo]: [Mode()&os.ModeSymlink != 0]
    and [IsDir()]. *)
Record FileInfo : Type := mkFileInfo { isSymlink : bool; isDir : bool }.

(** The operations on the file system, a file being named by its path. *)
Inductive op : Type :=
| MkdirAll (path : string) (perm : Z)
| Lstat (name : string)
| CreateTemp (dir pattern : string)
| Chmod (name : string) (perm : Z)
| Copy (name : string) (content : string)
| Sync (name : string)
| Close (name : string)
| Rename (oldpath newpath : string)
| Remove (name : string)
| SharedWriteProfileFile (path : string) (content : string).

(** The file system: what each operation answers after the operations made
    before it; [None] is the [nil] error, and [CreateTemp] answers with the
    name of the file it made. *)
Record System : Type := mkSystem
  { mkdirAll : list op -> string -> Z -> option error;
    lstat : list op -> string -> result FileInfo;
    createTemp : list op -> string -> string -> result string;
    chmod : list op -> string -> Z -> option error;
    copy : list op -> string -> string -> option error;
    sync : list op -> string -> option error;
    close : list op -> string -> option error;
    rename : list op -> string -> string -> option error;
    remove : list op -> string -> option error;
    sharedWriteProfileFile : list op -> string -> string -> option error }.

(** A computation on the file system: its value and the operations made. *)
Definition IO (A : Type) : Type := list op -> A * list op.

Definition ret {A} (a : A) : IO A := fun h => (a, h).

Definition bind {A B} (m : IO A) (k : A -> IO B) : IO B :=
  fun h => let (a, h') := m h in k a h'.

Definition perform {A} (o : op) (answer : list op -> A) : IO A :=
  fun h => (answer h, h ++ [o]).

Declare Scope io_scope.
Delimit Scope io_scope with io.
Notation "x <- m ;; k" := (bind m (fun x => k))
  (at level 61, m at next level, right associativity) : io_scope.
Notation "m ;;; k" := (bind m (fun _ => k))
  (at level 61, right associativity) : io_scope.
Local Open Scope io_scope.

(** [if err := call; err != nil { return err }], then the rest. *)
Definition check (o : op) (answer : list op -> option error)
    (rest : IO (option error)) : IO (option error) :=
  err <- perform o answer ;;
  match err with
  | Some err => ret (Some err)
  | None => rest
  end.

Section WriteFile.
Variable sys : System.
(** [filepath.Dir], [errors.Is(err, os.ErrNotExist)] and the verb [%q]. *)
Variable Dir : string -> string.
Variable IsNotExist : error -> bool.
Variable Quote : string -> string.

(** The replacement of an existing file when the first rename has failed
    with [err]. *)
Definition replaceExisting (path tempPath : string) (err : error)
  : IO (option error) :=
  backup <- perform (CreateTemp (Dir path) ".asc-profile-backup-*")
              (fun h => createTemp sys h (Dir path) ".asc-profile-backup-*") ;;
  match backup with
  | Err _ => ret (Some err)
  | Ok backupPath =>
      check (Close backupPath) (fun h => close sys h backupPath)
        (check (Remove backupPath) (fun h => remove sys h backupPath)
           (check (Rename path backupPath) (fun h => rename sys h path backupPath)
              (moveErr <- perform (Rename tempPath path)
                            (fun h => rename sys h tempPath path) ;;
               match moveErr with
               | Some moveErr =>
                   perform (Rename backupPath path)
                     (fun h => rename sys h backupPath path) ;;;
                   ret (Some moveErr)
               | None =>
                   perform (Remove backupPath) (fun h => remove sys h backupPath) ;;;
                   ret None
               end)))
  end.

(** From the creation of the temporary file to the [return] that leaves
    the function, the deferred calls not included; [success] is true
    exactly when [None] is returned. *)
Definition writeTemp (path tempPath content : string) (perm : Z)
    (hadExisting : bool) : IO (option error) :=
  check (Chmod tempPath perm) (fun h => chmod sys h tempPath perm)
    (check (Copy tempPath content) (fun h => copy sys h tempPath content)
       (check (Sync tempPath) (fun h => sync sys h tempPath)
          (check (Close tempPath) (fun h => close sys h tempPath)
             (err <- perform (Rename tempPath path)
                       (fun h => rename sys h tempPath path) ;;
              match err with
              | None => ret None
              | Some err =>
                  if negb hadExisting then ret (Some err)
                  else replaceExisting path tempPath err
              end)))).

(** [writeFileBytesNoSymlink], the [reader] given by its content. *)
Definition writeFileBytesNoSymlink (path content : string) (perm : Z)
  : IO (option error) :=
  check (MkdirAll (Dir path) 493) (fun h => mkdirAll sys h (Dir path) 493)
    (info <- perform (Lstat path) (fun h => lstat sys h path) ;;
     let continue (hadExisting : bool) : IO (option error) :=
       tempFile <- perform (CreateTemp (Dir path) ".asc-profile-*")
                     (fun h => createTemp sys h (Dir path) ".asc-profile-*") ;;
       match tempFile with
       | Err err => ret (Some err)
       | Ok tempPath =>
           result <- writeTemp path tempPath content perm hadExisting ;;
           (* the deferred calls, last registered first *)
           (match result with
            | Some _ =>
                perform (Remove tempPath) (fun h => remove sys h tempPath) ;;;
                ret tt
            | None => ret tt
            end) ;;;
           perform (Close tempPath) (fun h => close sys h tempPath) ;;;
           ret result
       end in
     match info with
     | Ok info =>
         if isSymlink info then
           ret (Some (mkError ("refusing to overwrite symlink " ++ Quote path) false))
         else if isDir info then
           ret (Some (mkError ("output path " ++ Quote path ++ " is a directory")
                        false))
         else continue true
     | Err err =>
         if negb (IsNotExist err) then ret (Some err) else continue false
     end).

(** [writeProfileFile]; [shared.WriteProfileFile] is one operation here. *)
Definition writeProfileFile (path content : string) (force : bool)
  : IO (option error) :=
  if negb force then
    perform (SharedWriteProfileFile path content)
      (fun h => sharedWriteProfileFile sys h path content)
  else writeFileBytesNoSymlink path content 420.

End WriteFile.

End profiles.

(* ================================================================== *)
(** ** [internal/cli/submit], continued: the command and its renderers *)
(* ================================================================== *)

Module submitCommand.
Import asc submit.

(** [flag.ErrHelp]. *)
Definition ErrHelp : error := mkError "flag: help requested" false.

Definition newline : string := String (ascii_of_nat 10) "".

(** [fmt.Sprintf("%d", n)]. *)
Definition formatInt (n : Z) : string :=
  DecimalString.NilZero.string_of_int (Z.to_int n).

(** The rows that both renderers hand to the table printer. *)
Definition issueRows (result : SubmitValidateResult) : list (list string) :=
  let rows := map (fun issue => [Check issue; Severity issue; Message issue])
                (Issues result) in
  if (List.length rows =? 0)%nat then rows ++ [["all"; "info"; "no issues found"]]
  else rows.

Section Renderers.
(** [asc.RenderTable] and [asc.RenderMarkdown], by what they print. *)
Variable RenderTable : list string -> list (list string) -> string.
Variable RenderMarkdown : list string -> list (list string) -> string.

(** [printValidateTable]: what it prints (it returns [nil]). *)
Definition printValidateTable (result : SubmitValidateResult) : string :=
  ((if Ready result then "Status: READY" ++ newline
    else "Status: NOT READY" ++ newline)
   ++ "App: " ++ AppID result ++ "  Version: " ++ VersionID result
   ++ "  Platform: " ++ Platform result ++ newline
   ++ "Errors: " ++ formatInt (ErrorCount result)
   ++ "  Warnings: " ++ formatInt (WarnCount result) ++ newline ++ newline
   ++ RenderTable ["check"; "severity"; "message"] (issueRows result))%string.

(** [printValidateMarkdown]. *)
Definition printValidateMarkdown (result : SubmitValidateResult) : string :=
  let status := if negb (Ready result) then "NOT READY" else "READY" in
  ("**Status:** " ++ status ++ newline ++ newline
   ++ "**App:** " ++ AppID result ++ "  **Version:** " ++ VersionID result
   ++ "  **Platform:** " ++ Platform result ++ newline ++ newline
   ++ "**Errors:** " ++ formatInt (ErrorCount result)
   ++ "  **Warnings:** " ++ formatInt (WarnCount result) ++ newline ++ newline
   ++ RenderMarkdown ["check"; "severity"; "message"] (issueRows result))%string.

End Renderers.

(** The flags of [asc submit validate]. *)
Record flags : Type := mkFlags
  { app : string; version : string; versionID : string; platform : string;
    output : string; pretty : bool }.

(** What a run of the command leaves: the lines written to the standard
    error, the result handed to the printer, the requests of the
    validation, and the returned error. *)
Record execution : Type := mkExecution
  { stderr : list string;
    printed : option SubmitValidateResult;
    requests : list call;
    returned : option error }.

Section Exec.
Context {ext : Externals}.
(** Of the package [shared]: [UsageError], [ResolveAppID],
    [NormalizeAppStoreVersionPlatform], [GetASCClient],
    [ResolveAppStoreVersionID] (with the client, the app, the version
    string and the platform), [PrintOutputWithRenderers] (by the error it
    returns for a result and the two output flags) and [NewReportedError]. *)
Variable UsageError : string -> error.
Variable ResolveAppID : string -> string.
Variable NormalizeAppStoreVersionPlatform : string -> result string.
Variable GetASCClient : result Client.
Variable ResolveAppStoreVersionID :
  Client -> string -> string -> string -> result string.
Variable PrintOutputWithRenderers :
  SubmitValidateResult -> string -> bool -> option error.
Variable NewReportedError : error -> error.

(** [Exec] of [SubmitValidateCommand]. *)
Definition Exec (f : flags) : execution :=
  if (strings.TrimSpace (version f) =? "") && (strings.TrimSpace (versionID f) =? "")
  then
    mkExecution ["Error: --version or --version-id is required"] None []
      (Some ErrHelp)
  else if negb (strings.TrimSpace (version f) =? "")
          && negb (strings.TrimSpace (versionID f) =? "")
  then
    mkExecution [] None []
      (Some (UsageError "--version and --version-id are mutually exclusive"))
  else
    let resolvedAppID := ResolveAppID (app f) in
    if resolvedAppID =? "" then
      mkExecution ["Error: --app is required (or set ASC_APP_ID)"] None []
        (Some ErrHelp)
    else
      match NormalizeAppStoreVersionPlatform (platform f) with
      | Err err => mkExecution [] None [] (Some (UsageError (Error err)))
      | Ok normalizedPlatform =>
          match GetASCClient with
          | Err err => mkExecution [] None [] (Some (wrap "submit validate" err))
          | Ok client =>
              let resolved :=
                if strings.TrimSpace (versionID f) =? "" then
                  ResolveAppStoreVersionID client resolvedAppID
                    (strings.TrimSpace (version f)) normalizedPlatform
                else Ok (strings.TrimSpace (versionID f)) in
              match resolved with
              | Err err =>
                  mkExecution [] None [] (Some (wrap "submit validate" err))
              | Ok resolvedVersionID =>
                  let (result, calls) :=
                    runValidation client resolvedAppID resolvedVersionID
                      normalizedPlatform in
                  match PrintOutputWithRenderers result (output f) (pretty f) with
                  | Some err => mkExecution [] (Some result) calls (Some err)
                  | None =>
                      if (ErrorCount result >? 0)%Z then
                        mkExecution [] (Some result) calls
                          (Some (NewReportedError
                                   (mkError
                                      ("submit validate: "
                                         ++ formatInt (ErrorCount result)
                                         ++ " error(s) found")
                                      false)))
                      else mkExecution [] (Some result) calls None
                  end
              end
          end
      end.

End Exec.

End submitCommand.

(* ================================================================== *)
(** ** Test data *)
(* ================================================================== *)

Module samples.
Import asc.

(** The two versions of [TestSelectLatestAppStoreVersion_DeterministicTieBreak]. *)
Definition ver1 : Resource AppStoreVersionAttributes.t :=
  mkResource "ver-1"
    (AppStoreVersionAttributes.mk "" "" "" "" "2026-02-20T00:00:00Z").

Definition ver2 : Resource AppStoreVersionAttributes.t :=
  mkResource "ver-2"
    (AppStoreVersionAttributes.mk "" "" "" "" "2026-02-20T00:00:00Z").

(** Pages in the manner of the pagination tests: a first page with one item
    and a link, a second page with one item and no link. *)
Definition secondURL : string :=
  "https://api.appstoreconnect.apple.com/v1/apps/app-1/inAppPurchasesV2?cursor=BQ&limit=200".

Definition iapA : Resource InAppPurchaseV2Attributes.t :=
  mkResource "iap-next-1"
    (InAppPurchaseV2Attributes.mk "Coins" "com.example.coins" "CONSUMABLE" "APPROVED").

Definition iapB : Resource InAppPurchaseV2Attributes.t :=
  mkResource "iap-next-2"
    (InAppPurchaseV2Attributes.mk "Gems" "com.example.gems" "CONSUMABLE"
       "MISSING_METADATA").

Definition unexpected {A : Type} : result A :=
  Err (mkError "unexpected request" false).

Definition timeout : error := mkError "context deadline exceeded" false.

(** Answers the first page, and the second page with [second]. *)
Definition iapPages (link : string)
    (second : result (Response (list (Resource InAppPurchaseV2Attributes.t))))
  : validate.Client :=
  validate.mkClient
    (fun history appID opt =>
       match opt with
       | validate.WithLimit _ => Ok (mkResponse [iapA] (mkLinks link))
       | validate.WithNextURL _ => second
       end)
    (fun _ _ _ => unexpected)
    (fun _ _ _ => unexpected).

Definition iapTwoPages : validate.Client :=
  iapPages secondURL (Ok (mkResponse [iapB] (mkLinks ""))).

Definition iapSecondPageFails : validate.Client :=
  iapPages secondURL (Err timeout).

(** Three blanks and a tab. *)
Definition blankLink : string := String " " (String " " (String " " (String (ascii_of_nat 9) ""))).

Definition iapBlankLink : validate.Client := iapPages blankLink unexpected.

Definition iapOptions : validate.validateIAPOptions :=
  validate.mkValidateIAPOptions "app-1" false "json" false.

Definition group1 : Opaque := mkResource "group-1" tt.
Definition group2 : Opaque := mkResource "group-2" tt.

Definition subA : Resource SubscriptionAttributes.t :=
  mkResource "sub-1" (SubscriptionAttributes.mk "Monthly" "com.example.monthly" "APPROVED").

(** Two groups; the subscriptions of the first are fetched, the request for
    the second group fails.  With [link] on the page of groups and on the
    page of the first group's subscriptions. *)
Definition subsClient (link : string) : validate.Client :=
  validate.mkClient
    (fun _ _ _ => unexpected)
    (fun history appID opt =>
       match opt with
       | validate.WithLimit _ => Ok (mkResponse [group1; group2] (mkLinks link))
       | validate.WithNextURL _ => unexpected
       end)
    (fun history groupID opt =>
       if groupID =? "group-1"
       then Ok (mkResponse [subA] (mkLinks link))
       else Err timeout).

Definition subsOptions : validate.validateSubscriptionsOptions :=
  validate.mkValidateSubscriptionsOptions "app-1" false "json" false.

(** An instance of the outside functions for running the examples: case
    mapping on the ASCII letters, the state taken from [appVersionState]
    (or [appStoreState] when that is empty), no relationships document
    decoded, and the submission states by their API names. *)
Definition upperByte (c : ascii) : ascii :=
  let n := nat_of_ascii c in
  if ((97 <=? n) && (n <=? 122))%nat then ascii_of_nat (n - 32) else c.

Fixpoint upperASCII (s : string) : string :=
  match s with
  | EmptyString => EmptyString
  | String c s' => String (upperByte c) (upperASCII s')
  end.

Definition externals : Externals :=
  {| ToUpper := upperASCII;
     EqualFold := fun a b => upperASCII a =? upperASCII b;
     Unmarshal := fun _ => Err (mkError "unexpected end of JSON input" false);
     ResolveAppStoreVersionState := fun attrs =>
       if AppStoreVersionAttributes.AppVersionState attrs =? ""
       then AppStoreVersionAttributes.AppStoreState attrs
       else AppStoreVersionAttributes.AppVersionState attrs;
     ReviewSubmissionStateReadyForReview := "READY_FOR_REVIEW";
     ReviewSubmissionStateWaitingForReview := "WAITING_FOR_REVIEW";
     ReviewSubmissionStateInReview := "IN_REVIEW";
     ReviewSubmissionStateUnresolvedIssues := "UNRESOLVED_ISSUES";
     ReviewSubmissionStateCanceling := "CANCELING" |}.

Definition noLinks : Links := mkLinks "".

Definition notFound : error := mkError "Not Found" true.

(** The server of [TestSubmitValidateAllChecksPass]. *)
Definition versionOK
  : result (Response (Resource AppStoreVersionAttributes.t)) :=
  Ok (mkResponse
        (mkResource "ver-1"
           (AppStoreVersionAttributes.mk "IOS" "1.0.0" "" "PREPARE_FOR_SUBMISSION" ""))
        noLinks).

Definition allChecksPass : submit.Client :=
  submit.mkClient
    (fun _ _ => versionOK)
    (fun _ _ => Ok (mkResponse (mkResource "build-1" tt) noLinks))
    (fun _ _ _ =>
       Ok (mkResponse
             [mkResource "loc-1"
                (AppStoreVersionLocalizationAttributes.mk "en-US" "A great app" "app,great")]
             noLinks))
    (fun _ _ =>
       Ok (mkResponse
             [mkResource "set-1" (AppScreenshotSetAttributes.mk "APP_IPHONE_67")]
             noLinks))
    (fun _ _ => Ok (mkResponse [mkResource "ss-1" tt] noLinks))
    (fun _ _ => Ok (mkResponse [mkResource "info-1" tt] noLinks))
    (fun _ _ _ =>
       Ok (mkResponse
             [mkResource "ailoc-1"
                (AppInfoLocalizationAttributes.mk "en-US" "My App"
                   "https://example.com/privacy")]
             noLinks))
    (fun _ _ => Ok (mkResponse (mkResource "age-1" tt) noLinks)).

(** The server of [TestSubmitValidateDetectsMissingBuildAndDescription],
    answering the version request with [version]. *)
Definition missingBuildAndDescription
    (version : result (Response (Resource AppStoreVersionAttributes.t)))
  : submit.Client :=
  submit.mkClient
    (fun _ _ => version)
    (fun _ _ => Err notFound)
    (fun _ _ _ =>
       Ok (mkResponse
             [mkResource "loc-1"
                (AppStoreVersionLocalizationAttributes.mk "en-US" "" "app")]
             noLinks))
    (fun _ _ => Ok (mkResponse [] noLinks))
    (fun _ _ => unexpected)
    (fun _ _ => Ok (mkResponse [mkResource "info-1" tt] noLinks))
    (fun _ _ _ =>
       Ok (mkResponse
             [mkResource "ailoc-1"
                (AppInfoLocalizationAttributes.mk "en-US" "My App"
                   "https://example.com/privacy")]
             noLinks))
    (fun _ _ => Ok (mkResponse (mkResource "age-1" tt) noLinks)).

(** A server on which every request but the version request times out. *)
Definition onlyVersionAnswers : submit.Client :=
  submit.mkClient
    (fun _ _ => versionOK)
    (fun _ _ => Err timeout)
    (fun _ _ _ => Err timeout)
    (fun _ _ => Err timeout)
    (fun _ _ => Err timeout)
    (fun _ _ => Err timeout)
    (fun _ _ _ => Err timeout)
    (fun _ _ => Err timeout).

(** All checks pass but the age rating request, which times out. *)
Definition ageRatingTimesOut : submit.Client :=
  submit.mkClient
    (submit.GetAppStoreVersion allChecksPass)
    (submit.GetAppStoreVersionBuild allChecksPass)
    (submit.GetAppStoreVersionLocalizations allChecksPass)
    (submit.GetAppScreenshotSets allChecksPass)
    (submit.GetAppScreenshots allChecksPass)
    (submit.GetAppInfos allChecksPass)
    (submit.GetAppInfoLocalizations allChecksPass)
    (fun _ _ => Err timeout).

(** A server for the dashboard: no builds yet, two versions of the same
    date without a phased release, and [submissions] for the review
    submissions. *)
Definition appResponse : Response (Resource AppAttributes.t) :=
  mkResponse (mkResource "app-1" (AppAttributes.mk "com.example.app" "Example"))
    noLinks.

Definition appOK : result (Response (Resource AppAttributes.t)) := Ok appResponse.

Definition dashboardServer
    (submissions : result (Response (list ReviewSubmissionResource)))
  : status.Client :=
  status.mkClient
    (fun _ => appOK)
    (fun _ _ _ => Ok (mkResponse [] noLinks))
    (fun _ => unexpected)
    (fun _ _ => unexpected)
    (fun _ _ => unexpected)
    (fun _ _ => Ok (mkResponse [ver1; ver2] noLinks))
    (fun _ => Err notFound)
    (fun _ _ => submissions).

Definition submissionsFail : status.Client := dashboardServer (Err timeout).

Definition submissionsOK : status.Client :=
  dashboardServer
    (Ok (mkResponse
           [mkResource "sub-1"
              (ReviewSubmissionAttributes.mk "WAITING_FOR_REVIEW"
                 "2026-02-20T00:00:00Z" "IOS")]
           noLinks)).

Definition allSections : status.includeSet :=
  status.mkIncludeSet true true true true true true true.

(** All three goroutines take a slot; the second task returns first, the
    first task last. *)
Definition overlapped : list status.event :=
  [status.Acquire 0; status.Acquire 1; status.Acquire 2;
   status.Complete 1; status.Complete 2; status.Complete 0].

(** A reader of absolute URLs to run the cases of the command tests, in
    the place of [url.Parse]: scheme up to ["://"], host up to the first of
    [/ ? #], and a percent sign must be followed by two hexadecimal digits. *)
Fixpoint spanHost (s : string) : string * string :=
  match s with
  | EmptyString => (EmptyString, EmptyString)
  | String c s' =>
      if (Ascii.eqb c "/" || Ascii.eqb c "?" || Ascii.eqb c "#")%bool then (EmptyString, s)
      else let (h, r) := spanHost s' in (String c h, r)
  end.

Definition isHex (c : ascii) : bool :=
  let n := nat_of_ascii c in
  (((48 <=? n) && (n <=? 57)) || ((65 <=? n) && (n <=? 70))
   || ((97 <=? n) && (n <=? 102)))%nat.

Fixpoint escapesOK (s : string) : bool :=
  match s with
  | EmptyString => true
  | String c s' =>
      if Ascii.eqb c "%" then
        match s' with
        | String a (String b _) => isHex a && isHex b && escapesOK s'
        | _ => false
        end
      else escapesOK s'
  end.

Definition parseURL (s : string) : result shared.URL :=
  if escapesOK s then
    match index 0 "://" s with
    | Some n =>
        let (host, rest) :=
          spanHost (substring (n + 3) (String.length s - (n + 3)) s) in
        Ok (shared.mkURL (substring 0 n s) host rest)
    | None => Ok (shared.mkURL "" "" s)
    end
  else Err (mkError ("parse " ++ s ++ ": invalid URL escape") false).

(** The two cursors of [runBundleIDsInvalidNextURLCases]. *)
Definition wrongScheme : string :=
  "http://api.appstoreconnect.apple.com/v1/bundleIds?cursor=AQ".

Definition malformed : string := "https://api.appstoreconnect.apple.com/%zz".

(** A command that, given an approved cursor, requests it and prints. *)
Definition fetchAndPrint (next : string) : shared.outcome :=
  shared.mkOutcome [next] "{}" "" None.

(** The two submissions of [TestSelectLatestReviewSubmission_DeterministicTieBreak]. *)
Definition sub1 : ReviewSubmissionResource :=
  mkResource "sub-1" (ReviewSubmissionAttributes.mk "" "2026-02-20T00:00:00Z" "").

Definition sub2 : ReviewSubmissionResource :=
  mkResource "sub-2" (ReviewSubmissionAttributes.mk "" "2026-02-20T00:00:00Z" "").

(** As [externals], with a decoder that knows one relationships document:
    a build reference with blanks around its identifier. *)
Definition buildRelationship : string := "{build: build-1 }".

Definition externalsJSON : Externals :=
  {| ToUpper := upperASCII;
     EqualFold := fun a b => upperASCII a =? upperASCII b;
     Unmarshal := fun raw =>
       if raw =? buildRelationship
       then Ok (fun key =>
                  if key =? "build" then Some (mkResourceData "builds" " build-1 ")
                  else None)
       else Err (mkError "unexpected end of JSON input" false);
     ResolveAppStoreVersionState := ResolveAppStoreVersionState (Externals := externals);
     ReviewSubmissionStateReadyForReview := "READY_FOR_REVIEW";
     ReviewSubmissionStateWaitingForReview := "WAITING_FOR_REVIEW";
     ReviewSubmissionStateInReview := "IN_REVIEW";
     ReviewSubmissionStateUnresolvedIssues := "UNRESOLVED_ISSUES";
     ReviewSubmissionStateCanceling := "CANCELING" |}.

Definition betaDetail (state : string) : BuildBetaDetail.t :=
  BuildBetaDetail.mk "detail-1" state buildRelationship.


(** Stand-ins for [shared.SplitCSV], [strings.ToLower] and [%q] on the
    values of the command tests: the parts between commas, trimmed, the
    blank ones dropped; ASCII letters; and the text between quotation marks. *)
Fixpoint splitComma (s : string) : list string :=
  match s with
  | EmptyString => [EmptyString]
  | String c s' =>
      if Ascii.eqb c "," then EmptyString :: splitComma s'
      else
        match splitComma s' with
        | [] => [String c EmptyString]
        | part :: parts => String c part :: parts
        end
  end.

Definition splitCSV (value : string) : list string :=
  filter (fun part => negb (part =? EmptyString))
    (map strings.TrimSpace (splitComma value)).

Definition lowerByte (c : ascii) : ascii :=
  let n := nat_of_ascii c in
  if ((65 <=? n) && (n <=? 90))%nat then ascii_of_nat (n + 32) else c.

Fixpoint lowerASCII (s : string) : string :=
  match s with
  | EmptyString => EmptyString
  | String c s' => String (lowerByte c) (lowerASCII s')
  end.

Definition quote (s : string) : string :=
  String (ascii_of_nat 34) (s ++ String (ascii_of_nat 34) EmptyString).


(** A file system on which every operation succeeds, [Lstat] answering
    with [info] and [CreateTemp] with a name in the directory; with
    stand-ins for [filepath.Dir] and [errors.Is(err, os.ErrNotExist)]. *)
Definition fileSystem (info : result profiles.FileInfo) : profiles.System :=
  profiles.mkSystem
    (fun _ _ _ => None)
    (fun _ _ => info)
    (fun _ dir _ => Ok (dir ++ "/.asc-profile-1")%string)
    (fun _ _ _ => None)
    (fun _ _ _ => None)
    (fun _ _ => None)
    (fun _ _ => None)
    (fun _ _ _ => None)
    (fun _ _ => None)
    (fun _ _ _ => None).

Definition notExist : error := mkError "lstat: no such file or directory" false.

Definition isNotExist (err : error) : bool :=
  Error err =? "lstat: no such file or directory".

Definition profileDir (path : string) : string := "profiles".

Definition profilePath : string := "profiles/app.mobileprovision".


(** A server with two builds, of which the second, [build-1], is in beta
    testing. *)
Definition twoBuilds : status.Client :=
  status.mkClient
    (fun _ => appOK)
    (fun _ _ _ =>
       Ok (mkResponse
             [mkResource "build-2"
                (BuildAttributes.mk "43" "VALID" "2026-02-21T00:00:00Z");
              mkResource "build-1"
                (BuildAttributes.mk "42" "VALID" "2026-02-20T00:00:00Z")]
             noLinks))
    (fun _ => Err notFound)
    (fun _ _ => Ok (mkResponse [betaDetail " in_beta_testing "] noLinks))
    (fun _ _ => Ok (mkResponse [] noLinks))
    (fun _ _ => unexpected)
    (fun _ => unexpected)
    (fun _ _ => unexpected).


(** One group with one subscription, on one page each. *)
Definition oneGroup : validate.Client :=
  validate.mkClient
    (fun _ _ _ => unexpected)
    (fun _ _ _ => Ok (mkResponse [group1] (mkLinks "")))
    (fun _ _ _ => Ok (mkResponse [subA] (mkLinks ""))).

(** All checks pass but the screenshot sets request, which times out. *)
Definition screenshotSetsTimeOut : submit.Client :=
  submit.mkClient
    (submit.GetAppStoreVersion allChecksPass)
    (submit.GetAppStoreVersionBuild allChecksPass)
    (submit.GetAppStoreVersionLocalizations allChecksPass)
    (fun _ _ => Err timeout)
    (submit.GetAppScreenshots allChecksPass)
    (submit.GetAppInfos allChecksPass)
    (submit.GetAppInfoLocalizations allChecksPass)
    (submit.GetAgeRatingDeclarationForAppStoreVersion allChecksPass).

End samples.

(* ================================================================== *)
(** ** The vocabulary of the properties *)
(* ================================================================== *)

(** *** The byte-wise order on strings, and the later of two items *)

Definition strLe (a b : string) : Prop := String.leb a b = true.
Definition strLt (a b : string) : Prop := String.ltb a b = true.

Section LaterOfTwo.
Variable A : Type.
Variables date ident : A -> string.

(** One round of the selection loop. *)
Definition later (best current : A) : A :=
  if strings.gt (date current) (date best) then current
  else if (date current =? date best) && strings.gt (ident current) (ident best)
       then current
       else best.

(** [x] does not come after [y]: an earlier date, or the same date and an
    identifier that is not greater. *)
Definition notAfter (x y : A) : Prop :=
  strLt (date x) (date y) \/ (date x = date y /\ strLe (ident x) (ident y)).

End LaterOfTwo.

(** The date by which versions are compared. *)
Definition createdDate (v : asc.Resource asc.AppStoreVersionAttributes.t) : string :=
  asc.AppStoreVersionAttributes.CreatedDate (asc.Attributes v).

(** *** Page loops *)

Section PageLoopShape.
Import asc validate.
Context {Item Out : Type}.
(** The client method with its fixed first argument, the request it stands
    for, the conversion of a page's items, and the text put before a fetch
    error. *)
Variable get : list call -> pageOption -> result (Response (list Item)).
Variable mkCall : pageOption -> call.
Variable conv : list Item -> list Out.
Variable failure : string.

(** The query option with which a loop asks for its next page. *)
Definition optionFor (nextURL : string) : pageOption :=
  if negb (strings.TrimSpace nextURL =? "")
  then WithNextURL nextURL else WithLimit pageLimit.

(** The shape the three loops share. *)
Fixpoint pageLoop (fuel : nat) (nextURL : string) (acc : list Out)
    (history : list call) : option (result (list Out) * list call) :=
  match fuel with
  | O => None
  | S fuel' =>
      let history' := history ++ [mkCall (optionFor nextURL)] in
      match get history (optionFor nextURL) with
      | Err err => Some (Err (wrap failure err), history')
      | Ok resp =>
          let acc := acc ++ conv (Data resp) in
          let nextURL := strings.TrimSpace (Next (Links_ resp)) in
          if nextURL =? "" then Some (Ok acc, history')
          else pageLoop fuel' nextURL acc history'
      end
  end.

(** [Fetched n h pages n' h']: entered with link [n] after the requests [h],
    the loop fetches [pages] one after the other, each with a link to the
    next, and stands at link [n'] after the requests [h']. *)
Inductive Fetched
  : string -> list call -> list (Response (list Item)) -> string -> list call -> Prop :=
| Fetched_none n h : Fetched n h [] n h
| Fetched_page n h resp pages n' h' :
    get h (optionFor n) = Ok resp ->
    strings.TrimSpace (Next (Links_ resp)) <> "" ->
    Fetched (strings.TrimSpace (Next (Links_ resp))) (h ++ [mkCall (optionFor n)])
      pages n' h' ->
    Fetched n h (resp :: pages) n' h'.

Definition itemsOf (pages : list (Response (list Item))) : list Out :=
  flat_map (fun resp => conv (Data resp)) pages.

End PageLoopShape.

(** The identifiers the group loop keeps of a page: the non-blank ones. *)
Definition keptGroupIDs (groups : list asc.Opaque) : list string :=
  map (@asc.ID _)
    (filter (fun group => negb (strings.TrimSpace (asc.ID group) =? "")) groups).

(** *** Validation runs *)

(** The number of issues of one severity. *)
Definition countSeverity (severity : string) (issues : list submit.SubmitValidateIssue)
  : nat :=
  List.length (filter (fun issue => submit.Severity issue =? severity) issues).

(** The counters agree with the issue list. *)
Definition counted (st : submit.state) : Prop :=
  submit.ErrorCount (submit.result_ st)
  = submit.wrapInt (Z.of_nat (countSeverity "error" (submit.Issues (submit.result_ st))))
  /\ submit.WarnCount (submit.result_ st)
     = submit.wrapInt (Z.of_nat (countSeverity "warning" (submit.Issues (submit.result_ st)))).

(** The second state continues the first: requests and issues are only
    added at the end, and the ready flag stays. *)
Definition continues (st st' : submit.state) : Prop :=
  (exists cs, submit.calls st' = submit.calls st ++ cs)
  /\ (exists issues,
        submit.Issues (submit.result_ st')
        = submit.Issues (submit.result_ st) ++ issues)
  /\ submit.Ready (submit.result_ st') = submit.Ready (submit.result_ st).

(** Every run of [m] takes a state to one related by [R]. *)
Definition respects (R : submit.state -> submit.state -> Prop) {A}
    (m : submit.Run A) : Prop :=
  forall st, R st (snd (m st)).

(** [R] is a preorder that the three primitive steps of a run respect. *)
Record stepwise (R : submit.state -> submit.state -> Prop) : Prop :=
  { stepwise_refl : forall st, R st st;
    stepwise_trans : forall st1 st2 st3, R st1 st2 -> R st2 st3 -> R st1 st3;
    stepwise_request :
      forall A c (answer : list submit.call -> asc.result A),
        respects R (submit.request c answer);
    stepwise_addError :
      forall check message, respects R (submit.addError check message);
    stepwise_addWarning :
      forall check message, respects R (submit.addWarning check message) }.

(** The result with one more issue of severity error, or warning. *)
Definition errorAdded (r : submit.SubmitValidateResult) (check message : string)
  : submit.SubmitValidateResult :=
  submit.mkResult (submit.AppID r) (submit.VersionID r) (submit.Platform r)
    (submit.Issues r ++ [submit.mkIssue check "error" message])
    (submit.wrapInt (submit.ErrorCount r + 1)) (submit.WarnCount r) (submit.Ready r).

Definition warningAdded (r : submit.SubmitValidateResult) (check message : string)
  : submit.SubmitValidateResult :=
  submit.mkResult (submit.AppID r) (submit.VersionID r) (submit.Platform r)
    (submit.Issues r ++ [submit.mkIssue check "warning" message])
    (submit.ErrorCount r) (submit.wrapInt (submit.WarnCount r + 1)) (submit.Ready r).

(** The four checks that follow the version check all made their request. *)
Definition checklistExecuted (appID versionID : string) (calls : list submit.call)
  : Prop :=
  In (submit.CallGetAppStoreVersionBuild versionID) calls
  /\ In (submit.CallGetAppStoreVersionLocalizations versionID 200) calls
  /\ In (submit.CallGetAppInfos appID) calls
  /\ In (submit.CallGetAgeRatingDeclarationForAppStoreVersion versionID) calls.

(** *** Executions of the section aggregator *)

Section Executions.
Import status.

(** The tasks in the order in which they returned. *)
Definition completions (schedule : list event) : list nat :=
  flat_map (fun ev => match ev with Complete i => [i] | Acquire _ => [] end)
    schedule.

(** The tasks run one after the other in [order], on one snapshot, with the
    errors sent to [errCh] in that order. *)
Fixpoint replay (tasks : list sectionTask) (order : list nat)
    (resp : dashboardResponse) (errs : list asc.error)
  : dashboardResponse * list asc.error :=
  match order with
  | [] => (resp, errs)
  | i :: order' =>
      match nth_error tasks i with
      | Some current =>
          match run current resp with
          | (resp', asc.Err err) =>
              replay tasks order' resp' (errs ++ [asc.wrap (name current) err])
          | (resp', asc.Ok _) => replay tasks order' resp' errs
          end
      | None => replay tasks order' resp errs
      end
  end.

(** [done] lists, without repetition, the goroutines that are finished. *)
Definition doneExactly (p : pool) (done : list nat) : Prop :=
  NoDup done /\ forall i, In i done <-> nth_error (routines p) i = Some Finished.

(** The schedule that lets the tasks run one after the other. *)
Fixpoint oneByOne (i n : nat) : list event :=
  match n with
  | O => []
  | S n' => Acquire i :: Complete i :: oneByOne (S i) n'
  end.

(** A task that returns an error, or no error, on whatever snapshot. *)
Definition alwaysFails (task : sectionTask) : Prop :=
  forall resp, exists resp' err, run task resp = (resp', asc.Err err).

Definition neverFails (task : sectionTask) : Prop :=
  forall resp, exists resp', run task resp = (resp', asc.Ok tt).

(** [e] is the error of a run of one of [tasks], under the name of the task. *)
Definition errorOf (tasks : list sectionTask) (e : asc.error) : Prop :=
  exists task resp resp' err,
    In task tasks /\ run task resp = (resp', asc.Err err)
    /\ e = asc.wrap (name task) err.

End Executions.

(** *** Further vocabulary: the dates of the submissions *)

Definition reviewSubmittedDate (s : asc.ReviewSubmissionResource) : string :=
  asc.ReviewSubmissionAttributes.SubmittedDate (asc.Attributes s).

Definition betaSubmittedDate
    (s : asc.Resource asc.BetaAppReviewSubmissionAttributes.t) : string :=
  asc.BetaAppReviewSubmissionAttributes.SubmittedDate (asc.Attributes s).

(** *** Further vocabulary: what a section task writes *)

Section Writes.
Import status.

(** The snapshot with no section. *)
Definition blank : dashboardResponse :=
  mkDashboardResponse (statusApp.mk "" "" "") None None None None None None None.

Definition orElse {A} (a b : option A) : option A :=
  match a with
  | Some _ => a
  | None => b
  end.

(** The snapshot [r] with the sections that [d] has written over it. *)
Definition overlay (d r : dashboardResponse) : dashboardResponse :=
  mkDashboardResponse (App r)
    (orElse (Builds d) (Builds r))
    (orElse (TestFlight d) (TestFlight r))
    (orElse (AppStore d) (AppStore r))
    (orElse (Submission d) (Submission r))
    (orElse (Review d) (Review r))
    (orElse (PhasedRelease d) (PhasedRelease r))
    (orElse (Links d) (Links r)).

(** [m] does the same on every snapshot: the same value or error, and the
    same sections written, which are those it writes on the blank snapshot. *)
Definition uniform {A} (m : Fill A) : Prop :=
  forall resp, m resp = (overlay (fst (m blank)) resp, snd (m blank)).

(** [m] leaves the part [proj] of the snapshot as it is, whatever it returns. *)
Definition keeps {X A} (proj : dashboardResponse -> X) (m : Fill A) : Prop :=
  forall resp, proj (fst (m resp)) = proj resp.

(** No section is written in both snapshots. *)
Definition disjointWrites (d1 d2 : dashboardResponse) : Prop :=
  (Builds d1 = None \/ Builds d2 = None)
  /\ (TestFlight d1 = None \/ TestFlight d2 = None)
  /\ (AppStore d1 = None \/ AppStore d2 = None)
  /\ (Submission d1 = None \/ Submission d2 = None)
  /\ (Review d1 = None \/ Review d2 = None)
  /\ (PhasedRelease d1 = None \/ PhasedRelease d2 = None)
  /\ (Links d1 = None \/ Links d2 = None).

Definition isSome {A} (o : option A) : bool :=
  match o with
  | Some _ => true
  | None => false
  end.

End Writes.

Section WritesOfTasks.
Import status.

(** The sections the task at index [i] writes, read off the blank snapshot. *)
Definition written (tasks : list sectionTask) (i : nat) : dashboardResponse :=
  match nth_error tasks i with
  | Some task => fst (run task blank)
  | None => blank
  end.

(** [Q] holds of the snapshot that [m] leaves when it returns no error. *)
Definition onSuccess {A} (Q : dashboardResponse -> Prop) (m : Fill A)
    (resp : dashboardResponse) : Prop :=
  match m resp with
  | (resp', asc.Ok _) => Q resp'
  | (_, asc.Err _) => True
  end.

End WritesOfTasks.

(** *** Further vocabulary: the issues of a validation run *)

(** An issue of one of the two severities the validator knows. *)
Definition graded (issue : submit.SubmitValidateIssue) : Prop :=
  submit.Severity issue = "error" \/ submit.Severity issue = "warning".

(** The second state is about the same app, version and platform as the
    first, and has its issues followed by graded issues only. *)
Definition tidy (st st' : submit.state) : Prop :=
  submit.AppID (submit.result_ st') = submit.AppID (submit.result_ st)
  /\ submit.VersionID (submit.result_ st') = submit.VersionID (submit.result_ st)
  /\ submit.Platform (submit.result_ st') = submit.Platform (submit.result_ st)
  /\ exists issues,
       submit.Issues (submit.result_ st')
       = submit.Issues (submit.result_ st) ++ issues
       /\ Forall graded issues.

(** *** Further vocabulary: sorted lists of strings *)

(** No string of the list is followed by a smaller one. *)
Fixpoint ascending (l : list string) : Prop :=
  match l with
  | [] => True
  | x :: l' => Forall (strLe x) l' /\ ascending l'
  end.

(** *** Further vocabulary: the sections of [--include] *)

(** The flag of an include set that stands for a section name. *)
Definition included (includes : status.includeSet) (name : string) : bool :=
  if name =? "builds" then status.builds includes
  else if name =? "testflight" then status.testflight includes
  else if name =? "appstore" then status.appstore includes
  else if name =? "submission" then status.submission includes
  else if name =? "review" then status.review includes
  else if name =? "phased-release" then status.phasedRelease includes
  else if name =? "links" then status.links includes
  else false.

(** *** Further vocabulary: the query of a page request *)

(** The first page is asked for with the page size of the commands; a later
    page by a link that is not blank and has no white space around it. *)
Definition wellFormed (opt : validate.pageOption) : Prop :=
  match opt with
  | validate.WithLimit limit => limit = 200%Z
  | validate.WithNextURL next => next <> "" /\ strings.TrimSpace next = next
  end.

(** *** Further vocabulary: the traversal of the subscriptions of groups *)

(** [Traversed client groupIDs h subs h']: after the requests [h], the
    subscriptions of the groups [groupIDs] are fetched, group after group
    and for each group page after page up to a page without a link, every
    request being answered; [subs] are the subscriptions of all these
    pages in that order, each under its group, and [h'] the requests made
    by then. *)
Inductive Traversed (client : validate.Client)
  : list string -> list validate.call -> list validate.Subscription.t
    -> list validate.call -> Prop :=
| Traversed_none h : Traversed client [] h [] h
| Traversed_group groupID groupIDs h pages next h1 last subs h' :
    Fetched (fun h opt => validate.GetSubscriptions client h groupID opt)
      (validate.CallGetSubscriptions groupID) "" h pages next h1 ->
    validate.GetSubscriptions client h1 groupID (optionFor next) = asc.Ok last ->
    strings.TrimSpace (asc.Next (asc.Links_ last)) = "" ->
    Traversed client groupIDs
      (h1 ++ [validate.CallGetSubscriptions groupID (optionFor next)]) subs h' ->
    Traversed client (groupID :: groupIDs) h
      (itemsOf (map (validate.toSubscription groupID)) (pages ++ [last]) ++ subs)
      h'.

(** *** Further vocabulary: failed requests and the issues that report them *)

(** The error with which the client answers the request [c] made after the
    requests [h], when it answers with one. *)
Definition failureOf (client : submit.Client) (h : list submit.call)
    (c : submit.call) : option asc.error :=
  let failed {A} (r : asc.result A) : option asc.error :=
    match r with
    | asc.Ok _ => None
    | asc.Err err => Some err
    end in
  match c with
  | submit.CallGetAppStoreVersion versionID =>
      failed (submit.GetAppStoreVersion client h versionID)
  | submit.CallGetAppStoreVersionBuild versionID =>
      failed (submit.GetAppStoreVersionBuild client h versionID)
  | submit.CallGetAppStoreVersionLocalizations versionID limit =>
      failed (submit.GetAppStoreVersionLocalizations client h versionID limit)
  | submit.CallGetAppScreenshotSets localizationID =>
      failed (submit.GetAppScreenshotSets client h localizationID)
  | submit.CallGetAppScreenshots setID =>
      failed (submit.GetAppScreenshots client h setID)
  | submit.CallGetAppInfos appID =>
      failed (submit.GetAppInfos client h appID)
  | submit.CallGetAppInfoLocalizations appInfoID limit =>
      failed (submit.GetAppInfoLocalizations client h appInfoID limit)
  | submit.CallGetAgeRatingDeclarationForAppStoreVersion versionID =>
      failed (submit.GetAgeRatingDeclarationForAppStoreVersion client h versionID)
  end.

(** [issue] is the issue by which the check that made the request [c]
    reports its failure with [err]: under the name of the check, an error
    for a failed version fetch and for a build or an age rating that is not
    found, and a warning with the text of [err] otherwise. *)
Definition reports (c : submit.call) (err : asc.error)
    (issue : submit.SubmitValidateIssue) : Prop :=
  match c with
  | submit.CallGetAppStoreVersion _ =>
      issue = submit.mkIssue "version" "error"
                ("failed to fetch version: " ++ asc.Error err)
  | submit.CallGetAppStoreVersionBuild _ =>
      issue = (if asc.IsNotFound err
               then submit.mkIssue "build" "error" "no build attached to this version"
               else submit.mkIssue "build" "warning"
                      ("unable to check build: " ++ asc.Error err))
  | submit.CallGetAppStoreVersionLocalizations _ _ =>
      issue = submit.mkIssue "version_localizations" "warning"
                ("unable to fetch: " ++ asc.Error err)
  | submit.CallGetAppScreenshotSets _ =>
      exists locale,
        issue = submit.mkIssue "screenshots" "warning"
                  ("locale " ++ locale ++ ": unable to check screenshots: "
                     ++ asc.Error err)
  | submit.CallGetAppScreenshots _ =>
      exists locale displayType,
        issue = submit.mkIssue "screenshots" "warning"
                  ("locale " ++ locale ++ " (" ++ displayType
                     ++ "): unable to check: " ++ asc.Error err)
  | submit.CallGetAppInfos _ =>
      issue = submit.mkIssue "app_info" "warning"
                ("unable to fetch app info: " ++ asc.Error err)
  | submit.CallGetAppInfoLocalizations _ _ =>
      issue = submit.mkIssue "app_info_localizations" "warning"
                ("unable to fetch: " ++ asc.Error err)
  | submit.CallGetAgeRatingDeclarationForAppStoreVersion _ =>
      issue = (if asc.IsNotFound err
               then submit.mkIssue "age_rating" "error"
                      "no age rating declaration found"
               else submit.mkIssue "age_rating" "warning"
                      ("unable to check: " ++ asc.Error err))
  end.

(** From [st] to [st'] requests and issues are only added, and every added
    request that failed is reported by one of the added issues. *)
Definition accounted (client : submit.Client) (st st' : submit.state) : Prop :=
  exists cs issues,
    submit.calls st' = submit.calls st ++ cs
    /\ submit.Issues (submit.result_ st')
       = submit.Issues (submit.result_ st) ++ issues
    /\ forall before c after err,
         cs = before ++ c :: after ->
         failureOf client (submit.calls st ++ before) c = Some err ->
         exists issue, In issue issues /\ reports c err issue.

(** Every run of [m] adds [issue], whatever else it adds. *)
Definition adds (issue : submit.SubmitValidateIssue) (m : submit.Run unit) : Prop :=
  forall st,
    exists l1 l2,
      submit.Issues (submit.result_ (snd (m st)))
      = submit.Issues (submit.result_ st) ++ l1 ++ issue :: l2.

(* ================================================================== *)
(** * Properties *)
(* ================================================================== *)

(** ** The byte-wise order on strings *)

Section StringOrder.

Lemma gt_iff_compare a b : strings.gt a b = true <-> String.compare b a = Lt.
Proof.
  unfold strings.gt, String.ltb.
  destruct (String.compare b a); split; congruence.
Qed.

Lemma compare_refl a : String.compare a a = Eq.
Proof. now apply String_as_OT.cmp_eq. Qed.

Lemma compare_lt_trans a b c :
  String.compare a b = Lt -> String.compare b c = Lt -> String.compare a c = Lt.
Proof.
  intros H1 H2.
  apply String_as_OT.cmp_lt in H1, H2.
  apply String_as_OT.cmp_lt.
  eapply String_as_OT.lt_trans; eassumption.
Qed.

Lemma compare_flip a b : String.compare a b = CompOpp (String.compare b a).
Proof. apply String_as_OT.cmp_antisym. Qed.

Lemma strLe_iff a b : strLe a b <-> String.compare a b <> Gt.
Proof.
  unfold strLe, String.leb.
  destruct (String.compare a b); split; congruence.
Qed.

Lemma strLt_iff a b : strLt a b <-> String.compare a b = Lt.
Proof.
  unfold strLt, String.ltb.
  destruct (String.compare a b); split; congruence.
Qed.

Lemma strLe_refl a : strLe a a.
Proof. apply strLe_iff. rewrite compare_refl. discriminate. Qed.

Lemma strLe_trans a b c : strLe a b -> strLe b c -> strLe a c.
Proof.
  rewrite !strLe_iff. intros H1 H2.
  destruct (String.compare a b) eqn:Eab; [| |congruence].
  - apply String_as_OT.cmp_eq in Eab. now subst.
  - destruct (String.compare b c) eqn:Ebc; [| |congruence].
    + apply String_as_OT.cmp_eq in Ebc. subst. now rewrite Eab.
    + now rewrite (compare_lt_trans _ _ _ Eab Ebc).
Qed.

Lemma strLt_le a b : strLt a b -> strLe a b.
Proof. rewrite strLt_iff, strLe_iff. congruence. Qed.

Lemma not_gt_le a b : strings.gt a b = false -> strLe a b.
Proof.
  intros H. apply strLe_iff. intros G.
  rewrite compare_flip in G.
  destruct (String.compare b a) eqn:E; try discriminate.
  apply gt_iff_compare in E. congruence.
Qed.

End StringOrder.

(** ** Latest-item selection *)

Section Latest.
Variable A : Type.
Variables date ident : A -> string.
Local Abbreviation later := (later A date ident).
Local Abbreviation notAfter := (notAfter A date ident).

Lemma notAfter_refl x : notAfter x x.
Proof. right. split; [reflexivity | apply strLe_refl]. Qed.

Lemma notAfter_trans x y z : notAfter x y -> notAfter y z -> notAfter x z.
Proof.
  unfold notAfter.
  intros [Hxy | [Exy Ixy]] [Hyz | [Eyz Iyz]].
  - left. apply strLt_iff. apply strLt_iff in Hxy, Hyz.
    eapply compare_lt_trans; eassumption.
  - left. now rewrite <- Eyz.
  - left. now rewrite Exy.
  - right. split; [congruence | eapply strLe_trans; eassumption].
Qed.

Lemma later_choice best current :
  later best current = best \/ later best current = current.
Proof.
  unfold later.
  destruct (strings.gt (date current) (date best)); auto.
  destruct ((date current =? date best)
            && strings.gt (ident current) (ident best)); auto.
Qed.

Lemma later_best best current : notAfter best (later best current).
Proof.
  unfold later.
  destruct (strings.gt (date current) (date best)) eqn:G.
  - left. apply gt_iff_compare in G. now apply strLt_iff.
  - destruct (date current =? date best) eqn:E; simpl.
    + destruct (strings.gt (ident current) (ident best)) eqn:G2.
      * right. apply String.eqb_eq in E. split; [congruence|].
        apply strLt_le, strLt_iff. now apply gt_iff_compare.
      * apply notAfter_refl.
    + apply notAfter_refl.
Qed.

Lemma later_current best current : notAfter current (later best current).
Proof.
  unfold later.
  destruct (strings.gt (date current) (date best)) eqn:G.
  - apply notAfter_refl.
  - destruct (date current =? date best) eqn:E; simpl.
    + destruct (strings.gt (ident current) (ident best)) eqn:G2.
      * apply notAfter_refl.
      * right. apply String.eqb_eq in E. split; [assumption|].
        now apply not_gt_le.
    + left. apply not_gt_le in G. apply strLe_iff in G. apply strLt_iff.
      destruct (String.compare (date current) (date best)) eqn:C;
        [|reflexivity|congruence].
      apply String_as_OT.cmp_eq in C. apply String.eqb_neq in E. congruence.
Qed.

Lemma fold_later_in rest : forall first,
  In (fold_left later rest first) (first :: rest).
Proof.
  induction rest as [|c rest IH]; intros first; simpl.
  - now left.
  - destruct (IH (later first c)) as [H | H].
    + destruct (later_choice first c) as [E | E];
        [left | right; left]; congruence.
    + right. now right.
Qed.

Lemma fold_later_max rest : forall first v,
  In v (first :: rest) -> notAfter v (fold_left later rest first).
Proof.
  induction rest as [|c rest IH]; intros first v Hin; simpl.
  - destruct Hin as [<- | []]. apply notAfter_refl.
  - destruct Hin as [<- | [<- | Hin]].
    + eapply notAfter_trans; [apply later_best|]. apply IH. now left.
    + eapply notAfter_trans; [apply later_current|]. apply IH. now left.
    + apply IH. now right.
Qed.

End Latest.

Lemma selectLatestAppStoreVersion_fold first rest :
  status.selectLatestAppStoreVersion (first :: rest)
  = Some (fold_left (later _ createdDate (@asc.ID _)) rest first).
Proof. reflexivity. Qed.

(** C4. The latest-item selector gives nothing for the empty list; for a
    non-empty list it gives one of the items, whose date string no item of
    the list exceeds, and whose identifier no item with that same date
    exceeds.  (The list is a value: the function reads it and returns a copy
    of the chosen item.) *)
Theorem selectLatestAppStoreVersion_max versions :
  match versions with
  | [] => status.selectLatestAppStoreVersion versions = None
  | _ :: _ =>
      exists best,
        status.selectLatestAppStoreVersion versions = Some best
        /\ In best versions
        /\ (forall v, In v versions -> strLe (createdDate v) (createdDate best))
        /\ (forall v, In v versions ->
                      createdDate v = createdDate best ->
                      strLe (asc.ID v) (asc.ID best))
  end.
Proof.
  destruct versions as [|first rest]; [reflexivity|].
  rewrite selectLatestAppStoreVersion_fold.
  eexists. split; [reflexivity|].
  split; [apply fold_later_in|].
  split.
  - intros v Hin.
    destruct (fold_later_max _ createdDate (@asc.ID _) rest first v Hin)
      as [Hlt | [Heq _]].
    + now apply strLt_le.
    + rewrite Heq. apply strLe_refl.
  - intros v Hin Heq.
    destruct (fold_later_max _ createdDate (@asc.ID _) rest first v Hin)
      as [Hlt | [_ Hid]].
    + rewrite Heq in Hlt. apply strLt_iff in Hlt.
      rewrite compare_refl in Hlt. discriminate.
    + exact Hid.
Qed.

Lemma selectLatestAppStoreVersion_max_witness :
  exists best,
    status.selectLatestAppStoreVersion [samples.ver1; samples.ver2] = Some best
    /\ In best [samples.ver1; samples.ver2]
    /\ (forall v, In v [samples.ver1; samples.ver2] ->
                  strLe (createdDate v) (createdDate best))
    /\ (forall v, In v [samples.ver1; samples.ver2] ->
                  createdDate v = createdDate best ->
                  strLe (asc.ID v) (asc.ID best)).
Proof.
  exact (selectLatestAppStoreVersion_max [samples.ver1; samples.ver2]).
Defined.

(** The tie-break of the test: equal dates, ["ver-2"] wins, in either order. *)
Example selectLatestAppStoreVersion_tie :
  status.selectLatestAppStoreVersion [samples.ver1; samples.ver2] = Some samples.ver2
  /\ status.selectLatestAppStoreVersion [samples.ver2; samples.ver1] = Some samples.ver2.
Proof. split; reflexivity. Qed.

(** The two sibling selectors are the same reduction over their own date. *)
Lemma selectLatestReviewSubmission_fold first rest :
  status.selectLatestReviewSubmission (first :: rest)
  = Some (fold_left
            (later _ (fun s => asc.ReviewSubmissionAttributes.SubmittedDate (asc.Attributes s))
               (@asc.ID _)) rest first).
Proof. reflexivity. Qed.

Lemma selectLatestBetaReviewSubmission_fold first rest :
  status.selectLatestBetaReviewSubmission (first :: rest)
  = Some (fold_left
            (later _ (fun s => asc.BetaAppReviewSubmissionAttributes.SubmittedDate
                                 (asc.Attributes s))
               (@asc.ID _)) rest first).
Proof. reflexivity. Qed.

(** ** White space *)

Lemma spaceRune_nonempty r : In r strings.spaceRunes -> (1 <= List.length r)%nat.
Proof.
  intros H. simpl in H.
  repeat (destruct H as [<- | H]; [simpl; lia|]).
  destruct H.
Qed.

Lemma stripOne_spaceRune r s :
  In r strings.spaceRunes -> strings.stripOne strings.spaceRunes (r ++ s) = Some s.
Proof.
  intros H. simpl in H.
  repeat (destruct H as [<- | H]; [reflexivity|]).
  destruct H.
Qed.

Lemma trimRuns_S runes n s :
  strings.trimRuns runes (S n) s
  = match strings.stripOne runes s with
    | Some rest => strings.trimRuns runes n rest
    | None => s
    end.
Proof. reflexivity. Qed.

Lemma trimRuns_onlySpace s :
  strings.onlySpace s ->
  forall n, (List.length s <= n)%nat -> strings.trimRuns strings.spaceRunes n s = [].
Proof.
  induction 1 as [|r s Hr Hs IH]; intros n Hn.
  - destruct n; reflexivity.
  - pose proof (spaceRune_nonempty r Hr) as Hlen.
    rewrite length_app in Hn.
    destruct n as [|n]; [lia|].
    rewrite trimRuns_S, (stripOne_spaceRune r s Hr).
    apply IH. lia.
Qed.

(** A string of white space only is trimmed to the empty string. *)
Lemma TrimSpace_onlySpace s :
  strings.onlySpace (list_ascii_of_string s) -> strings.TrimSpace s = "".
Proof.
  intros H. unfold strings.TrimSpace, strings.trimLeftSpace.
  rewrite (trimRuns_onlySpace _ H _ (Nat.le_refl _)).
  reflexivity.
Qed.

Example TrimSpace_examples :
  strings.TrimSpace "" = ""
  /\ strings.TrimSpace "   " = ""
  /\ strings.TrimSpace "  https://x/y?a=b  " = "https://x/y?a=b"
  /\ strings.TrimSpace "a b" = "a b".
Proof. repeat split; reflexivity. Qed.

(** What is trimmed stays trimmed. *)

Lemma stripPrefix_app p : forall s r u,
  strings.stripPrefix p s = Some r -> strings.stripPrefix p (s ++ u) = Some (r ++ u).
Proof.
  induction p as [|a p IH]; intros s r u H; simpl in *.
  - now inversion H.
  - destruct s as [|b s]; [discriminate|]. simpl.
    destruct (Ascii.eqb a b); [now apply IH | discriminate].
Qed.

Lemma stripPrefix_split p : forall s r,
  strings.stripPrefix p s = Some r -> s = p ++ r.
Proof.
  induction p as [|a p IH]; intros s r H; simpl in *.
  - now inversion H.
  - destruct s as [|b s]; [discriminate|].
    destruct (Ascii.eqb_spec a b); [|discriminate].
    subst. f_equal. now apply IH.
Qed.

Lemma stripOne_split runes : forall s r,
  strings.stripOne runes s = Some r -> exists p, In p runes /\ s = p ++ r.
Proof.
  induction runes as [|p runes IH]; intros s r H; simpl in *; [discriminate|].
  destruct (strings.stripPrefix p s) as [r'|] eqn:E.
  - inversion H; subst. exists p. split; [now left | now apply stripPrefix_split].
  - destruct (IH _ _ H) as [q [Hq Hs]]. exists q. split; [now right | exact Hs].
Qed.

(** When a run fits a string, some run fits any extension of the string. *)
Lemma stripOne_extend runes : forall s r u,
  strings.stripOne runes s = Some r -> strings.stripOne runes (s ++ u) <> None.
Proof.
  induction runes as [|p runes IH]; intros s r u H; simpl in *; [discriminate|].
  destruct (strings.stripPrefix p s) as [r'|] eqn:E.
  - rewrite (stripPrefix_app _ _ _ u E). discriminate.
  - destruct (strings.stripPrefix p (s ++ u)); [discriminate|].
    eapply IH; eassumption.
Qed.

Lemma stripOne_prefix_none runes s u :
  strings.stripOne runes (s ++ u) = None -> strings.stripOne runes s = None.
Proof.
  intros H. destruct (strings.stripOne runes s) eqn:E; [|reflexivity].
  exfalso. eapply stripOne_extend; eassumption.
Qed.

Section TrimRuns.
Variable runes : list (list ascii).
Hypothesis runes_nonempty : Forall (fun r => r <> []) runes.

Lemma stripOne_shorter s r :
  strings.stripOne runes s = Some r -> (List.length r < List.length s)%nat.
Proof.
  intros H. destruct (stripOne_split _ _ _ H) as [p [Hp ->]].
  rewrite Forall_forall in runes_nonempty.
  specialize (runes_nonempty p Hp).
  rewrite length_app. destruct p; [congruence | simpl; lia].
Qed.

Lemma trimRuns_clean n : forall s,
  (List.length s <= n)%nat ->
  strings.stripOne runes (strings.trimRuns runes n s) = None.
Proof.
  induction n as [|n IH]; intros s Hn.
  - destruct s; [|simpl in Hn; lia]. simpl.
    destruct (strings.stripOne runes []) eqn:E; [|reflexivity].
    apply stripOne_shorter in E. simpl in E. lia.
  - rewrite trimRuns_S.
    destruct (strings.stripOne runes s) as [r|] eqn:E; [|exact E].
    apply IH. apply stripOne_shorter in E. lia.
Qed.

Lemma trimRuns_fixed n s :
  strings.stripOne runes s = None -> strings.trimRuns runes n s = s.
Proof.
  intros H. destruct n; [reflexivity|]. now rewrite trimRuns_S, H.
Qed.

Lemma trimRuns_suffix n : forall s,
  exists pre, s = pre ++ strings.trimRuns runes n s.
Proof.
  induction n as [|n IH]; intros s.
  - now exists [].
  - rewrite trimRuns_S.
    destruct (strings.stripOne runes s) as [r|] eqn:E; [|now exists []].
    destruct (stripOne_split _ _ _ E) as [p [_ ->]].
    destruct (IH r) as [pre Hpre].
    exists (p ++ pre). rewrite <- app_assoc. now rewrite <- Hpre.
Qed.

End TrimRuns.

Lemma spaceRunes_nonempty : Forall (fun r => r <> []) strings.spaceRunes.
Proof. repeat constructor; discriminate. Qed.

Lemma spaceRunes_rev_nonempty :
  Forall (fun r => r <> []) (map (@rev ascii) strings.spaceRunes).
Proof. repeat constructor; discriminate. Qed.

Lemma trimSpace_bytes_idempotent s :
  let t := strings.trimRightSpace (strings.trimLeftSpace s) in
  strings.trimRightSpace (strings.trimLeftSpace t) = t.
Proof.
  intros t.
  set (l := strings.trimLeftSpace s) in *.
  assert (Hl : strings.stripOne strings.spaceRunes l = None).
  { apply trimRuns_clean; [apply spaceRunes_nonempty | apply Nat.le_refl]. }
  assert (Hrev : rev t
                 = strings.trimRuns (map (@rev ascii) strings.spaceRunes)
                     (List.length l) (rev l)).
  { unfold t, strings.trimRightSpace. apply rev_involutive. }
  assert (Ht : strings.stripOne strings.spaceRunes t = None).
  { destruct (trimRuns_suffix (map (@rev ascii) strings.spaceRunes)
                (List.length l) (rev l)) as [pre Hpre].
    rewrite <- Hrev in Hpre.
    apply (f_equal (@rev ascii)) in Hpre.
    rewrite rev_involutive, rev_app_distr, rev_involutive in Hpre.
    rewrite Hpre in Hl. eapply stripOne_prefix_none; exact Hl. }
  assert (Hr : strings.stripOne (map (@rev ascii) strings.spaceRunes) (rev t) = None).
  { rewrite Hrev. apply trimRuns_clean; [apply spaceRunes_rev_nonempty|].
    rewrite length_rev. apply Nat.le_refl. }
  unfold strings.trimLeftSpace at 1.
  rewrite (trimRuns_fixed _ _ _ Ht).
  unfold strings.trimRightSpace at 1.
  rewrite (trimRuns_fixed _ _ _ Hr).
  apply rev_involutive.
Qed.

Lemma TrimSpace_idempotent s :
  strings.TrimSpace (strings.TrimSpace s) = strings.TrimSpace s.
Proof.
  unfold strings.TrimSpace.
  rewrite list_ascii_of_string_of_list_ascii.
  f_equal. apply trimSpace_bytes_idempotent.
Qed.

(** ** The page loops *)

Section PageLoop.
Import asc validate.
Context {Item Out : Type}.
Variable get : list call -> pageOption -> result (Response (list Item)).
Variable mkCall : pageOption -> call.
Variable conv : list Item -> list Out.
Variable failure : string.
Local Abbreviation pageLoop := (pageLoop get mkCall conv failure).
Local Abbreviation Fetched := (Fetched get mkCall).
Local Abbreviation itemsOf := (itemsOf conv).

Lemma Fetched_length n h pages n' h' :
  Fetched n h pages n' h' -> List.length h' = (List.length h + List.length pages)%nat.
Proof.
  induction 1 as [|n h resp pages n' h' Hget Hnext _ IH]; simpl; [lia|].
  rewrite IH, length_app. simpl. lia.
Qed.

Lemma pageLoop_fails n h pages n' h' err :
  Fetched n h pages n' h' ->
  get h' (optionFor n') = Err err ->
  forall fuel acc,
    (List.length pages < fuel)%nat ->
    pageLoop fuel n acc h
    = Some (Err (wrap failure err), h' ++ [mkCall (optionFor n')]).
Proof.
  induction 1 as [n h|n h resp pages n' h' Hget Hnext _ IH];
    intros Herr fuel acc Hfuel.
  - destruct fuel; [simpl in Hfuel; lia|]. simpl. now rewrite Herr.
  - destruct fuel; [simpl in Hfuel; lia|]. simpl. rewrite Hget.
    apply String.eqb_neq in Hnext. rewrite Hnext.
    apply IH; [assumption | simpl in Hfuel; lia].
Qed.

Lemma pageLoop_completes n h pages n' h' resp :
  Fetched n h pages n' h' ->
  get h' (optionFor n') = Ok resp ->
  strings.TrimSpace (Next (Links_ resp)) = "" ->
  forall fuel acc,
    (List.length pages < fuel)%nat ->
    pageLoop fuel n acc h
    = Some (Ok (acc ++ itemsOf (pages ++ [resp])), h' ++ [mkCall (optionFor n')]).
Proof.
  induction 1 as [n h|n h r pages n' h' Hget Hnext _ IH];
    intros Hlast Hend fuel acc Hfuel.
  - destruct fuel; [simpl in Hfuel; lia|]. simpl. rewrite Hlast, Hend. simpl.
    now rewrite app_nil_r.
  - destruct fuel; [simpl in Hfuel; lia|]. simpl. rewrite Hget.
    apply String.eqb_neq in Hnext. rewrite Hnext.
    rewrite (IH Hlast Hend fuel (acc ++ conv (Data r)));
      [|simpl in Hfuel; lia].
    now rewrite <- app_assoc.
Qed.

(** Whatever the loop returns, it returns it at the end of a run of fetched
    pages: an error is the failure of the request made there, and a list is
    made of all pages up to a page without a link. *)
Lemma pageLoop_sound fuel : forall n acc h r hf,
  pageLoop fuel n acc h = Some (r, hf) ->
  exists pages n' h',
    Fetched n h pages n' h'
    /\ hf = h' ++ [mkCall (optionFor n')]
    /\ match r with
       | Err e => exists err, get h' (optionFor n') = Err err /\ e = wrap failure err
       | Ok l =>
           exists resp,
             get h' (optionFor n') = Ok resp
             /\ strings.TrimSpace (Next (Links_ resp)) = ""
             /\ l = acc ++ itemsOf (pages ++ [resp])
       end.
Proof.
  induction fuel as [|fuel IH]; intros n acc h r hf H; [discriminate|].
  simpl in H.
  destruct (get h (optionFor n)) as [resp|err] eqn:Hget.
  - destruct (strings.TrimSpace (Next (Links_ resp)) =? "") eqn:Hnext.
    + inversion H; subst. exists [], n, h.
      split; [constructor|]. split; [reflexivity|].
      exists resp. apply String.eqb_eq in Hnext. simpl.
      now rewrite app_nil_r.
    + apply IH in H. destruct H as [pages [n' [h' [HF [Hhf Hr]]]]].
      exists (resp :: pages), n', h'.
      apply String.eqb_neq in Hnext.
      split; [econstructor; eassumption|]. split; [assumption|].
      destruct r as [l|e]; [|exact Hr].
      destruct Hr as [last [Hl [Hend ->]]].
      exists last. split; [assumption|]. split; [assumption|].
      simpl. now rewrite <- app_assoc.
  - inversion H; subst. exists [], n, h.
    split; [constructor|]. split; [reflexivity|]. now exists err.
Qed.

(** A page whose link is white space only ends the loop. *)
Lemma pageLoop_blank_link fuel n acc h resp :
  get h (optionFor n) = Ok resp ->
  strings.onlySpace (list_ascii_of_string (Next (Links_ resp))) ->
  pageLoop (S fuel) n acc h
  = Some (Ok (acc ++ conv (Data resp)), h ++ [mkCall (optionFor n)]).
Proof.
  intros Hget Hblank. simpl. rewrite Hget.
  now rewrite (TrimSpace_onlySpace _ Hblank).
Qed.

End PageLoop.

Lemma fetchInAppPurchases_pageLoop client appID fuel : forall nextURL iaps history,
  validate.fetchInAppPurchases fuel client appID nextURL iaps history
  = pageLoop (fun h opt => validate.GetInAppPurchasesV2 client h appID opt)
      (validate.CallGetInAppPurchasesV2 appID)
      (map validate.toIAP)
      "validate iap: failed to fetch in-app purchases"
      fuel nextURL iaps history.
Proof.
  induction fuel as [|fuel IH]; intros; [reflexivity|].
  simpl. unfold optionFor.
  destruct (validate.GetInAppPurchasesV2 client history appID _); [|reflexivity].
  destruct (_ =? ""); [reflexivity | apply IH].
Qed.

Lemma fetchGroupIDs_pageLoop client appID fuel : forall nextURL groupIDs history,
  validate.fetchGroupIDs fuel client appID nextURL groupIDs history
  = pageLoop (fun h opt => validate.GetSubscriptionGroups client h appID opt)
      (validate.CallGetSubscriptionGroups appID)
      keptGroupIDs
      "validate subscriptions: failed to fetch subscription groups"
      fuel nextURL groupIDs history.
Proof.
  induction fuel as [|fuel IH]; intros; [reflexivity|].
  simpl. unfold optionFor.
  destruct (validate.GetSubscriptionGroups client history appID _); [|reflexivity].
  destruct (_ =? ""); [reflexivity | apply IH].
Qed.

Lemma fetchSubscriptions_pageLoop client groupID fuel : forall nextURL subs history,
  validate.fetchSubscriptions fuel client groupID nextURL subs history
  = pageLoop (fun h opt => validate.GetSubscriptions client h groupID opt)
      (validate.CallGetSubscriptions groupID)
      (map (validate.toSubscription groupID))
      ("validate subscriptions: failed to fetch subscriptions for group " ++ groupID)
      fuel nextURL subs history.
Proof.
  induction fuel as [|fuel IH]; intros; [reflexivity|].
  simpl. unfold optionFor.
  destruct (validate.GetSubscriptions client history groupID _); [|reflexivity].
  destruct (_ =? ""); [reflexivity | apply IH].
Qed.

Ltac solve_In := repeat first [left; reflexivity | right].

Lemma blankLink_onlySpace :
  strings.onlySpace (list_ascii_of_string samples.blankLink).
Proof.
  change (strings.onlySpace
            ([" "%char] ++ [" "%char] ++ [" "%char] ++ [ascii_of_nat 9] ++ [])).
  repeat (apply strings.onlySpace_app; [solve_In|]).
  constructor.
Qed.

(** C5. A traversal of two pages, the first with the items [pageA] and a
    non-empty link, the second with the items [pageB] and an empty link,
    makes exactly two requests, the first page by limit and then the link,
    and leaves the items of the first page followed by those of the second,
    each page in the order received, whatever the items are (equal items
    stay, and nothing is sorted). *)
Theorem two_page_traversal client opts pageA pageB link fuel :
  strings.TrimSpace link <> "" ->
  validate.GetInAppPurchasesV2 client [] (validate.iapAppID opts)
    (validate.WithLimit 200)
  = asc.Ok (asc.mkResponse pageA (asc.mkLinks link)) ->
  validate.GetInAppPurchasesV2 client
    [validate.CallGetInAppPurchasesV2 (validate.iapAppID opts) (validate.WithLimit 200)]
    (validate.iapAppID opts) (validate.WithNextURL (strings.TrimSpace link))
  = asc.Ok (asc.mkResponse pageB (asc.mkLinks "")) ->
  validate.runValidateIAP (S (S fuel)) (asc.Ok client) opts
  = Some (asc.Ok (validate.mkIAPInput (validate.iapAppID opts)
                    (map validate.toIAP pageA ++ map validate.toIAP pageB)),
          [validate.CallGetInAppPurchasesV2 (validate.iapAppID opts)
             (validate.WithLimit 200);
           validate.CallGetInAppPurchasesV2 (validate.iapAppID opts)
             (validate.WithNextURL (strings.TrimSpace link))]).
Proof.
  intros Hlink H1 H2.
  assert (Hopt : optionFor (strings.TrimSpace link)
                 = validate.WithNextURL (strings.TrimSpace link)).
  { unfold optionFor. rewrite TrimSpace_idempotent.
    apply String.eqb_neq in Hlink. now rewrite Hlink. }
  unfold validate.runValidateIAP.
  rewrite fetchInAppPurchases_pageLoop.
  erewrite pageLoop_completes with
    (pages := [asc.mkResponse pageA (asc.mkLinks link)])
    (resp := asc.mkResponse pageB (asc.mkLinks ""))
    (n' := strings.TrimSpace link)
    (h' := [validate.CallGetInAppPurchasesV2 (validate.iapAppID opts)
              (validate.WithLimit 200)]).
  - rewrite Hopt. unfold itemsOf. simpl. now rewrite app_nil_r.
  - econstructor.
    + exact H1.
    + exact Hlink.
    + constructor.
  - rewrite Hopt. exact H2.
  - reflexivity.
  - simpl. lia.
Qed.

Lemma two_page_traversal_witness :
  validate.runValidateIAP 2 (asc.Ok samples.iapTwoPages) samples.iapOptions
  = Some (asc.Ok (validate.mkIAPInput "app-1"
                    [validate.toIAP samples.iapA; validate.toIAP samples.iapB]),
          [validate.CallGetInAppPurchasesV2 "app-1" (validate.WithLimit 200);
           validate.CallGetInAppPurchasesV2 "app-1"
             (validate.WithNextURL (strings.TrimSpace samples.secondURL))]).
Proof.
  apply (two_page_traversal samples.iapTwoPages samples.iapOptions
           [samples.iapA] [samples.iapB] samples.secondURL 0).
  - vm_compute. discriminate.
  - reflexivity.
  - reflexivity.
Defined.

Lemma fetchAllSubscriptions_app fuel client gs1 : forall gs2 subs h,
  validate.fetchAllSubscriptions fuel client (gs1 ++ gs2) subs h
  = match validate.fetchAllSubscriptions fuel client gs1 subs h with
    | None => None
    | Some (asc.Err err, h') => Some (asc.Err err, h')
    | Some (asc.Ok subs', h') => validate.fetchAllSubscriptions fuel client gs2 subs' h'
    end.
Proof.
  induction gs1 as [|g gs1 IH]; intros gs2 subs h; [reflexivity|].
  simpl.
  destruct (validate.fetchSubscriptions fuel client g "" subs h)
    as [[[subs'|err] h']|]; try reflexivity.
  apply IH.
Qed.

(** What the loop over the groups returns: the subscriptions it was entered
    with and those of a complete traversal of the groups, or the error of
    the request that failed, made after the groups before were traversed. *)
Lemma fetchAllSubscriptions_sound fuel client : forall groupIDs subs h r hf,
  validate.fetchAllSubscriptions fuel client groupIDs subs h = Some (r, hf) ->
  match r with
  | asc.Ok l =>
      exists more, Traversed client groupIDs h more hf /\ l = subs ++ more
  | asc.Err e =>
      exists before groupID after more h1 pages next h' err,
        groupIDs = before ++ groupID :: after
        /\ Traversed client before h more h1
        /\ Fetched (fun h opt => validate.GetSubscriptions client h groupID opt)
             (validate.CallGetSubscriptions groupID) "" h1 pages next h'
        /\ validate.GetSubscriptions client h' groupID (optionFor next) = asc.Err err
        /\ e = asc.wrap
                 ("validate subscriptions: failed to fetch subscriptions for group "
                    ++ groupID) err
        /\ hf = h' ++ [validate.CallGetSubscriptions groupID (optionFor next)]
  end.
Proof.
  induction groupIDs as [|g gs IH]; intros subs h r hf H; simpl in H.
  - inversion H; subst. exists []. split; [constructor | now rewrite app_nil_r].
  - rewrite fetchSubscriptions_pageLoop in H.
    destruct (pageLoop _ _ _ _ fuel "" subs h) as [[r1 h1]|] eqn:Hloop;
      [|discriminate].
    apply pageLoop_sound in Hloop.
    destruct Hloop as [pages [next [h' [Hfetched [Hh1 Hr1]]]]].
    destruct r1 as [subs1|e1].
    + destruct Hr1 as [last [Hlast [Hend Hsubs1]]].
      apply IH in H. subst h1. destruct r as [l|e].
      * destruct H as [more [Hmore Hl]].
        exists (itemsOf (map (validate.toSubscription g)) (pages ++ [last]) ++ more).
        split; [econstructor; eassumption|].
        rewrite Hl, Hsubs1. now rewrite app_assoc.
      * destruct H as [before [groupID [after [more [h2 [pages' [next' [h'' [err
                         [Hsplit [Hbefore [Hfetched' [Herr [He Hhf]]]]]]]]]]]]]].
        exists (g :: before), groupID, after,
          (itemsOf (map (validate.toSubscription g)) (pages ++ [last]) ++ more),
          h2, pages', next', h'', err.
        split; [rewrite Hsplit; reflexivity|].
        split; [econstructor; eassumption|]. auto.
    + inversion H; subst. destruct Hr1 as [err [Herr He]].
      exists [], g, gs, [], h, pages, next, h', err.
      split; [reflexivity|]. split; [constructor|]. auto.
Qed.

(** C6. A failed page fetch ends the traversal there and then, and nothing of
    the pages fetched before is given on.
    (1) [asc validate iap]: after any run of fetched pages, a failing request
    makes the command return that error (wrapped); the failing request is
    the last one made; no input reaches the validation.
    (2) When the command does hand a list to the validation, the list holds
    the items of every page up to a page without a link.
    (3) [asc validate subscriptions]: the same when the failing request is
    for a page of the subscriptions of some group, after the groups and the
    subscriptions of the groups before it were fetched.
    (4) [asc validate subscriptions]: the same when the failing request is
    for a page of the groups.
    (5) When [asc validate subscriptions] does hand a list to the
    validation, every page of the groups up to a page without a link was
    received, and the list holds, for every group kept and in their order,
    the subscriptions of every page of the group up to a page without a
    link.
    (6) When [asc validate subscriptions] returns an error of a fetch, it is
    the error of its last request, for a page of the groups or for a page
    of the subscriptions of a group. *)
Theorem failed_page_discards_traversal client fuel :
  (forall opts pages n' h' err,
      Fetched (fun h opt => validate.GetInAppPurchasesV2 client h (validate.iapAppID opts) opt)
        (validate.CallGetInAppPurchasesV2 (validate.iapAppID opts))
        "" [] pages n' h' ->
      validate.GetInAppPurchasesV2 client h' (validate.iapAppID opts) (optionFor n')
      = asc.Err err ->
      (List.length pages < fuel)%nat ->
      validate.runValidateIAP fuel (asc.Ok client) opts
      = Some (asc.Err (asc.wrap "validate iap: failed to fetch in-app purchases" err),
              h' ++ [validate.CallGetInAppPurchasesV2 (validate.iapAppID opts)
                       (optionFor n')]))
  /\ (forall opts input hf,
        validate.runValidateIAP fuel (asc.Ok client) opts = Some (asc.Ok input, hf) ->
        exists pages n' h' resp,
          Fetched (fun h opt => validate.GetInAppPurchasesV2 client h (validate.iapAppID opts) opt)
            (validate.CallGetInAppPurchasesV2 (validate.iapAppID opts))
            "" [] pages n' h'
          /\ validate.GetInAppPurchasesV2 client h' (validate.iapAppID opts) (optionFor n')
             = asc.Ok resp
          /\ strings.TrimSpace (asc.Next (asc.Links_ resp)) = ""
          /\ hf = h' ++ [validate.CallGetInAppPurchasesV2 (validate.iapAppID opts)
                           (optionFor n')]
          /\ input = validate.mkIAPInput (validate.iapAppID opts)
                       (itemsOf (map validate.toIAP) (pages ++ [resp])))
  /\ (forall opts before groupID after h0 subs h1 pages n' h' err,
        validate.fetchGroupIDs fuel client (validate.subAppID opts) "" [] []
        = Some (asc.Ok (before ++ groupID :: after), h0) ->
        validate.fetchAllSubscriptions fuel client before [] h0
        = Some (asc.Ok subs, h1) ->
        Fetched (fun h opt => validate.GetSubscriptions client h groupID opt)
          (validate.CallGetSubscriptions groupID) "" h1 pages n' h' ->
        validate.GetSubscriptions client h' groupID (optionFor n') = asc.Err err ->
        (List.length pages < fuel)%nat ->
        validate.runValidateSubscriptions fuel (asc.Ok client) opts
        = Some (asc.Err
                  (asc.wrap
                     ("validate subscriptions: failed to fetch subscriptions for group "
                        ++ groupID) err),
                h' ++ [validate.CallGetSubscriptions groupID (optionFor n')]))
  /\ (forall opts pages n' h' err,
        Fetched (fun h opt =>
                   validate.GetSubscriptionGroups client h (validate.subAppID opts) opt)
          (validate.CallGetSubscriptionGroups (validate.subAppID opts))
          "" [] pages n' h' ->
        validate.GetSubscriptionGroups client h' (validate.subAppID opts) (optionFor n')
        = asc.Err err ->
        (List.length pages < fuel)%nat ->
        validate.runValidateSubscriptions fuel (asc.Ok client) opts
        = Some (asc.Err
                  (asc.wrap
                     "validate subscriptions: failed to fetch subscription groups" err),
                h' ++ [validate.CallGetSubscriptionGroups (validate.subAppID opts)
                         (optionFor n')]))
  /\ (forall opts input hf,
        validate.runValidateSubscriptions fuel (asc.Ok client) opts
        = Some (asc.Ok input, hf) ->
        exists pages n' h' resp subs,
          Fetched (fun h opt =>
                     validate.GetSubscriptionGroups client h (validate.subAppID opts) opt)
            (validate.CallGetSubscriptionGroups (validate.subAppID opts))
            "" [] pages n' h'
          /\ validate.GetSubscriptionGroups client h' (validate.subAppID opts)
               (optionFor n')
             = asc.Ok resp
          /\ strings.TrimSpace (asc.Next (asc.Links_ resp)) = ""
          /\ Traversed client (itemsOf keptGroupIDs (pages ++ [resp]))
               (h' ++ [validate.CallGetSubscriptionGroups (validate.subAppID opts)
                         (optionFor n')])
               subs hf
          /\ input = validate.mkSubscriptionsInput (validate.subAppID opts) subs)
  /\ (forall opts e hf,
        validate.runValidateSubscriptions fuel (asc.Ok client) opts
        = Some (asc.Err e, hf) ->
        (exists pages n' h' err,
            Fetched (fun h opt =>
                       validate.GetSubscriptionGroups client h (validate.subAppID opts)
                         opt)
              (validate.CallGetSubscriptionGroups (validate.subAppID opts))
              "" [] pages n' h'
            /\ validate.GetSubscriptionGroups client h' (validate.subAppID opts)
                 (optionFor n')
               = asc.Err err
            /\ e = asc.wrap
                     "validate subscriptions: failed to fetch subscription groups" err
            /\ hf = h' ++ [validate.CallGetSubscriptionGroups (validate.subAppID opts)
                             (optionFor n')])
        \/ (exists groupPages gn gh lastGroups before groupID after subs h1
                  pages n' h' err,
               Fetched (fun h opt =>
                          validate.GetSubscriptionGroups client h
                            (validate.subAppID opts) opt)
                 (validate.CallGetSubscriptionGroups (validate.subAppID opts))
                 "" [] groupPages gn gh
               /\ validate.GetSubscriptionGroups client gh (validate.subAppID opts)
                    (optionFor gn)
                  = asc.Ok lastGroups
               /\ strings.TrimSpace (asc.Next (asc.Links_ lastGroups)) = ""
               /\ itemsOf keptGroupIDs (groupPages ++ [lastGroups])
                  = before ++ groupID :: after
               /\ Traversed client before
                    (gh ++ [validate.CallGetSubscriptionGroups (validate.subAppID opts)
                              (optionFor gn)])
                    subs h1
               /\ Fetched (fun h opt => validate.GetSubscriptions client h groupID opt)
                    (validate.CallGetSubscriptions groupID) "" h1 pages n' h'
               /\ validate.GetSubscriptions client h' groupID (optionFor n')
                  = asc.Err err
               /\ e = asc.wrap
                        ("validate subscriptions: failed to fetch subscriptions for group "
                           ++ groupID) err
               /\ hf = h' ++ [validate.CallGetSubscriptions groupID (optionFor n')])).
Proof.
  split; [|split; [|split; [|split; [|split]]]].
  - intros opts pages n' h' err HF Herr Hfuel.
    unfold validate.runValidateIAP.
    rewrite fetchInAppPurchases_pageLoop.
    now rewrite (pageLoop_fails _ _ (map validate.toIAP) _ _ _ _ _ _ _ HF Herr fuel []).
  - intros opts input hf H.
    unfold validate.runValidateIAP in H.
    rewrite fetchInAppPurchases_pageLoop in H.
    destruct (pageLoop _ _ _ _ fuel "" [] []) as [[[l|e] h]|] eqn:E;
      try discriminate.
    inversion H; subst.
    destruct (pageLoop_sound _ _ _ _ _ _ _ _ _ _ E)
      as [pages [n' [h' [HF [Hhf [resp [Hget [Hend Hl]]]]]]]].
    exists pages, n', h', resp. simpl in Hl. now subst.
  - intros opts before groupID after h0 subs h1 pages n' h' err
      Hgroups Hbefore HF Herr Hfuel.
    unfold validate.runValidateSubscriptions.
    rewrite Hgroups, fetchAllSubscriptions_app, Hbefore.
    simpl. rewrite fetchSubscriptions_pageLoop.
    now rewrite (pageLoop_fails _ _ (map (validate.toSubscription groupID))
                   _ _ _ _ _ _ _ HF Herr fuel subs).
  - intros opts pages n' h' err HF Herr Hfuel.
    unfold validate.runValidateSubscriptions.
    rewrite fetchGroupIDs_pageLoop.
    now rewrite (pageLoop_fails _ _ keptGroupIDs _ _ _ _ _ _ _ HF Herr fuel []).
  - intros opts input hf H.
    unfold validate.runValidateSubscriptions in H.
    rewrite fetchGroupIDs_pageLoop in H.
    destruct (pageLoop _ _ _ _ fuel "" [] []) as [[[groupIDs|e] h]|] eqn:E;
      try discriminate.
    destruct (validate.fetchAllSubscriptions fuel client groupIDs [] h)
      as [[[subs|e] h2]|] eqn:E2; try discriminate.
    inversion H; subst.
    destruct (pageLoop_sound _ _ _ _ _ _ _ _ _ _ E)
      as [pages [n' [h' [HF [Hhf [resp [Hget [Hend Hl]]]]]]]].
    apply fetchAllSubscriptions_sound in E2.
    destruct E2 as [more [Hmore Hsubs]].
    simpl in Hl, Hsubs. subst.
    exists pages, n', h', resp, more. auto.
  - intros opts e hf H.
    unfold validate.runValidateSubscriptions in H.
    rewrite fetchGroupIDs_pageLoop in H.
    destruct (pageLoop _ _ _ _ fuel "" [] []) as [[[groupIDs|e0] h]|] eqn:E;
      try discriminate.
    + destruct (validate.fetchAllSubscriptions fuel client groupIDs [] h)
        as [[[subs|e1] h2]|] eqn:E2; try discriminate.
      inversion H; subst.
      destruct (pageLoop_sound _ _ _ _ _ _ _ _ _ _ E)
        as [pages [n' [h' [HF [Hhf [resp [Hget [Hend Hl]]]]]]]].
      apply fetchAllSubscriptions_sound in E2.
      destruct E2 as [before [groupID [after [more [h1 [pages' [next' [h'' [err
                        [Hsplit [Hbefore [HF' [Herr [He Hhf']]]]]]]]]]]]]].
      simpl in Hl. subst. right.
      exists pages, n', h', resp, before, groupID, after, more, h1, pages', next',
        h'', err.
      auto 10.
    + inversion H; subst.
      destruct (pageLoop_sound _ _ _ _ _ _ _ _ _ _ E)
        as [pages [n' [h' [HF [Hhf [err [Herr He]]]]]]].
      left. exists pages, n', h', err. auto.
Qed.

Lemma failed_page_discards_traversal_witness :
  validate.runValidateIAP 2 (asc.Ok samples.iapSecondPageFails) samples.iapOptions
  = Some (asc.Err (asc.wrap "validate iap: failed to fetch in-app purchases"
                     samples.timeout),
          [validate.CallGetInAppPurchasesV2 "app-1" (validate.WithLimit 200)]
            ++ [validate.CallGetInAppPurchasesV2 "app-1"
                  (optionFor (strings.TrimSpace samples.secondURL))])
  /\ (exists pages n' h' resp,
        Fetched (fun h opt => validate.GetInAppPurchasesV2 samples.iapTwoPages h "app-1" opt)
          (validate.CallGetInAppPurchasesV2 "app-1") "" [] pages n' h'
        /\ validate.GetInAppPurchasesV2 samples.iapTwoPages h' "app-1" (optionFor n')
           = asc.Ok resp
        /\ strings.TrimSpace (asc.Next (asc.Links_ resp)) = ""
        /\ [validate.CallGetInAppPurchasesV2 "app-1" (validate.WithLimit 200);
            validate.CallGetInAppPurchasesV2 "app-1"
              (validate.WithNextURL samples.secondURL)]
           = h' ++ [validate.CallGetInAppPurchasesV2 "app-1" (optionFor n')]
        /\ validate.mkIAPInput "app-1"
             [validate.toIAP samples.iapA; validate.toIAP samples.iapB]
           = validate.mkIAPInput "app-1"
               (itemsOf (map validate.toIAP) (pages ++ [resp])))
  /\ validate.runValidateSubscriptions 1 (asc.Ok (samples.subsClient "")) samples.subsOptions
     = Some (asc.Err
               (asc.wrap
                  "validate subscriptions: failed to fetch subscriptions for group group-2"
                  samples.timeout),
             [validate.CallGetSubscriptionGroups "app-1" (validate.WithLimit 200);
              validate.CallGetSubscriptions "group-1" (validate.WithLimit 200)]
               ++ [validate.CallGetSubscriptions "group-2" (optionFor "")])
  /\ validate.runValidateSubscriptions 1 (asc.Ok samples.iapTwoPages) samples.subsOptions
     = Some (asc.Err
               (asc.wrap "validate subscriptions: failed to fetch subscription groups"
                  (asc.mkError "unexpected request" false)),
             [] ++ [validate.CallGetSubscriptionGroups "app-1" (optionFor "")])
  /\ (exists subs,
        Traversed samples.oneGroup ["group-1"]
          [validate.CallGetSubscriptionGroups "app-1" (validate.WithLimit 200)]
          subs
          [validate.CallGetSubscriptionGroups "app-1" (validate.WithLimit 200);
           validate.CallGetSubscriptions "group-1" (validate.WithLimit 200)]
        /\ validate.mkSubscriptionsInput "app-1"
             [validate.toSubscription "group-1" samples.subA]
           = validate.mkSubscriptionsInput "app-1" subs).
Proof.
  split; [|split; [|split; [|split]]].
  - apply (proj1 (failed_page_discards_traversal samples.iapSecondPageFails 2)
             samples.iapOptions
             [asc.mkResponse [samples.iapA] (asc.mkLinks samples.secondURL)]
             (strings.TrimSpace samples.secondURL)
             [validate.CallGetInAppPurchasesV2 "app-1" (validate.WithLimit 200)]
             samples.timeout).
    + econstructor; [reflexivity | vm_compute; discriminate | constructor].
    + reflexivity.
    + simpl; lia.
  - apply (proj1 (proj2 (failed_page_discards_traversal samples.iapTwoPages 2))
             samples.iapOptions).
    reflexivity.
  - apply (proj1 (proj2 (proj2 (failed_page_discards_traversal
                                  (samples.subsClient "") 1)))
             samples.subsOptions ["group-1"] "group-2" []
             [validate.CallGetSubscriptionGroups "app-1" (validate.WithLimit 200)]
             [validate.toSubscription "group-1" samples.subA]
             [validate.CallGetSubscriptionGroups "app-1" (validate.WithLimit 200);
              validate.CallGetSubscriptions "group-1" (validate.WithLimit 200)]
             [] "" _ samples.timeout).
    + reflexivity.
    + reflexivity.
    + constructor.
    + reflexivity.
    + simpl; lia.
  - apply (proj1 (proj2 (proj2 (proj2 (failed_page_discards_traversal
                                         samples.iapTwoPages 1))))
             samples.subsOptions [] "" [] (asc.mkError "unexpected request" false)).
    + constructor.
    + reflexivity.
    + simpl; lia.
  - destruct (proj1 (proj2 (proj2 (proj2 (proj2 (failed_page_discards_traversal
                                                   samples.oneGroup 1)))))
                samples.subsOptions
                (validate.mkSubscriptionsInput "app-1"
                   [validate.toSubscription "group-1" samples.subA])
                [validate.CallGetSubscriptionGroups "app-1" (validate.WithLimit 200);
                 validate.CallGetSubscriptions "group-1" (validate.WithLimit 200)]
                eq_refl)
      as [pages [n' [h' [resp [subs [Hfetched [Hresp [_ [Htraversed Hinput]]]]]]]]].
    exists subs. split; [|exact Hinput].
    inversion Hfetched as [n h Hn Hh Hpages|n h page rest n'' h'' Hget Hnext];
      subst.
    + vm_compute in Hresp. inversion Hresp; subst resp. exact Htraversed.
    + vm_compute in Hget. inversion Hget; subst page.
      vm_compute in Hnext. congruence.
Defined.

(** C10. A page whose next link is made of white space only is the last one:
    each of the three loops ends with that page's items added, and the
    request that fetched the page is the last request made. *)
Theorem blank_link_ends_traversal client fuel :
  (forall appID nextURL iaps history resp,
      validate.GetInAppPurchasesV2 client history appID (optionFor nextURL)
      = asc.Ok resp ->
      strings.onlySpace (list_ascii_of_string (asc.Next (asc.Links_ resp))) ->
      validate.fetchInAppPurchases (S fuel) client appID nextURL iaps history
      = Some (asc.Ok (iaps ++ map validate.toIAP (asc.Data resp)),
              history ++ [validate.CallGetInAppPurchasesV2 appID (optionFor nextURL)]))
  /\ (forall appID nextURL groupIDs history resp,
        validate.GetSubscriptionGroups client history appID (optionFor nextURL)
        = asc.Ok resp ->
        strings.onlySpace (list_ascii_of_string (asc.Next (asc.Links_ resp))) ->
        validate.fetchGroupIDs (S fuel) client appID nextURL groupIDs history
        = Some (asc.Ok (groupIDs ++ keptGroupIDs (asc.Data resp)),
                history ++ [validate.CallGetSubscriptionGroups appID (optionFor nextURL)]))
  /\ (forall groupID nextURL subs history resp,
        validate.GetSubscriptions client history groupID (optionFor nextURL)
        = asc.Ok resp ->
        strings.onlySpace (list_ascii_of_string (asc.Next (asc.Links_ resp))) ->
        validate.fetchSubscriptions (S fuel) client groupID nextURL subs history
        = Some (asc.Ok (subs ++ map (validate.toSubscription groupID) (asc.Data resp)),
                history ++ [validate.CallGetSubscriptions groupID (optionFor nextURL)])).
Proof.
  split; [|split]; intros until resp; intros Hget Hblank.
  - rewrite fetchInAppPurchases_pageLoop. now apply pageLoop_blank_link.
  - rewrite fetchGroupIDs_pageLoop. now apply pageLoop_blank_link.
  - rewrite fetchSubscriptions_pageLoop. now apply pageLoop_blank_link.
Qed.

Lemma blank_link_ends_traversal_witness :
  validate.fetchInAppPurchases 1 samples.iapBlankLink "app-1" "" [] []
  = Some (asc.Ok ([] ++ map validate.toIAP [samples.iapA]),
          [] ++ [validate.CallGetInAppPurchasesV2 "app-1" (optionFor "")])
  /\ validate.fetchGroupIDs 1 (samples.subsClient samples.blankLink) "app-1" "" [] []
     = Some (asc.Ok ([] ++ keptGroupIDs [samples.group1; samples.group2]),
             [] ++ [validate.CallGetSubscriptionGroups "app-1" (optionFor "")])
  /\ validate.fetchSubscriptions 1 (samples.subsClient samples.blankLink) "group-1" "" [] []
     = Some (asc.Ok ([] ++ map (validate.toSubscription "group-1") [samples.subA]),
             [] ++ [validate.CallGetSubscriptions "group-1" (optionFor "")]).
Proof.
  split; [|split].
  - apply (proj1 (blank_link_ends_traversal samples.iapBlankLink 0) "app-1" "" [] []
             (asc.mkResponse [samples.iapA] (asc.mkLinks samples.blankLink))).
    + reflexivity.
    + exact blankLink_onlySpace.
  - apply (proj1 (proj2 (blank_link_ends_traversal (samples.subsClient samples.blankLink) 0))
             "app-1" "" [] []
             (asc.mkResponse [samples.group1; samples.group2]
                (asc.mkLinks samples.blankLink))).
    + reflexivity.
    + exact blankLink_onlySpace.
  - apply (proj2 (proj2 (blank_link_ends_traversal (samples.subsClient samples.blankLink) 0))
             "group-1" "" [] []
             (asc.mkResponse [samples.subA] (asc.mkLinks samples.blankLink))).
    + reflexivity.
    + exact blankLink_onlySpace.
Defined.

(** ** Readiness validation *)

Lemma wrapInt_succ n : submit.wrapInt (submit.wrapInt n + 1) = submit.wrapInt (n + 1).
Proof.
  unfold submit.wrapInt. f_equal.
  replace ((n + 2 ^ 63) mod 2 ^ 64 - 2 ^ 63 + 1 + 2 ^ 63)%Z
    with ((n + 2 ^ 63) mod 2 ^ 64 + 1)%Z by lia.
  rewrite Z.add_mod_idemp_l by lia.
  f_equal. lia.
Qed.

Lemma wrapInt_small n : (- 2 ^ 63 <= n < 2 ^ 63)%Z -> submit.wrapInt n = n.
Proof.
  intros H. unfold submit.wrapInt. rewrite Z.mod_small; lia.
Qed.

Lemma countSeverity_app severity l1 l2 :
  countSeverity severity (l1 ++ l2)
  = (countSeverity severity l1 + countSeverity severity l2)%nat.
Proof. unfold countSeverity. now rewrite filter_app, length_app. Qed.

Lemma continues_refl st : continues st st.
Proof.
  repeat split; try (exists []; now rewrite app_nil_r).
Qed.

Lemma continues_trans st1 st2 st3 :
  continues st1 st2 -> continues st2 st3 -> continues st1 st3.
Proof.
  intros [[c1 H1] [[i1 H2] H3]] [[c2 H4] [[i2 H5] H6]].
  repeat split.
  - exists (c1 ++ c2). now rewrite H4, H1, app_assoc.
  - exists (i1 ++ i2). now rewrite H5, H2, app_assoc.
  - congruence.
Qed.

Section Respects.
Import submit.
Variable R : state -> state -> Prop.
Hypothesis HR : stepwise R.

Lemma respects_ret {A} (a : A) : respects R (ret a).
Proof. intros st. apply (stepwise_refl R HR). Qed.

Lemma respects_bind {A B} (m : Run A) (k : A -> Run B) :
  respects R m -> (forall a, respects R (k a)) -> respects R (bind m k).
Proof.
  intros Hm Hk st. unfold bind.
  specialize (Hm st). destruct (m st) as [a st']. simpl in Hm.
  eapply (stepwise_trans R HR); [exact Hm | apply Hk].
Qed.

Lemma respects_forEach {A} (l : list A) (body : A -> Run unit) :
  (forall x, respects R (body x)) -> respects R (forEach l body).
Proof.
  intros Hbody. induction l as [|x l IH]; simpl.
  - apply respects_ret.
  - apply respects_bind; [apply Hbody | intros _; exact IH].
Qed.

End Respects.

Ltac respects_step HR :=
  match goal with
  | |- respects _ (submit.bind _ _) => apply (respects_bind _ HR); [|intros ?]
  | |- respects _ (submit.ret _) => apply (respects_ret _ HR)
  | |- respects _ (submit.request _ _) => apply (stepwise_request _ HR)
  | |- respects _ (submit.addError _ _) => apply (stepwise_addError _ HR)
  | |- respects _ (submit.addWarning _ _) => apply (stepwise_addWarning _ HR)
  | |- respects _ (submit.forEach _ _) => apply (respects_forEach _ HR); intros ?
  | |- respects _ (match ?x with _ => _ end) => destruct x
  end.

Section RespectsChecks.
Import submit.
Variable R : state -> state -> Prop.
Hypothesis HR : stepwise R.

Lemma respects_checkBuildAttached client versionID :
  respects R (checkBuildAttached client versionID).
Proof. unfold checkBuildAttached. repeat respects_step HR. Qed.

Lemma respects_checkScreenshots client localizationID locale :
  respects R (checkScreenshots client localizationID locale).
Proof. unfold checkScreenshots. repeat respects_step HR. Qed.

Lemma respects_checkVersionLocalizations client versionID :
  respects R (checkVersionLocalizations client versionID).
Proof.
  unfold checkVersionLocalizations.
  repeat first [apply respects_checkScreenshots | respects_step HR].
Qed.

Lemma respects_checkAppInfoLocalizations client appID :
  respects R (checkAppInfoLocalizations client appID).
Proof. unfold checkAppInfoLocalizations. repeat respects_step HR. Qed.

Lemma respects_checkAgeRating client versionID :
  respects R (checkAgeRating client versionID).
Proof. unfold checkAgeRating. repeat respects_step HR. Qed.

End RespectsChecks.

Lemma stepwise_continues : stepwise continues.
Proof.
  constructor.
  - apply continues_refl.
  - apply continues_trans.
  - intros A c answer st. simpl. repeat split.
    + now exists [c].
    + exists []. now rewrite app_nil_r.
  - intros check message st. simpl. repeat split.
    + exists []. now rewrite app_nil_r.
    + now eexists.
  - intros check message st. simpl. repeat split.
    + exists []. now rewrite app_nil_r.
    + now eexists.
Qed.

Lemma stepwise_counted : stepwise (fun st st' => counted st -> counted st').
Proof.
  constructor.
  - auto.
  - auto.
  - intros A c answer st. simpl. auto.
  - intros check message st [He Hw]. unfold counted. simpl.
    rewrite !countSeverity_app. unfold countSeverity at 2 4. simpl. split.
    + rewrite He, wrapInt_succ. f_equal. lia.
    + rewrite Hw. f_equal. lia.
  - intros check message st [He Hw]. unfold counted. simpl.
    rewrite !countSeverity_app. unfold countSeverity at 2 4. simpl. split.
    + rewrite He. f_equal. lia.
    + rewrite Hw, wrapInt_succ. f_equal. lia.
Qed.

Lemma checkBuildAttached_exact client versionID st :
  snd (submit.checkBuildAttached client versionID st)
  = submit.mkState
      match submit.GetAppStoreVersionBuild client (submit.calls st) versionID with
      | asc.Ok _ => submit.result_ st
      | asc.Err err =>
          if asc.IsNotFound err
          then errorAdded (submit.result_ st) "build" "no build attached to this version"
          else warningAdded (submit.result_ st) "build"
                 ("unable to check build: " ++ asc.Error err)
      end
      (submit.calls st ++ [submit.CallGetAppStoreVersionBuild versionID]).
Proof.
  unfold submit.checkBuildAttached, submit.bind, submit.request. simpl.
  destruct (submit.GetAppStoreVersionBuild client (submit.calls st) versionID)
    as [resp|err]; [reflexivity|].
  destruct (asc.IsNotFound err); reflexivity.
Qed.

Lemma checkAgeRating_exact client versionID st :
  snd (submit.checkAgeRating client versionID st)
  = submit.mkState
      match submit.GetAgeRatingDeclarationForAppStoreVersion client
              (submit.calls st) versionID with
      | asc.Ok _ => submit.result_ st
      | asc.Err err =>
          if asc.IsNotFound err
          then errorAdded (submit.result_ st) "age_rating"
                 "no age rating declaration found"
          else warningAdded (submit.result_ st) "age_rating"
                 ("unable to check: " ++ asc.Error err)
      end
      (submit.calls st
         ++ [submit.CallGetAgeRatingDeclarationForAppStoreVersion versionID]).
Proof.
  unfold submit.checkAgeRating, submit.bind, submit.request. simpl.
  destruct (submit.GetAgeRatingDeclarationForAppStoreVersion client
              (submit.calls st) versionID) as [resp|err]; [reflexivity|].
  destruct (asc.IsNotFound err); reflexivity.
Qed.

(** C8. The build check and the age rating check make one request each and
    leave the result as it was when the request succeeds, with one more
    issue of severity error when the failure is a not-found, and with one
    more issue of severity warning on any other failure. *)
Theorem not_found_is_error_other_failure_is_warning client versionID st :
  snd (submit.checkBuildAttached client versionID st)
  = submit.mkState
      match submit.GetAppStoreVersionBuild client (submit.calls st) versionID with
      | asc.Ok _ => submit.result_ st
      | asc.Err err =>
          if asc.IsNotFound err
          then errorAdded (submit.result_ st) "build" "no build attached to this version"
          else warningAdded (submit.result_ st) "build"
                 ("unable to check build: " ++ asc.Error err)
      end
      (submit.calls st ++ [submit.CallGetAppStoreVersionBuild versionID])
  /\ snd (submit.checkAgeRating client versionID st)
     = submit.mkState
         match submit.GetAgeRatingDeclarationForAppStoreVersion client
                 (submit.calls st) versionID with
         | asc.Ok _ => submit.result_ st
         | asc.Err err =>
             if asc.IsNotFound err
             then errorAdded (submit.result_ st) "age_rating"
                    "no age rating declaration found"
             else warningAdded (submit.result_ st) "age_rating"
                    ("unable to check: " ++ asc.Error err)
         end
         (submit.calls st
            ++ [submit.CallGetAgeRatingDeclarationForAppStoreVersion versionID]).
Proof.
  split; [apply checkBuildAttached_exact | apply checkAgeRating_exact].
Qed.

Section Readiness.
Context {ext : Externals}.

Lemma bind_snd {A B} (m : submit.Run A) (k : A -> submit.Run B) st :
  snd (submit.bind m k st) = snd (k (fst (m st)) (snd (m st))).
Proof. unfold submit.bind. now destruct (m st). Qed.

(** C7. In the result of every validation run the ready flag is true exactly
    when the error count is zero; the error count and the warning count are
    the numbers of issues of severity error and warning, counted in [int];
    the warning count has no part in the flag. *)
Theorem ready_iff_no_errors client appID versionID platform :
  let r := fst (submit.runValidation client appID versionID platform) in
  submit.Ready r = (submit.ErrorCount r =? 0)%Z
  /\ submit.ErrorCount r
     = submit.wrapInt (Z.of_nat (countSeverity "error" (submit.Issues r)))
  /\ submit.WarnCount r
     = submit.wrapInt (Z.of_nat (countSeverity "warning" (submit.Issues r))).
Proof.
  unfold submit.runValidation, submit.validation. simpl.
  rewrite bind_snd. unfold submit.request at 1 2. simpl.
  set (st0 := submit.mkState
                (submit.mkResult appID versionID platform [] 0 0 false)
                [submit.CallGetAppStoreVersion versionID]).
  assert (H0 : counted st0) by (split; reflexivity).
  destruct (submit.GetAppStoreVersion client [] versionID) as [versionResp|err].
  - repeat rewrite bind_snd.
    match goal with
    | |- context [submit.update _ ?st] =>
        assert (Hc : counted st); [|destruct Hc as [He Hw]; simpl; auto]
    end.
    apply (respects_checkAgeRating _ stepwise_counted).
    apply (respects_checkAppInfoLocalizations _ stepwise_counted).
    apply (respects_checkVersionLocalizations _ stepwise_counted).
    apply (respects_checkBuildAttached _ stepwise_counted).
    destruct (negb _).
    + now apply (stepwise_addError _ stepwise_counted).
    + exact H0.
  - simpl. repeat split.
Qed.

End Readiness.

(** A check that starts with a request: the request is made whatever the
    state, and the rest of the check only adds to what is there. *)
Lemma first_request {A} c (answer : list submit.call -> asc.result A)
    (k : asc.result A -> submit.Run unit) st :
  (forall a, respects continues (k a)) ->
  let st1 := submit.mkState (submit.result_ st) (submit.calls st ++ [c]) in
  let st' := snd (submit.bind (submit.request c answer) k st) in
  st' = snd (k (answer (submit.calls st)) st1)
  /\ exists cs issues,
       submit.calls st' = submit.calls st ++ [c] ++ cs
       /\ submit.Issues (submit.result_ st')
          = submit.Issues (submit.result_ st) ++ issues
       /\ submit.Ready (submit.result_ st') = submit.Ready (submit.result_ st).
Proof.
  intros Hk st1 st'.
  assert (E : st' = snd (k (answer (submit.calls st)) st1)).
  { unfold st'. now rewrite bind_snd. }
  split; [exact E|].
  destruct (Hk (answer (submit.calls st)) st1) as [[cs Hc] [[issues Hi] Hr]].
  rewrite <- E in Hc, Hi, Hr.
  exists cs, issues. simpl in *. rewrite Hc, <- app_assoc. auto.
Qed.

(** In a loop whose rounds each make the request [c x] for their item [x],
    the request of every item is made. *)
Lemma forEach_requests {A} (body : A -> submit.Run unit) (c : A -> submit.call) :
  (forall x, respects continues (body x)) ->
  (forall x st, In (c x) (submit.calls (snd (body x st)))) ->
  forall l st x, In x l -> In (c x) (submit.calls (snd (submit.forEach l body st))).
Proof.
  intros Hcont Hreq. induction l as [|a l IH]; intros st x Hin; [destruct Hin|].
  simpl. rewrite bind_snd. destruct Hin as [<-|Hin].
  - destruct (respects_forEach _ stepwise_continues l body Hcont (snd (body a st)))
      as [[cs Hcs] _].
    rewrite Hcs, in_app_iff. left. apply Hreq.
  - now apply IH.
Qed.

Lemma checkScreenshots_request client localizationID locale st :
  In (submit.CallGetAppScreenshotSets localizationID)
     (submit.calls (snd (submit.checkScreenshots client localizationID locale st))).
Proof.
  unfold submit.checkScreenshots.
  match goal with
  | |- context [submit.bind (submit.request ?c ?answer) ?k] =>
      assert (Hk : forall a, respects continues (k a));
      [|destruct (first_request c answer k st Hk) as [_ [cs [issues [Hc _]]]]]
  end.
  { intros a. repeat respects_step stepwise_continues. }
  rewrite Hc, !in_app_iff. right. left. now left.
Qed.

Lemma checkVersionLocalizations_first client versionID st :
  let st' := snd (submit.checkVersionLocalizations client versionID st) in
  exists cs issues,
    submit.calls st'
    = submit.calls st ++ [submit.CallGetAppStoreVersionLocalizations versionID 200] ++ cs
    /\ submit.Issues (submit.result_ st') = submit.Issues (submit.result_ st) ++ issues
    /\ submit.Ready (submit.result_ st') = submit.Ready (submit.result_ st)
    /\ (forall err,
          submit.GetAppStoreVersionLocalizations client (submit.calls st) versionID 200
          = asc.Err err ->
          In (submit.mkIssue "version_localizations" "warning"
                ("unable to fetch: " ++ asc.Error err)) issues)
    /\ (forall resp loc,
          submit.GetAppStoreVersionLocalizations client (submit.calls st) versionID 200
          = asc.Ok resp ->
          In loc (asc.Data resp) ->
          In (submit.CallGetAppScreenshotSets (asc.ID loc)) (submit.calls st')).
Proof.
  intros st'. unfold submit.checkVersionLocalizations in st'.
  match eval unfold st' in st' with
  | context [submit.bind (submit.request ?c ?answer) ?k] =>
      assert (Hk : forall a, respects continues (k a));
      [|destruct (first_request c answer k st Hk) as [E [cs [issues [Hc [Hi Hr]]]]]]
  end.
  { intros a.
    repeat first [apply (respects_checkScreenshots _ stepwise_continues)
                 | respects_step stepwise_continues]. }
  exists cs, issues. fold st' in E, Hi, Hc. repeat split; try assumption.
  - intros err Herr. rewrite Herr in E.
    rewrite E in Hi. simpl in Hi. apply app_inv_head in Hi. subst. now left.
  - intros resp loc Hresp Hloc. rewrite Hresp in E. rewrite E.
    destruct (asc.Data resp) as [|first rest] eqn:Hdata; [destruct Hloc|].
    apply (forEach_requests _ (fun loc => submit.CallGetAppScreenshotSets (asc.ID loc)));
      [| |exact Hloc].
    + intros x.
      repeat first [apply (respects_checkScreenshots _ stepwise_continues)
                   | respects_step stepwise_continues].
    + intros x st0. rewrite !bind_snd. apply checkScreenshots_request.
Qed.

Lemma checkAppInfoLocalizations_first client appID st :
  let st' := snd (submit.checkAppInfoLocalizations client appID st) in
  exists cs issues,
    submit.calls st' = submit.calls st ++ [submit.CallGetAppInfos appID] ++ cs
    /\ submit.Issues (submit.result_ st') = submit.Issues (submit.result_ st) ++ issues
    /\ submit.Ready (submit.result_ st') = submit.Ready (submit.result_ st)
    /\ forall err,
         submit.GetAppInfos client (submit.calls st) appID = asc.Err err ->
         In (submit.mkIssue "app_info" "warning"
               ("unable to fetch app info: " ++ asc.Error err)) issues.
Proof.
  intros st'. unfold submit.checkAppInfoLocalizations in st'.
  match eval unfold st' in st' with
  | context [submit.bind (submit.request ?c ?answer) ?k] =>
      assert (Hk : forall a, respects continues (k a));
      [|destruct (first_request c answer k st Hk) as [E [cs [issues [Hc [Hi Hr]]]]]]
  end.
  { intros a. repeat respects_step stepwise_continues. }
  exists cs, issues. repeat split; try assumption.
  intros err Herr. fold st' in E, Hi. rewrite Herr in E.
  rewrite E in Hi. simpl in Hi. apply app_inv_head in Hi. subst. now left.
Qed.

(** ** Failed requests are reported *)

Section Accounted.
Import submit.
Variable client : Client.

Lemma accounted_refl st : accounted client st st.
Proof.
  exists [], []. rewrite !app_nil_r. repeat split.
  intros before c after err H. destruct before; discriminate.
Qed.

Lemma accounted_trans st1 st2 st3 :
  accounted client st1 st2 -> accounted client st2 st3 -> accounted client st1 st3.
Proof.
  intros [cs1 [i1 [Hc1 [Hi1 H1]]]] [cs2 [i2 [Hc2 [Hi2 H2]]]].
  exists (cs1 ++ cs2), (i1 ++ i2).
  split; [now rewrite Hc2, Hc1, app_assoc|].
  split; [now rewrite Hi2, Hi1, app_assoc|].
  intros before c after err Hsplit Hfail.
  destruct (le_lt_dec (List.length cs1) (List.length before)) as [Hlen|Hlen].
  - (* the request is among the later ones *)
    assert (Hbefore : before = cs1 ++ skipn (List.length cs1) before
                      /\ cs2 = skipn (List.length cs1) before ++ c :: after).
    { clear - Hsplit Hlen. revert before Hsplit Hlen.
      induction cs1 as [|x cs1 IH]; intros before Hsplit Hlen; simpl in *.
      - auto.
      - destruct before as [|y before]; [simpl in Hlen; lia|].
        simpl in Hsplit, Hlen. inversion Hsplit; subst.
        destruct (IH before) as [Hb Hc]; [assumption | lia|].
        simpl. split; [now f_equal | assumption]. }
    destruct Hbefore as [Hb Hc]. rewrite Hb in Hfail.
    rewrite app_assoc, <- Hc1 in Hfail.
    destruct (H2 _ _ _ _ Hc Hfail) as [issue [Hin Hrep]].
    exists issue. split; [apply in_or_app; now right | assumption].
  - (* the request is among the earlier ones *)
    assert (Hafter : exists after1, cs1 = before ++ c :: after1).
    { clear - Hsplit Hlen. revert cs1 Hsplit Hlen.
      induction before as [|y before IH]; intros cs1 Hsplit Hlen; simpl in *.
      - destruct cs1 as [|x cs1]; [simpl in Hlen; lia|].
        simpl in Hsplit. inversion Hsplit; subst. eauto.
      - destruct cs1 as [|x cs1]; [simpl in Hlen; lia|].
        simpl in Hsplit, Hlen. inversion Hsplit; subst.
        destruct (IH cs1) as [after1 ->]; [assumption | lia|]. eauto. }
    destruct Hafter as [after1 Hcs1].
    destruct (H1 _ _ _ _ Hcs1 Hfail) as [issue [Hin Hrep]].
    exists issue. split; [apply in_or_app; now left | assumption].
Qed.

Lemma accounted_ret {A} (a : A) : respects (accounted client) (ret a).
Proof. intros st. apply accounted_refl. Qed.

Lemma accounted_bind {A B} (m : Run A) (k : A -> Run B) :
  respects (accounted client) m -> (forall a, respects (accounted client) (k a)) ->
  respects (accounted client) (bind m k).
Proof.
  intros Hm Hk st. unfold bind.
  specialize (Hm st). destruct (m st) as [a st']. simpl in Hm.
  eapply accounted_trans; [exact Hm | apply Hk].
Qed.

Lemma accounted_forEach {A} (l : list A) (body : A -> Run unit) :
  (forall x, respects (accounted client) (body x)) ->
  respects (accounted client) (forEach l body).
Proof.
  intros Hbody. induction l as [|x l IH]; simpl.
  - apply accounted_ret.
  - apply accounted_bind; [apply Hbody | intros _; exact IH].
Qed.

(** A step that makes no request. *)
Lemma accounted_update f :
  (forall r, exists issues, Issues (f r) = Issues r ++ issues) ->
  respects (accounted client) (update f).
Proof.
  intros Hf st. destruct (Hf (result_ st)) as [issues Hi].
  exists [], issues. simpl. rewrite app_nil_r. repeat split; [exact Hi|].
  intros before c after err H. destruct before; discriminate.
Qed.

Lemma accounted_addError check message :
  respects (accounted client) (addError check message).
Proof. apply accounted_update. intros r. simpl. eauto. Qed.

Lemma accounted_addWarning check message :
  respects (accounted client) (addWarning check message).
Proof. apply accounted_update. intros r. simpl. eauto. Qed.

(** A request of the client, followed by what the check does with the
    answer: when the check reports the failure of the request by an issue,
    and what it does else is accounted, so is the whole. *)
Lemma accounted_request {A} c (answer : list call -> asc.result A)
    (k : asc.result A -> Run unit) :
  (forall h,
      failureOf client h c
      = match answer h with asc.Ok _ => None | asc.Err err => Some err end) ->
  (forall a, respects (accounted client) (k a)) ->
  (forall err, exists issue, adds issue (k (asc.Err err)) /\ reports c err issue) ->
  respects (accounted client) (bind (request c answer) k).
Proof.
  intros Hfail Hk Hreport st. rewrite bind_snd. unfold request. simpl fst. simpl snd.
  set (st1 := mkState (result_ st) (calls st ++ [c])).
  destruct (Hk (answer (calls st)) st1) as [cs [issues [Hc [Hi Hall]]]].
  exists (c :: cs), issues.
  split; [rewrite Hc; simpl; now rewrite <- app_assoc|].
  split; [exact Hi|].
  intros before x after err Hsplit Hx.
  destruct before as [|y before]; simpl in Hsplit; inversion Hsplit; subst.
  - rewrite app_nil_r, Hfail in Hx.
    destruct (answer (calls st)) as [a|e] eqn:Hanswer; [discriminate|].
    inversion Hx; subst e.
    destruct (Hreport err) as [issue [Hadds Hrep]].
    destruct (Hadds st1) as [l1 [l2 Hissues]].
    rewrite Hi in Hissues. apply app_inv_head in Hissues.
    exists issue. split; [|exact Hrep].
    rewrite Hissues. apply in_or_app. right. now left.
  - apply (Hall before x after err eq_refl).
    simpl. rewrite <- app_assoc. exact Hx.
Qed.

End Accounted.

(** One step of the proof that a check is accounted. *)
Ltac accounted_step :=
  match goal with
  | |- respects (accounted _) (submit.bind (submit.request _ _) _) =>
      apply accounted_request;
      [ intros ?; reflexivity
      | intros ?
      | let err := fresh "err" in
        intros err; cbv beta iota delta [reports];
        try destruct (asc.IsNotFound err);
        (eexists; split;
         [ intros ?; exists [], []; reflexivity | repeat eexists ]) ]
  | |- respects (accounted _) (submit.bind _ _) =>
      apply accounted_bind; [|intros ?]
  | |- respects (accounted _) (submit.ret _) => apply accounted_ret
  | |- respects (accounted _) (submit.addError _ _) => apply accounted_addError
  | |- respects (accounted _) (submit.addWarning _ _) => apply accounted_addWarning
  | |- respects (accounted _) (submit.forEach _ _) =>
      apply accounted_forEach; intros ?
  | |- respects (accounted _) (match ?x with _ => _ end) => destruct x
  end.

Section AccountedChecks.
Import submit.
Variable client : Client.

Lemma accounted_checkBuildAttached versionID :
  respects (accounted client) (checkBuildAttached client versionID).
Proof. unfold checkBuildAttached. repeat accounted_step. Qed.

Lemma accounted_checkScreenshots localizationID locale :
  respects (accounted client) (checkScreenshots client localizationID locale).
Proof. unfold checkScreenshots. repeat accounted_step. Qed.

Lemma accounted_checkVersionLocalizations versionID :
  respects (accounted client) (checkVersionLocalizations client versionID).
Proof.
  unfold checkVersionLocalizations.
  repeat first [apply accounted_checkScreenshots | progress cbv zeta | accounted_step].
Qed.

Lemma accounted_checkAppInfoLocalizations appID :
  respects (accounted client) (checkAppInfoLocalizations client appID).
Proof.
  unfold checkAppInfoLocalizations.
  repeat first [progress cbv zeta | accounted_step].
Qed.

Lemma accounted_checkAgeRating versionID :
  respects (accounted client) (checkAgeRating client versionID).
Proof. unfold checkAgeRating. repeat accounted_step. Qed.

End AccountedChecks.

Section Checklist.
Context {ext : Externals}.

Lemma validation_after_version client appID versionID platform versionResp :
  submit.GetAppStoreVersion client [] versionID = asc.Ok versionResp ->
  let st1 :=
    submit.mkState (submit.mkResult appID versionID platform [] 0 0 false)
      [submit.CallGetAppStoreVersion versionID] in
  let state := ResolveAppStoreVersionState (asc.Attributes (asc.Data versionResp)) in
  let stS :=
    snd ((if negb (submit.isEditableState state)
          then submit.addError "version_state"
                 ("version is in non-editable state: " ++ state)
          else submit.ret tt) st1) in
  let stB := snd (submit.checkBuildAttached client versionID stS) in
  let stL := snd (submit.checkVersionLocalizations client versionID stB) in
  let stI := snd (submit.checkAppInfoLocalizations client appID stL) in
  let stA := snd (submit.checkAgeRating client versionID stI) in
  submit.runValidation client appID versionID platform
  = (submit.mkResult (submit.AppID (submit.result_ stA))
       (submit.VersionID (submit.result_ stA)) (submit.Platform (submit.result_ stA))
       (submit.Issues (submit.result_ stA)) (submit.ErrorCount (submit.result_ stA))
       (submit.WarnCount (submit.result_ stA))
       (submit.ErrorCount (submit.result_ stA) =? 0)%Z,
     submit.calls stA).
Proof.
  intros Hversion. cbv zeta.
  unfold submit.runValidation, submit.validation.
  rewrite bind_snd. unfold submit.request at 1 2. simpl fst. simpl snd.
  simpl submit.calls. rewrite Hversion.
  repeat rewrite bind_snd. reflexivity.
Qed.

(** After a version fetch that succeeds: the run makes the first request
    of each of the four following checks, in the order of the checklist and
    whatever the server answers, the age rating request being the last; the
    ready flag is set from the error count; the failure of any of these
    four requests is found as an issue in the result, under the name of its
    check; and every version localization received has its screenshot sets
    requested. *)
Lemma checklist_after_version client appID versionID platform versionResp :
  submit.GetAppStoreVersion client [] versionID = asc.Ok versionResp ->
  let r := fst (submit.runValidation client appID versionID platform) in
  let calls := snd (submit.runValidation client appID versionID platform) in
  let started :=
    [submit.CallGetAppStoreVersion versionID;
     submit.CallGetAppStoreVersionBuild versionID;
     submit.CallGetAppStoreVersionLocalizations versionID 200] in
  exists cs1 cs2,
    calls = started ++ cs1 ++ [submit.CallGetAppInfos appID] ++ cs2
              ++ [submit.CallGetAgeRatingDeclarationForAppStoreVersion versionID]
    /\ checklistExecuted appID versionID calls
    /\ submit.Ready r = (submit.ErrorCount r =? 0)%Z
    /\ (forall err,
          submit.GetAppStoreVersionBuild client
            [submit.CallGetAppStoreVersion versionID] versionID = asc.Err err ->
          In (if asc.IsNotFound err
              then submit.mkIssue "build" "error" "no build attached to this version"
              else submit.mkIssue "build" "warning"
                     ("unable to check build: " ++ asc.Error err))
             (submit.Issues r))
    /\ (forall err,
          submit.GetAppStoreVersionLocalizations client
            [submit.CallGetAppStoreVersion versionID;
             submit.CallGetAppStoreVersionBuild versionID] versionID 200
          = asc.Err err ->
          In (submit.mkIssue "version_localizations" "warning"
                ("unable to fetch: " ++ asc.Error err))
             (submit.Issues r))
    /\ (forall resp loc,
          submit.GetAppStoreVersionLocalizations client
            [submit.CallGetAppStoreVersion versionID;
             submit.CallGetAppStoreVersionBuild versionID] versionID 200
          = asc.Ok resp ->
          In loc (asc.Data resp) ->
          In (submit.CallGetAppScreenshotSets (asc.ID loc)) calls)
    /\ (forall err,
          submit.GetAppInfos client (started ++ cs1) appID = asc.Err err ->
          In (submit.mkIssue "app_info" "warning"
                ("unable to fetch app info: " ++ asc.Error err))
             (submit.Issues r))
    /\ (forall err,
          submit.GetAgeRatingDeclarationForAppStoreVersion client
            (started ++ cs1 ++ [submit.CallGetAppInfos appID] ++ cs2) versionID
          = asc.Err err ->
          In (if asc.IsNotFound err
              then submit.mkIssue "age_rating" "error" "no age rating declaration found"
              else submit.mkIssue "age_rating" "warning"
                     ("unable to check: " ++ asc.Error err))
             (submit.Issues r)).
Proof.
  intros Hversion.
  pose proof (validation_after_version client appID versionID platform versionResp
                Hversion) as E.
  cbv zeta in E. rewrite E. clear E. simpl fst. simpl snd.
  intros r calls started.
  set (st1 := submit.mkState (submit.mkResult appID versionID platform [] 0 0 false)
                [submit.CallGetAppStoreVersion versionID]) in *.
  match eval unfold r in r with
  | context [submit.checkBuildAttached client versionID ?st] => set (stS := st) in *
  end.
  set (stB := snd (submit.checkBuildAttached client versionID stS)) in *.
  set (stL := snd (submit.checkVersionLocalizations client versionID stB)) in *.
  set (stI := snd (submit.checkAppInfoLocalizations client appID stL)) in *.
  set (stA := snd (submit.checkAgeRating client versionID stI)) in *.
  assert (HS : submit.calls stS = [submit.CallGetAppStoreVersion versionID]).
  { unfold stS. destruct (negb _); reflexivity. }
  pose proof (checkBuildAttached_exact client versionID stS) as HB.
  fold stB in HB.
  destruct (checkVersionLocalizations_first client versionID stB)
    as [cs1 [iL [HcL [HiL [_ [HfL HsL]]]]]]. fold stL in HcL, HiL, HsL.
  destruct (checkAppInfoLocalizations_first client appID stL)
    as [cs2 [iI [HcI [HiI [_ HfI]]]]]. fold stI in HcI, HiI.
  pose proof (checkAgeRating_exact client versionID stI) as HA.
  fold stA in HA.
  assert (HcB : submit.calls stB
                = [submit.CallGetAppStoreVersion versionID;
                   submit.CallGetAppStoreVersionBuild versionID]).
  { rewrite HB. simpl. now rewrite HS. }
  assert (HcL' : submit.calls stL = started ++ cs1).
  { rewrite HcL, HcB. reflexivity. }
  assert (HcI' : submit.calls stI
                 = started ++ cs1 ++ [submit.CallGetAppInfos appID] ++ cs2).
  { rewrite HcI, HcL'. now rewrite <- !app_assoc. }
  assert (Hcalls : calls
                   = started ++ cs1 ++ [submit.CallGetAppInfos appID] ++ cs2
                       ++ [submit.CallGetAgeRatingDeclarationForAppStoreVersion versionID]).
  { unfold calls. simpl. rewrite HA. simpl. rewrite HcI'.
    now rewrite <- !app_assoc. }
  assert (Hissues : submit.Issues r = submit.Issues (submit.result_ stA))
    by reflexivity.
  assert (HiA : exists iA,
             submit.Issues (submit.result_ stA)
             = submit.Issues (submit.result_ stI) ++ iA).
  { rewrite HA. simpl.
    destruct (submit.GetAgeRatingDeclarationForAppStoreVersion client _ versionID)
      as [?|err]; [exists []; now rewrite app_nil_r|].
    destruct (asc.IsNotFound err); simpl; now eexists. }
  destruct HiA as [iA HiA].
  exists cs1, cs2.
  split; [exact Hcalls|].
  split.
  { rewrite Hcalls. unfold checklistExecuted, started.
    repeat split; repeat (rewrite in_app_iff; simpl); auto 10. }
  split; [reflexivity|].
  rewrite Hissues, HiA, HiI, HiL.
  split; [|split; [|split; [|split]]].
  - intros err Herr. rewrite HB, HS, Herr. simpl.
    rewrite !in_app_iff. left. left. left.
    destruct (asc.IsNotFound err); simpl; rewrite in_app_iff; right; now left.
  - intros err Herr. rewrite <- HcB in Herr.
    rewrite !in_app_iff. left. left. right. now apply HfL.
  - intros resp loc Hresp Hloc. rewrite <- HcB in Hresp.
    pose proof (HsL resp loc Hresp Hloc) as Hsets.
    rewrite Hcalls. rewrite HcL' in Hsets.
    rewrite !in_app_iff in *. tauto.
  - intros err Herr. rewrite <- HcL' in Herr.
    rewrite !in_app_iff. left. right. now apply HfI.
  - intros err Herr. rewrite <- HcI' in Herr.
    rewrite in_app_iff. right.
    rewrite HA, Herr in HiA. 
    destruct (asc.IsNotFound err); simpl in HiA;
      apply app_inv_head in HiA; subst; now left.
Qed.

Lemma accounted_validation client appID versionID :
  respects (accounted client) (submit.validation client appID versionID).
Proof.
  unfold submit.validation.
  repeat first
    [ apply accounted_checkBuildAttached
    | apply accounted_checkVersionLocalizations
    | apply accounted_checkAppInfoLocalizations
    | apply accounted_checkAgeRating
    | apply accounted_update; intros r; exists []; simpl; now rewrite app_nil_r
    | progress cbv zeta
    | accounted_step ].
Qed.

(** C3, as the code has it.
    (1) In every run, every request that fails, of whatever check and at
    whatever place of the run (the version, the build, the version
    localizations, the screenshot sets of a localization, the screenshots
    of a set, the app infos, the app info localizations, the age rating),
    is reported by an issue of the result, under the name of its check.
    (2) When the version fetch succeeds, no failure ends the run: it makes
    the first request of each of the four following checks, in the order
    of the checklist and whatever the server answers, the age rating
    request being the last; every version localization received has its
    screenshot sets requested; and the ready flag is set from the error
    count.
    (3) When the version fetch fails, with whatever error, the run ends
    there: the result holds the one issue of the version check, with the
    error count 1 and not ready, and no other request is made. *)
Theorem checks_run_after_version_fetch client appID versionID platform :
  let r := fst (submit.runValidation client appID versionID platform) in
  let calls := snd (submit.runValidation client appID versionID platform) in
  (forall before c after err,
      calls = before ++ c :: after ->
      failureOf client before c = Some err ->
      exists issue, In issue (submit.Issues r) /\ reports c err issue)
  /\ (forall versionResp,
        submit.GetAppStoreVersion client [] versionID = asc.Ok versionResp ->
        let started :=
          [submit.CallGetAppStoreVersion versionID;
           submit.CallGetAppStoreVersionBuild versionID;
           submit.CallGetAppStoreVersionLocalizations versionID 200] in
        exists cs1 cs2,
          calls = started ++ cs1 ++ [submit.CallGetAppInfos appID] ++ cs2
                    ++ [submit.CallGetAgeRatingDeclarationForAppStoreVersion versionID]
          /\ checklistExecuted appID versionID calls
          /\ submit.Ready r = (submit.ErrorCount r =? 0)%Z
          /\ (forall err,
                submit.GetAppStoreVersionBuild client
                  [submit.CallGetAppStoreVersion versionID] versionID = asc.Err err ->
                In (if asc.IsNotFound err
                    then submit.mkIssue "build" "error" "no build attached to this version"
                    else submit.mkIssue "build" "warning"
                           ("unable to check build: " ++ asc.Error err))
                   (submit.Issues r))
          /\ (forall err,
                submit.GetAppStoreVersionLocalizations client
                  [submit.CallGetAppStoreVersion versionID;
                   submit.CallGetAppStoreVersionBuild versionID] versionID 200
                = asc.Err err ->
                In (submit.mkIssue "version_localizations" "warning"
                      ("unable to fetch: " ++ asc.Error err))
                   (submit.Issues r))
          /\ (forall resp loc,
                submit.GetAppStoreVersionLocalizations client
                  [submit.CallGetAppStoreVersion versionID;
                   submit.CallGetAppStoreVersionBuild versionID] versionID 200
                = asc.Ok resp ->
                In loc (asc.Data resp) ->
                In (submit.CallGetAppScreenshotSets (asc.ID loc)) calls)
          /\ (forall err,
                submit.GetAppInfos client (started ++ cs1) appID = asc.Err err ->
                In (submit.mkIssue "app_info" "warning"
                      ("unable to fetch app info: " ++ asc.Error err))
                   (submit.Issues r))
          /\ (forall err,
                submit.GetAgeRatingDeclarationForAppStoreVersion client
                  (started ++ cs1 ++ [submit.CallGetAppInfos appID] ++ cs2) versionID
                = asc.Err err ->
                In (if asc.IsNotFound err
                    then submit.mkIssue "age_rating" "error"
                           "no age rating declaration found"
                    else submit.mkIssue "age_rating" "warning"
                           ("unable to check: " ++ asc.Error err))
                   (submit.Issues r)))
  /\ (forall err,
        submit.GetAppStoreVersion client [] versionID = asc.Err err ->
        r = submit.mkResult appID versionID platform
              [submit.mkIssue "version" "error"
                 ("failed to fetch version: " ++ asc.Error err)]
              1 0 false
        /\ calls = [submit.CallGetAppStoreVersion versionID]).
Proof.
  intros r calls. split; [|split].
  - destruct (accounted_validation client appID versionID
                (submit.mkState
                   (submit.mkResult appID versionID platform [] 0 0 false) []))
      as [cs [issues [Hc [Hi Hall]]]].
    simpl in Hc, Hi. intros before c after err Hsplit Hfail.
    unfold r, submit.runValidation. cbv zeta. simpl fst. rewrite Hi.
    apply (Hall before c after err); [|exact Hfail].
    rewrite <- Hc. exact Hsplit.
  - intros versionResp Hversion.
    exact (checklist_after_version client appID versionID platform versionResp
             Hversion).
  - intros err Hversion. unfold r, calls, submit.runValidation, submit.validation.
    rewrite bind_snd. unfold submit.request at 1 2. simpl fst. simpl snd.
    simpl submit.calls. rewrite Hversion. split; reflexivity.
Qed.

End Checklist.

Lemma checks_run_after_version_fetch_witness :
  (checklistExecuted "app-1" "ver-1"
     (snd (submit.runValidation (ext := samples.externals)
             samples.onlyVersionAnswers "app-1" "ver-1" "IOS"))
   /\ submit.Ready
        (fst (submit.runValidation (ext := samples.externals)
                samples.onlyVersionAnswers "app-1" "ver-1" "IOS"))
      = (submit.ErrorCount
           (fst (submit.runValidation (ext := samples.externals)
                   samples.onlyVersionAnswers "app-1" "ver-1" "IOS")) =? 0)%Z)
  /\ (exists issue,
        In issue
          (submit.Issues
             (fst (submit.runValidation (ext := samples.externals)
                     samples.screenshotSetsTimeOut "app-1" "ver-1" "IOS")))
        /\ reports (submit.CallGetAppScreenshotSets "loc-1") samples.timeout issue)
  /\ submit.runValidation (ext := samples.externals)
       (samples.missingBuildAndDescription (asc.Err samples.timeout))
       "app-1" "ver-1" "IOS"
     = (submit.mkResult "app-1" "ver-1" "IOS"
          [submit.mkIssue "version" "error"
             ("failed to fetch version: " ++ asc.Error samples.timeout)]
          1 0 false,
        [submit.CallGetAppStoreVersion "ver-1"]).
Proof.
  split; [|split].
  - destruct (proj1 (proj2 (checks_run_after_version_fetch (ext := samples.externals)
                              samples.onlyVersionAnswers "app-1" "ver-1" "IOS"))
                _ eq_refl)
      as [cs1 [cs2 [_ [H [H' _]]]]].
    split; assumption.
  - apply (proj1 (checks_run_after_version_fetch (ext := samples.externals)
                    samples.screenshotSetsTimeOut "app-1" "ver-1" "IOS")
             [submit.CallGetAppStoreVersion "ver-1";
              submit.CallGetAppStoreVersionBuild "ver-1";
              submit.CallGetAppStoreVersionLocalizations "ver-1" 200]
             (submit.CallGetAppScreenshotSets "loc-1")
             [submit.CallGetAppInfos "app-1";
              submit.CallGetAppInfoLocalizations "info-1" 200;
              submit.CallGetAgeRatingDeclarationForAppStoreVersion "ver-1"]
             samples.timeout); reflexivity.
  - destruct (proj2 (proj2 (checks_run_after_version_fetch (ext := samples.externals)
                              (samples.missingBuildAndDescription
                                 (asc.Err samples.timeout))
                              "app-1" "ver-1" "IOS"))
                samples.timeout eq_refl) as [Hr Hc].
    rewrite (surjective_pairing (submit.runValidation _ _ _ _)).
    rewrite Hr, Hc. reflexivity.
Defined.

(** C3, as stated, at a run whose version fetch times out: the run ends with
    the one issue of the version check, and none of the four following
    checks makes its request (the build request would have been answered
    with a not-found). *)
Lemma version_fetch_failure_ends_run :
  submit.runValidation (ext := samples.externals)
    (samples.missingBuildAndDescription (asc.Err samples.timeout))
    "app-1" "ver-1" "IOS"
  = (submit.mkResult "app-1" "ver-1" "IOS"
       [submit.mkIssue "version" "error"
          "failed to fetch version: context deadline exceeded"]
       1 0 false,
     [submit.CallGetAppStoreVersion "ver-1"])
  /\ ~ checklistExecuted "app-1" "ver-1"
        (snd (submit.runValidation (ext := samples.externals)
                (samples.missingBuildAndDescription (asc.Err samples.timeout))
                "app-1" "ver-1" "IOS")).
Proof.
  split; [reflexivity|].
  intros [H _]. simpl in H. destruct H as [H | []]. discriminate.
Qed.

(** The runs of the command tests, and runs with warnings only. *)
Example runValidation_examples :
  fst (submit.runValidation (ext := samples.externals)
         samples.allChecksPass "app-1" "ver-1" "IOS")
  = submit.mkResult "app-1" "ver-1" "IOS" [] 0 0 true
  /\ fst (submit.runValidation (ext := samples.externals)
            (samples.missingBuildAndDescription samples.versionOK)
            "app-1" "ver-1" "IOS")
     = submit.mkResult "app-1" "ver-1" "IOS"
         [submit.mkIssue "build" "error" "no build attached to this version";
          submit.mkIssue "description" "error" "locale en-US: description is empty";
          submit.mkIssue "screenshots" "error" "locale en-US: no screenshot sets found"]
         3 0 false
  /\ fst (submit.runValidation (ext := samples.externals)
            samples.ageRatingTimesOut "app-1" "ver-1" "IOS")
     = submit.mkResult "app-1" "ver-1" "IOS"
         [submit.mkIssue "age_rating" "warning"
            "unable to check: context deadline exceeded"]
         0 1 true
  /\ submit.runValidation (ext := samples.externals)
       samples.onlyVersionAnswers "app-1" "ver-1" "IOS"
     = (submit.mkResult "app-1" "ver-1" "IOS"
          [submit.mkIssue "build" "warning"
             "unable to check build: context deadline exceeded";
           submit.mkIssue "version_localizations" "warning"
             "unable to fetch: context deadline exceeded";
           submit.mkIssue "app_info" "warning"
             "unable to fetch app info: context deadline exceeded";
           submit.mkIssue "age_rating" "warning"
             "unable to check: context deadline exceeded"]
          0 4 true,
        [submit.CallGetAppStoreVersion "ver-1";
         submit.CallGetAppStoreVersionBuild "ver-1";
         submit.CallGetAppStoreVersionLocalizations "ver-1" 200;
         submit.CallGetAppInfos "app-1";
         submit.CallGetAgeRatingDeclarationForAppStoreVersion "ver-1"]).
Proof. repeat split; vm_compute; reflexivity. Qed.

(** ** The section aggregator *)

Section Pool.
Import status.

Lemma setRoutine_length g : forall rs i,
  List.length (setRoutine i g rs) = List.length rs.
Proof.
  induction rs as [|r rs IH]; intros [|i]; simpl; auto.
Qed.

Lemma setRoutine_same g : forall rs i r,
  nth_error rs i = Some r -> nth_error (setRoutine i g rs) i = Some g.
Proof.
  induction rs as [|r0 rs IH]; intros [|i] r H; simpl in *; try discriminate; eauto.
Qed.

Lemma setRoutine_other g : forall rs i j,
  i <> j -> nth_error (setRoutine i g rs) j = nth_error rs j.
Proof.
  induction rs as [|r0 rs IH]; intros [|i] [|j] H; simpl; auto; try congruence.
Qed.

Lemma slotsTaken_acquire : forall rs i,
  nth_error rs i = Some Spawned ->
  slotsTaken (setRoutine i Running rs) = S (slotsTaken rs).
Proof.
  unfold slotsTaken.
  induction rs as [|r rs IH]; intros [|i] H; simpl in *; try discriminate.
  - inversion H; subst. reflexivity.
  - destruct (isRunning r); simpl; rewrite (IH _ H); reflexivity.
Qed.

Lemma slotsTaken_release : forall rs i,
  nth_error rs i = Some Running ->
  S (slotsTaken (setRoutine i Finished rs)) = slotsTaken rs.
Proof.
  unfold slotsTaken.
  induction rs as [|r rs IH]; intros [|i] H; simpl in *; try discriminate.
  - inversion H; subst. reflexivity.
  - destruct (isRunning r); simpl; rewrite <- (IH _ H); reflexivity.
Qed.

Lemma slotsTaken_spawned {A} (l : list A) :
  slotsTaken (map (fun _ => Spawned) l) = 0%nat.
Proof. unfold slotsTaken. induction l; simpl; auto. Qed.

(** A step never takes more slots than the semaphore has. *)
Lemma step_bound tasks limit p ev p' :
  step tasks limit p ev = Some p' ->
  (Z.of_nat (slotsTaken (routines p)) <= limit)%Z ->
  (Z.of_nat (slotsTaken (routines p')) <= limit)%Z.
Proof.
  intros Hstep Hle. destruct ev as [i|i]; simpl in Hstep.
  - destruct (nth_error (routines p) i) as [[| |]|] eqn:E; try discriminate.
    destruct (Z.of_nat (slotsTaken (routines p)) <? limit)%Z eqn:L;
      [|discriminate].
    inversion Hstep; subst. simpl.
    rewrite (slotsTaken_acquire _ _ E). apply Z.ltb_lt in L. lia.
  - destruct (nth_error (routines p) i) as [[| |]|] eqn:E; try discriminate.
    destruct (nth_error tasks i) as [current|]; [|discriminate].
    pose proof (slotsTaken_release _ _ E) as Hrel.
    destruct (run current (shared p)) as [resp [?|err]];
      inversion Hstep; subst; simpl; lia.
Qed.

Lemma exec_app tasks limit s1 : forall s2 p,
  exec tasks limit (s1 ++ s2) p
  = match exec tasks limit s1 p with
    | Some p1 => exec tasks limit s2 p1
    | None => None
    end.
Proof.
  induction s1 as [|ev s1 IH]; intros s2 p; simpl; [reflexivity|].
  destruct (step tasks limit p ev); [apply IH | reflexivity].
Qed.

Lemma exec_bound tasks limit schedule : forall p p',
  exec tasks limit schedule p = Some p' ->
  (Z.of_nat (slotsTaken (routines p)) <= limit)%Z ->
  (Z.of_nat (slotsTaken (routines p')) <= limit)%Z.
Proof.
  induction schedule as [|ev schedule IH]; intros p p' H Hle; simpl in H.
  - now inversion H; subst.
  - destruct (step tasks limit p ev) as [p1|] eqn:E; [|discriminate].
    eapply IH; [exact H|]. eapply step_bound; eassumption.
Qed.

Lemma exec_replay tasks limit schedule : forall p p',
  exec tasks limit schedule p = Some p' ->
  (shared p', errCh p') = replay tasks (completions schedule) (shared p) (errCh p).
Proof.
  induction schedule as [|ev schedule IH]; intros p p' H; simpl in H.
  - now inversion H; subst.
  - destruct (step tasks limit p ev) as [p1|] eqn:E; [|discriminate].
    rewrite (IH _ _ H). clear IH H.
    destruct ev as [i|i]; simpl in E |- *.
    + destruct (nth_error (routines p) i) as [[| |]|]; try discriminate.
      destruct (_ <? _)%Z; [|discriminate].
      now inversion E; subst.
    + destruct (nth_error (routines p) i) as [[| |]|]; try discriminate.
      destruct (nth_error tasks i) as [current|]; [|discriminate].
      destruct (run current (shared p)) as [resp [?|err]];
        now inversion E; subst.
Qed.

End Pool.

Section Join.
Import status.

Lemma step_done tasks limit p ev p' done :
  step tasks limit p ev = Some p' ->
  doneExactly p done ->
  doneExactly p' (done ++ completions [ev])
  /\ List.length (routines p') = List.length (routines p).
Proof.
  intros Hstep [Hnd Hdone]. destruct ev as [i|i]; simpl in Hstep |- *.
  - destruct (nth_error (routines p) i) as [[| |]|] eqn:E; try discriminate.
    destruct (_ <? _)%Z; [|discriminate].
    inversion Hstep; subst; simpl. rewrite app_nil_r, setRoutine_length.
    split; [|reflexivity]. split; [assumption|].
    intros j. simpl. rewrite Hdone. destruct (Nat.eq_dec i j) as [<-|Hne].
    + rewrite E, (setRoutine_same _ _ _ _ E). split; discriminate.
    + now rewrite (setRoutine_other _ _ _ _ Hne).
  - destruct (nth_error (routines p) i) as [[| |]|] eqn:E; try discriminate.
    destruct (nth_error tasks i) as [current|]; [|discriminate].
    assert (Hp' : routines p' = setRoutine i Finished (routines p)).
    { destruct (run current (shared p)) as [resp [?|err]];
        now inversion Hstep; subst. }
    rewrite Hp', setRoutine_length. split; [|reflexivity]. split.
    + apply NoDup_app; [assumption | repeat constructor; auto |].
      intros j Hj [<-|[]]. apply Hdone in Hj. congruence.
    + intros j. rewrite Hp', in_app_iff, Hdone. simpl.
      destruct (Nat.eq_dec i j) as [<-|Hne].
      * rewrite (setRoutine_same _ _ _ _ E). tauto.
      * rewrite (setRoutine_other _ _ _ _ Hne). intuition congruence.
Qed.

Lemma exec_done tasks limit schedule : forall p p' done,
  exec tasks limit schedule p = Some p' ->
  doneExactly p done ->
  doneExactly p' (done ++ completions schedule)
  /\ List.length (routines p') = List.length (routines p).
Proof.
  induction schedule as [|ev schedule IH]; intros p p' done H Hdone; simpl in H.
  - inversion H; subst. simpl. now rewrite app_nil_r.
  - destruct (step tasks limit p ev) as [p1|] eqn:E; [|discriminate].
    destruct (step_done _ _ _ _ _ _ E Hdone) as [Hd1 Hl1].
    destruct (IH _ _ _ H Hd1) as [Hd Hl].
    assert (Hcons : completions (ev :: schedule)
                    = completions [ev] ++ completions schedule).
    { unfold completions. simpl. now rewrite app_nil_r. }
    rewrite Hcons, app_assoc. split; [assumption | congruence].
Qed.

Lemma spawnAll_done tasks resp : doneExactly (spawnAll tasks resp) [].
Proof.
  split; [constructor|]. intros i. simpl. split; [tauto|].
  intros H. apply nth_error_In in H. apply in_map_iff in H.
  now destruct H as [? [? ?]].
Qed.

Lemma forallb_nth_error {A} (f : A -> bool) l i :
  forallb f l = true -> (i < List.length l)%nat ->
  exists a, nth_error l i = Some a /\ f a = true.
Proof.
  intros Hall Hi. destruct (nth_error l i) as [a|] eqn:E.
  - exists a. split; [reflexivity|].
    rewrite forallb_forall in Hall. apply Hall. eapply nth_error_In; eassumption.
  - apply nth_error_None in E. lia.
Qed.

(** When all goroutines are finished at the end of an execution, every task
    has returned exactly once. *)
Lemma exec_all_complete tasks limit schedule resp p :
  exec tasks limit schedule (spawnAll tasks resp) = Some p ->
  forallb isFinished (routines p) = true ->
  Permutation (completions schedule) (seq 0 (List.length tasks)).
Proof.
  intros Hexec Hall.
  destruct (exec_done _ _ _ _ _ _ Hexec (spawnAll_done tasks resp)) as [[Hnd Hdone] Hlen].
  simpl in Hnd, Hdone, Hlen. rewrite length_map in Hlen.
  apply NoDup_Permutation; [assumption | apply seq_NoDup |].
  intros i. rewrite in_seq, Hdone. split.
  - intros H. assert (nth_error (routines p) i <> None) as Hn by congruence.
    apply nth_error_Some in Hn. lia.
  - intros [_ Hi]. simpl in Hi. rewrite <- Hlen in Hi.
    destruct (forallb_nth_error _ _ _ Hall Hi) as [g [Hg Hfin]].
    rewrite Hg. now destruct g.
Qed.

Lemma setRoutine_middle g : forall l1 r l2,
  setRoutine (List.length l1) g (l1 ++ r :: l2) = l1 ++ g :: l2.
Proof.
  induction l1 as [|x l1 IH]; intros r l2; simpl; [reflexivity|].
  now rewrite IH.
Qed.

Lemma slotsTaken_idle k m :
  slotsTaken (repeat Finished k ++ repeat Spawned m) = 0%nat.
Proof.
  unfold slotsTaken. rewrite filter_app, length_app.
  assert (H : forall g n, isRunning g = false ->
                          List.length (filter isRunning (repeat g n)) = 0%nat).
  { intros g n Hg. induction n; simpl; [reflexivity|]. now rewrite Hg. }
  now rewrite !H.
Qed.

Lemma exec_oneByOne tasks limit : forall m k errs resp,
  (1 <= limit)%Z ->
  List.length tasks = (k + m)%nat ->
  exists p,
    exec tasks limit (oneByOne k m)
      (mkPool (repeat Finished k ++ repeat Spawned m) errs resp) = Some p
    /\ routines p = repeat Finished (k + m).
Proof.
  induction m as [|m IH]; intros k errs resp Hlimit Hlen; simpl.
  - eexists. split; [reflexivity|]. simpl. now rewrite app_nil_r, Nat.add_0_r.
  - assert (Hk : nth_error (repeat Finished k ++ Spawned :: repeat Spawned m) k
                 = Some Spawned).
    { rewrite nth_error_app2; rewrite repeat_length; [|lia].
      now rewrite Nat.sub_diag. }
    rewrite Hk.
    change (Spawned :: repeat Spawned m) with (repeat Spawned (S m)).
    rewrite slotsTaken_idle.
    assert (Hlt : (Z.of_nat 0 <? limit)%Z = true) by (apply Z.ltb_lt; lia).
    rewrite Hlt. simpl.
    pose proof (setRoutine_middle Running (repeat Finished k) Spawned (repeat Spawned m))
      as Hset.
    rewrite repeat_length in Hset. rewrite Hset.
    assert (Hk' : nth_error (repeat Finished k ++ Running :: repeat Spawned m) k
                  = Some Running).
    { rewrite nth_error_app2; rewrite repeat_length; [|lia].
      now rewrite Nat.sub_diag. }
    rewrite Hk'.
    destruct (nth_error tasks k) as [current|] eqn:Htask;
      [|apply nth_error_None in Htask; lia].
    pose proof (setRoutine_middle Finished (repeat Finished k) Running (repeat Spawned m))
      as Hset'.
    rewrite repeat_length in Hset'.
    assert (Hshift : repeat Finished k ++ Finished :: repeat Spawned m
                     = repeat Finished (S k) ++ repeat Spawned m).
    { change (repeat Finished (S k)) with (Finished :: repeat Finished k).
      rewrite repeat_cons, <- app_assoc. reflexivity. }
    destruct (run current resp) as [resp' [?|err]]; simpl;
      rewrite Hset', Hshift;
      match goal with
      | |- context [mkPool _ ?e ?r] =>
          destruct (IH (S k) e r Hlimit ltac:(lia)) as [p [Hp Hr]];
          exists p; split; [exact Hp|];
          rewrite Hr; f_equal; lia
      end.
Qed.

Lemma effective_limit limit : (1 <= (if (limit <? 1)%Z then 1 else limit))%Z.
Proof. destruct (limit <? 1)%Z eqn:E; [lia | apply Z.ltb_ge in E; lia]. Qed.

Lemma runTasks_oneByOne tasks limit resp :
  exists out, runTasks tasks limit (oneByOne 0 (List.length tasks)) resp = Some out.
Proof.
  unfold runTasks. destruct tasks as [|t tasks]; [eexists; reflexivity|].
  set (ts := t :: tasks).
  destruct (exec_oneByOne ts _ (List.length ts) 0 [] resp (effective_limit limit)
              eq_refl) as [p [Hp Hr]].
  assert (Hinit : spawnAll ts resp
                  = mkPool (repeat Finished 0 ++ repeat Spawned (List.length ts)) [] resp).
  { unfold spawnAll. f_equal. simpl. f_equal.
    clear. induction tasks; simpl; congruence. }
  rewrite Hinit, Hp, Hr.
  assert (Hall : forall n, forallb isFinished (repeat Finished n) = true)
    by (induction n; simpl; auto).
  rewrite Hall. eexists; reflexivity.
Qed.

End Join.

Section FirstError.
Import status.

Lemma replay_no_tasks order : forall resp errs,
  replay [] order resp errs = (resp, errs).
Proof.
  induction order as [|i order IH]; intros; simpl; [reflexivity|].
  destruct i; apply IH.
Qed.

Lemma replay_errors tasks order : forall resp errs,
  exists more,
    snd (replay tasks order resp errs) = errs ++ more
    /\ Forall (errorOf tasks) more
    /\ (forall i task,
          In i order -> nth_error tasks i = Some task -> alwaysFails task ->
          more <> []).
Proof.
  induction order as [|i order IH]; intros resp errs; simpl.
  - exists []. rewrite app_nil_r. repeat split; [constructor | intros ? ? []].
  - destruct (nth_error tasks i) as [current|] eqn:Hi.
    + destruct (run current resp) as [resp' [[]|err]] eqn:Hrun.
      * destruct (IH resp' errs) as [more [Hm [Hall Hne]]].
        exists more. repeat split; try assumption.
        intros j task [<-|Hj] Hj' Hfail; [|eauto].
        rewrite Hi in Hj'. inversion Hj'; subst.
        destruct (Hfail resp) as [? [? ?]]. congruence.
      * destruct (IH resp' (errs ++ [asc.wrap (name current) err]))
          as [more [Hm [Hall Hne]]].
        exists (asc.wrap (name current) err :: more).
        rewrite Hm, <- app_assoc. repeat split.
        -- constructor; [|assumption].
           exists current, resp, resp', err. repeat split; try assumption.
           eapply nth_error_In; eassumption.
        -- discriminate.
    + destruct (IH resp errs) as [more [Hm [Hall Hne]]].
      exists more. repeat split; try assumption.
      intros j task [<-|Hj] Hj' Hfail; [congruence | eauto].
Qed.

End FirstError.

Section Aggregator.
Import status.

(** What [runTasks] returns under a schedule is what the tasks give when run
    one after the other in the order in which they returned; and unless
    there is no task at all, that order has every task exactly once. *)
Lemma runTasks_replay tasks limit schedule resp out :
  runTasks tasks limit schedule resp = Some out ->
  out = (fst (replay tasks (completions schedule) resp []),
         hd_error (snd (replay tasks (completions schedule) resp [])))
  /\ (tasks <> [] ->
      Permutation (completions schedule) (seq 0 (List.length tasks))).
Proof.
  unfold runTasks. intros H.
  destruct tasks as [|t tasks].
  - inversion H; subst. rewrite replay_no_tasks. split; [reflexivity | congruence].
  - set (ts := t :: tasks) in *.
    destruct (exec ts _ schedule (spawnAll ts resp)) as [p|] eqn:E; [|discriminate].
    destruct (forallb isFinished (routines p)) eqn:Hall; [|discriminate].
    inversion H; subst. clear H.
    pose proof (exec_replay _ _ _ _ _ E) as Hr. simpl in Hr.
    rewrite <- Hr. split; [reflexivity|].
    intros _. eapply exec_all_complete; eassumption.
Qed.

(** Errors already sent on [errCh] have no part in what can happen next. *)
Lemma step_ignores_errCh tasks limit p errs ev :
  step tasks limit (mkPool (routines p) errs (shared p)) ev = None
  <-> step tasks limit p ev = None.
Proof.
  destruct ev as [i|i]; simpl.
  - destruct (nth_error (routines p) i) as [[| |]|]; try tauto.
    destruct (_ <? _)%Z; [|tauto]. split; discriminate.
  - destruct (nth_error (routines p) i) as [[| |]|]; try tauto.
    destruct (nth_error tasks i) as [current|]; [|tauto].
    destruct (run current (shared p)) as [resp [?|err]]; split; discriminate.
Qed.

(** C9. [runTasks], with [slots] the limit (at least one; three in
    [collectDashboard]):
    (1) in no state of an execution do more than [slots] tasks run;
    (2) errors already sent never block or end a step of another goroutine:
    there is no cancellation;
    (3) when [runTasks] returns, every task has returned exactly once, and
    the error returned is the first one sent in the order in which the
    tasks returned, [nil] when none was sent;
    (4) it does return: the tasks can always run to the end. *)
Theorem runTasks_bounded_join_first_error tasks limit resp :
  let slots := if (limit <? 1)%Z then 1%Z else limit in
  (forall schedule p,
      exec tasks slots schedule (spawnAll tasks resp) = Some p ->
      (Z.of_nat (slotsTaken (routines p)) <= slots)%Z)
  /\ (forall p errs ev,
        step tasks slots (mkPool (routines p) errs (shared p)) ev = None
        <-> step tasks slots p ev = None)
  /\ (forall schedule out,
        runTasks tasks limit schedule resp = Some out ->
        (tasks <> [] ->
         Permutation (completions schedule) (seq 0 (List.length tasks)))
        /\ out = (fst (replay tasks (completions schedule) resp []),
                  hd_error (snd (replay tasks (completions schedule) resp []))))
  /\ (exists schedule out, runTasks tasks limit schedule resp = Some out).
Proof.
  intros slots. split; [|split; [|split]].
  - intros schedule p E.
    eapply exec_bound; [exact E|].
    unfold spawnAll. cbn [routines]. rewrite slotsTaken_spawned.
    pose proof (effective_limit limit) as Hl. fold slots in Hl. lia.
  - intros p errs ev. apply step_ignores_errCh.
  - intros schedule out H.
    destruct (runTasks_replay _ _ _ _ _ H) as [Hout Hperm]. auto.
  - exists (oneByOne 0 (List.length tasks)). apply runTasks_oneByOne.
Qed.

End Aggregator.

Lemma runTasks_bounded_join_first_error_witness :
  (Z.of_nat
     (status.slotsTaken
        [status.Running; status.Running; status.Running]) <= 3)%Z
  /\ Permutation (completions samples.overlapped) (seq 0 3).
Proof.
  set (tasks := status.sectionTasks (ext := samples.externals) samples.submissionsFail
                  "app-1" samples.allSections).
  set (resp := status.initialResponse samples.appResponse "app-1" samples.allSections).
  assert (H : status.runTasks tasks 3 samples.overlapped resp
              = Some (fst (replay tasks (completions samples.overlapped) resp []),
                      hd_error (snd (replay tasks (completions samples.overlapped)
                                       resp []))))
    by reflexivity.
  assert (Hne : tasks <> []) by discriminate.
  split.
  - exact (proj1 (runTasks_bounded_join_first_error tasks 3 resp)
             [status.Acquire 0; status.Acquire 1; status.Acquire 2]
             (status.mkPool [status.Running; status.Running; status.Running] [] resp)
             eq_refl).
  - exact (proj1 (proj1 (proj2 (proj2 (runTasks_bounded_join_first_error tasks 3 resp)))
                    samples.overlapped _ H) Hne).
Defined.

(** A fourth send on a semaphore of three slots blocks, and so does a second
    one when the limit given is below one. *)
Example semaphore_blocks :
  let idle := status.mkSectionTask "idle" (status.ret tt) in
  let resp :=
    status.mkDashboardResponse (status.statusApp.mk "" "" "")
      None None None None None None None in
  status.runTasks [idle; idle; idle; idle] 3
    [status.Acquire 0; status.Acquire 1; status.Acquire 2; status.Acquire 3;
     status.Complete 0; status.Complete 1; status.Complete 2; status.Complete 3]
    resp = None
  /\ status.runTasks [idle; idle; idle; idle] 3
       [status.Acquire 0; status.Acquire 1; status.Acquire 2; status.Complete 1;
        status.Acquire 3; status.Complete 0; status.Complete 2; status.Complete 3]
       resp = Some (resp, None)
  /\ status.runTasks [idle; idle] 0
       [status.Acquire 0; status.Acquire 1; status.Complete 0; status.Complete 1]
       resp = None
  /\ status.runTasks [idle; idle] 0
       [status.Acquire 1; status.Complete 1; status.Acquire 0; status.Complete 0]
       resp = Some (resp, None).
Proof. repeat split. Qed.

Section Dashboard.
Import status.
Context {ext : Externals}.

(** C2. When a section task fails, [collectDashboard] returns no snapshot and
    an error: the error of a failed task under the name of that task (of the
    one failing task, when the others do not fail); and the command hands
    nothing to the output. *)
Theorem failed_task_discards_snapshot
    client appID includes schedule appResp out failing :
  GetApp client appID = asc.Ok appResp ->
  In failing (sectionTasks client appID includes) ->
  alwaysFails failing ->
  collectDashboard client appID includes schedule = Some out ->
  fst out = None
  /\ (exists e,
        snd out = Some e
        /\ errorOf (sectionTasks client appID includes) e
        /\ statusExec client appID includes schedule
           = Some (None, Some (asc.wrap "status" e)))
  /\ ((forall other,
         In other (sectionTasks client appID includes) ->
         other = failing \/ neverFails other) ->
      exists resp resp' err,
        run failing resp = (resp', asc.Err err)
        /\ snd out = Some (asc.wrap (name failing) err)).
Proof.
  intros Happ Hin Hfail Hout.
  unfold statusExec. rewrite Hout.
  unfold collectDashboard in Hout. rewrite Happ in Hout.
  set (tasks := sectionTasks client appID includes) in *.
  set (resp0 := initialResponse appResp appID includes) in *.
  destruct (runTasks tasks 3 schedule resp0) as [[resp' eopt]|] eqn:HR;
    [|discriminate].
  destruct (runTasks_replay _ _ _ _ _ HR) as [Hpair Hperm].
  destruct (replay_errors tasks (completions schedule) resp0 [])
    as [more [Hmore [Hall Hne]]].
  simpl in Hmore. rewrite Hmore in Hpair.
  assert (Hmore_ne : more <> []).
  { destruct (In_nth_error _ _ Hin) as [i Hi].
    apply (Hne i failing); try assumption.
    assert (Htasks : tasks <> []) by (intros E; rewrite E in Hin; destruct Hin).
    apply (Permutation_in i (Permutation_sym (Hperm Htasks))).
    apply in_seq. split; [lia|]. simpl.
    apply nth_error_Some. congruence. }
  destruct more as [|e more]; [congruence|].
  inversion Hpair; subst eopt. simpl in Hout. inversion Hout; subst out. simpl.
  inversion Hall as [|? ? He _]; subst.
  split; [reflexivity|]. split.
  - exists e. repeat split; assumption.
  - intros Hothers.
    destruct He as [task [r [r' [err [Htask [Hrun He]]]]]].
    destruct (Hothers task Htask) as [->|Hnever].
    + exists r, r', err. split; [assumption | now rewrite He].
    + destruct (Hnever r) as [r'' Hok]. congruence.
Qed.

End Dashboard.

Lemma failed_task_discards_snapshot_witness :
  fst (@None status.dashboardResponse,
       Some (asc.wrap "submission/review" samples.timeout)) = None
  /\ (exists e,
        snd (@None status.dashboardResponse,
             Some (asc.wrap "submission/review" samples.timeout)) = Some e
        /\ errorOf (status.sectionTasks (ext := samples.externals)
                      samples.submissionsFail "app-1" samples.allSections) e
        /\ status.statusExec (ext := samples.externals) samples.submissionsFail
             "app-1" samples.allSections samples.overlapped
           = Some (None, Some (asc.wrap "status" e)))
  /\ ((forall other,
         In other (status.sectionTasks (ext := samples.externals)
                     samples.submissionsFail "app-1" samples.allSections) ->
         other = status.mkSectionTask "submission/review"
                   (status.fillSubmissionAndReview (ext := samples.externals)
                      samples.submissionsFail "app-1" samples.allSections)
         \/ neverFails other) ->
      exists resp resp' err,
        status.run
          (status.mkSectionTask "submission/review"
             (status.fillSubmissionAndReview (ext := samples.externals)
                samples.submissionsFail "app-1" samples.allSections)) resp
        = (resp', asc.Err err)
        /\ snd (@None status.dashboardResponse,
                Some (asc.wrap "submission/review" samples.timeout))
           = Some (asc.wrap "submission/review" err)).
Proof.
  apply (failed_task_discards_snapshot (ext := samples.externals)
           samples.submissionsFail "app-1" samples.allSections samples.overlapped
           samples.appResponse).
  - reflexivity.
  - right. right. left. reflexivity.
  - intros resp. exists resp, samples.timeout. reflexivity.
  - reflexivity.
Defined.

(** One task fails and two succeed: nothing of the two is returned; when all
    succeed the snapshot has every section, the later identifier winning
    the tie between the two versions. *)
Example collectDashboard_examples :
  status.collectDashboard (ext := samples.externals) samples.submissionsFail
    "app-1" samples.allSections samples.overlapped
  = Some (None, Some (asc.wrap "submission/review" samples.timeout))
  /\ (forall other,
        In other (status.sectionTasks (ext := samples.externals)
                    samples.submissionsFail "app-1" samples.allSections) ->
        other = status.mkSectionTask "submission/review"
                  (status.fillSubmissionAndReview (ext := samples.externals)
                     samples.submissionsFail "app-1" samples.allSections)
        \/ neverFails other)
  /\ status.collectDashboard (ext := samples.externals) samples.submissionsOK
       "app-1" samples.allSections samples.overlapped
     = Some
         (Some
            (status.mkDashboardResponse
               (status.statusApp.mk "app-1" "com.example.app" "Example")
               (Some (status.buildsSection.mk None))
               (Some (status.testFlightSection.mk "" "" "" ""))
               (Some (status.appStoreSection.mk "ver-2" "" "" ""
                        "2026-02-20T00:00:00Z"))
               (Some (status.submissionSection.mk true []))
               (Some (status.reviewSection.mk "sub-1" "WAITING_FOR_REVIEW"
                        "2026-02-20T00:00:00Z" "IOS"))
               (Some (status.phasedReleaseSection.mk false "" "" "" 0 0))
               (Some (status.linksSection.mk
                        "https://appstoreconnect.apple.com/apps/app-1"
                        "https://appstoreconnect.apple.com/apps/app-1/testflight/ios"
                        "https://appstoreconnect.apple.com/apps/app-1/appstore/review"))),
          None).
Proof.
  split; [reflexivity|]. split; [|reflexivity].
  intros other Hin. simpl in Hin.
  destruct Hin as [<-|[<-|[<-|[]]]].
  - right. intros resp. cbv. eexists. reflexivity.
  - right. intros resp. cbv. eexists. reflexivity.
  - left. reflexivity.
Qed.

(** ** The cursor validator *)

Lemma append_cancel_l (s a b : string) : (s ++ a)%string = (s ++ b)%string -> a = b.
Proof.
  induction s as [|c s IH]; simpl; intros H; [assumption|].
  inversion H. auto.
Qed.

(** C1. For the validator of sections 4.1 and 6, with any URL parser: a
    cursor that parses and whose scheme and host are not those of the
    trusted origin is refused with the origin message, which is not a
    malformed-URL message; a cursor that does not parse is refused with the
    malformed-URL message carrying the parse error; and in both cases the
    command has sent no request and written nothing. *)
Theorem invalid_next_rejected_before_any_request urlParse commandPath fetch next :
  (forall u,
      urlParse next = asc.Ok u ->
      (shared.Scheme u, shared.Host u) <> (shared.trustedScheme, shared.trustedHost) ->
      shared.validateNextURL urlParse commandPath next
      = Some (asc.mkError
                (commandPath ++ ": --next must be an App Store Connect URL") false)
      /\ (forall parseError,
            (commandPath ++ ": --next must be an App Store Connect URL")%string
            <> (commandPath ++ ": --next must be a valid URL: " ++ parseError)%string)
      /\ shared.runWithNext urlParse commandPath fetch next
         = shared.mkOutcome [] "" ""
             (Some (asc.mkError
                      (commandPath ++ ": --next must be an App Store Connect URL")
                      false)))
  /\ (forall err,
        urlParse next = asc.Err err ->
        shared.validateNextURL urlParse commandPath next
        = Some (asc.mkError
                  (commandPath ++ ": --next must be a valid URL: " ++ asc.Error err)
                  false)
        /\ shared.runWithNext urlParse commandPath fetch next
           = shared.mkOutcome [] "" ""
               (Some (asc.mkError
                        (commandPath ++ ": --next must be a valid URL: "
                           ++ asc.Error err)
                        false))).
Proof.
  split.
  - intros u Hparse Horigin.
    assert (Hv : shared.validateNextURL urlParse commandPath next
                 = Some (asc.mkError
                           (commandPath ++ ": --next must be an App Store Connect URL")
                           false)).
    { unfold shared.validateNextURL. rewrite Hparse.
      destruct (shared.Scheme u =? shared.trustedScheme) eqn:Es;
        destruct (shared.Host u =? shared.trustedHost) eqn:Eh; try reflexivity.
      apply String.eqb_eq in Es, Eh. exfalso. apply Horigin. congruence. }
    split; [exact Hv|]. split.
    + intros parseError H. apply append_cancel_l in H. discriminate.
    + unfold shared.runWithNext. now rewrite Hv.
  - intros err Hparse.
    assert (Hv : shared.validateNextURL urlParse commandPath next
                 = Some (asc.mkError
                           (commandPath ++ ": --next must be a valid URL: "
                              ++ asc.Error err) false)).
    { unfold shared.validateNextURL. now rewrite Hparse. }
    split; [exact Hv|]. unfold shared.runWithNext. now rewrite Hv.
Qed.

Lemma invalid_next_rejected_before_any_request_witness :
  shared.runWithNext samples.parseURL "bundle-ids list" samples.fetchAndPrint
    samples.wrongScheme
  = shared.mkOutcome [] "" ""
      (Some (asc.mkError "bundle-ids list: --next must be an App Store Connect URL"
               false))
  /\ shared.runWithNext samples.parseURL "bundle-ids list" samples.fetchAndPrint
       samples.malformed
     = shared.mkOutcome [] "" ""
         (Some (asc.mkError
                  ("bundle-ids list: --next must be a valid URL: "
                     ++ "parse https://api.appstoreconnect.apple.com/%zz: invalid URL escape")
                  false)).
Proof.
  split.
  - apply (proj1 (invalid_next_rejected_before_any_request samples.parseURL
                    "bundle-ids list" samples.fetchAndPrint samples.wrongScheme)
             (shared.mkURL "http" "api.appstoreconnect.apple.com"
                "/v1/bundleIds?cursor=AQ")).
    + reflexivity.
    + discriminate.
  - apply (proj2 (invalid_next_rejected_before_any_request samples.parseURL
                    "bundle-ids list" samples.fetchAndPrint samples.malformed)
             (asc.mkError
                "parse https://api.appstoreconnect.apple.com/%zz: invalid URL escape"
                false)).
    reflexivity.
Defined.

(** A cursor of the trusted origin is followed. *)
Example trusted_next_followed :
  shared.runWithNext samples.parseURL "bundle-ids list" samples.fetchAndPrint
    "https://api.appstoreconnect.apple.com/v1/bundleIds?cursor=AQ&limit=200"
  = shared.mkOutcome
      ["https://api.appstoreconnect.apple.com/v1/bundleIds?cursor=AQ&limit=200"]
      "{}" "" None.
Proof. reflexivity. Qed.

(* ================================================================== *)
(** * Further properties of the code *)
(* ================================================================== *)

(** ** The sibling selectors, and the order of the input *)

Section LatestMore.
Variable A : Type.
Variables date ident : A -> string.

Lemma fold_later_latest first rest :
  let best := fold_left (later A date ident) rest first in
  In best (first :: rest)
  /\ (forall v, In v (first :: rest) -> strLe (date v) (date best))
  /\ (forall v, In v (first :: rest) -> date v = date best ->
                strLe (ident v) (ident best)).
Proof.
  intros best. split; [apply fold_later_in|]. split.
  - intros v Hin.
    destruct (fold_later_max A date ident rest first v Hin) as [Hlt | [Heq _]].
    + now apply strLt_le.
    + unfold best. rewrite Heq. apply strLe_refl.
  - intros v Hin Heq.
    destruct (fold_later_max A date ident rest first v Hin) as [Hlt | [_ Hid]].
    + unfold best in Heq. rewrite Heq in Hlt. apply strLt_iff in Hlt.
      rewrite compare_refl in Hlt. discriminate.
    + exact Hid.
Qed.

Lemma strLt_irrefl a : ~ strLt a a.
Proof. intros H. apply strLt_iff in H. rewrite compare_refl in H. discriminate. Qed.

Lemma strLt_asym a b : strLt a b -> strLt b a -> False.
Proof.
  intros H1 H2. apply strLt_iff in H1, H2.
  pose proof (compare_lt_trans _ _ _ H1 H2) as H.
  rewrite compare_refl in H. discriminate.
Qed.

(** Two items none of which comes after the other have the same date and
    the same identifier. *)
Lemma notAfter_antisym x y :
  notAfter A date ident x y -> notAfter A date ident y x ->
  date x = date y /\ ident x = ident y.
Proof.
  intros [H1 | [E1 I1]] [H2 | [E2 I2]].
  - destruct (strLt_asym _ _ H1 H2).
  - rewrite E2 in H1. destruct (strLt_irrefl _ H1).
  - rewrite E1 in H2. destruct (strLt_irrefl _ H2).
  - split; [assumption|]. now apply String.leb_antisym.
Qed.

Lemma fold_later_permutation first rest first' rest' :
  Permutation (first :: rest) (first' :: rest') ->
  let best := fold_left (later A date ident) rest first in
  let best' := fold_left (later A date ident) rest' first' in
  date best' = date best /\ ident best' = ident best.
Proof.
  intros Hperm best best'.
  apply notAfter_antisym.
  - apply fold_later_max.
    apply (Permutation_in _ (Permutation_sym Hperm)). apply fold_later_in.
  - apply fold_later_max.
    apply (Permutation_in _ Hperm). apply fold_later_in.
Qed.

End LatestMore.

(** X1. The review-submission selector and the beta-review-submission
    selector give nothing for the empty list, and for a non-empty list one
    of its items, whose submitted date no item exceeds and whose identifier
    no item of that same date exceeds. *)
Theorem selectLatest_submissions_max :
  (forall submissions,
      match submissions with
      | [] => status.selectLatestReviewSubmission submissions = None
      | _ :: _ =>
          exists best,
            status.selectLatestReviewSubmission submissions = Some best
            /\ In best submissions
            /\ (forall s, In s submissions ->
                          strLe (reviewSubmittedDate s) (reviewSubmittedDate best))
            /\ (forall s, In s submissions ->
                          reviewSubmittedDate s = reviewSubmittedDate best ->
                          strLe (asc.ID s) (asc.ID best))
      end)
  /\ (forall submissions,
        match submissions with
        | [] => status.selectLatestBetaReviewSubmission submissions = None
        | _ :: _ =>
            exists best,
              status.selectLatestBetaReviewSubmission submissions = Some best
              /\ In best submissions
              /\ (forall s, In s submissions ->
                            strLe (betaSubmittedDate s) (betaSubmittedDate best))
              /\ (forall s, In s submissions ->
                            betaSubmittedDate s = betaSubmittedDate best ->
                            strLe (asc.ID s) (asc.ID best))
        end).
Proof.
  split; intros [|first rest]; try reflexivity.
  - rewrite selectLatestReviewSubmission_fold. eexists. split; [reflexivity|].
    apply (fold_later_latest _ reviewSubmittedDate (@asc.ID _)).
  - rewrite selectLatestBetaReviewSubmission_fold. eexists. split; [reflexivity|].
    apply (fold_later_latest _ betaSubmittedDate (@asc.ID _)).
Qed.

Lemma selectLatest_submissions_max_witness :
  exists best,
    status.selectLatestReviewSubmission [samples.sub1; samples.sub2] = Some best
    /\ In best [samples.sub1; samples.sub2]
    /\ (forall s, In s [samples.sub1; samples.sub2] ->
                  strLe (reviewSubmittedDate s) (reviewSubmittedDate best))
    /\ (forall s, In s [samples.sub1; samples.sub2] ->
                  reviewSubmittedDate s = reviewSubmittedDate best ->
                  strLe (asc.ID s) (asc.ID best)).
Proof.
  exact (proj1 selectLatest_submissions_max [samples.sub1; samples.sub2]).
Defined.

(** X2. The selection does not depend on the order of the input: over two
    lists with the same items in any order, the three selectors choose items
    of the same date and the same identifier (and both choose nothing when
    the lists are empty). *)
Theorem selectLatest_order_independent :
  (forall versions versions',
      Permutation versions versions' ->
      match status.selectLatestAppStoreVersion versions,
            status.selectLatestAppStoreVersion versions' with
      | Some best, Some best' =>
          createdDate best' = createdDate best /\ asc.ID best' = asc.ID best
      | None, None => versions = [] /\ versions' = []
      | _, _ => False
      end)
  /\ (forall submissions submissions',
        Permutation submissions submissions' ->
        match status.selectLatestReviewSubmission submissions,
              status.selectLatestReviewSubmission submissions' with
        | Some best, Some best' =>
            reviewSubmittedDate best' = reviewSubmittedDate best
            /\ asc.ID best' = asc.ID best
        | None, None => submissions = [] /\ submissions' = []
        | _, _ => False
        end)
  /\ (forall submissions submissions',
        Permutation submissions submissions' ->
        match status.selectLatestBetaReviewSubmission submissions,
              status.selectLatestBetaReviewSubmission submissions' with
        | Some best, Some best' =>
            betaSubmittedDate best' = betaSubmittedDate best
            /\ asc.ID best' = asc.ID best
        | None, None => submissions = [] /\ submissions' = []
        | _, _ => False
        end).
Proof.
  split; [|split]; intros l l' Hperm;
    (destruct l as [|first rest]; destruct l' as [|first' rest'];
     [ split; reflexivity
     | apply Permutation_nil in Hperm; discriminate
     | apply Permutation_sym, Permutation_nil in Hperm; discriminate
     | ]).
  - rewrite !selectLatestAppStoreVersion_fold.
    apply (fold_later_permutation _ createdDate (@asc.ID _) _ _ _ _ Hperm).
  - rewrite !selectLatestReviewSubmission_fold.
    apply (fold_later_permutation _ reviewSubmittedDate (@asc.ID _) _ _ _ _ Hperm).
  - rewrite !selectLatestBetaReviewSubmission_fold.
    apply (fold_later_permutation _ betaSubmittedDate (@asc.ID _) _ _ _ _ Hperm).
Qed.

Lemma selectLatest_order_independent_witness :
  match status.selectLatestAppStoreVersion [samples.ver1; samples.ver2],
        status.selectLatestAppStoreVersion [samples.ver2; samples.ver1] with
  | Some best, Some best' =>
      createdDate best' = createdDate best /\ asc.ID best' = asc.ID best
  | None, None => [samples.ver1; samples.ver2] = [] /\ [samples.ver2; samples.ver1] = []
  | _, _ => False
  end.
Proof.
  apply (proj1 selectLatest_order_independent). apply perm_swap.
Defined.

(** ** Relationships and the external states of builds *)

Section Relationships.
Import status.
Context {ext : Externals}.

(** X3. An identifier that [relationshipResourceID] returns is never empty
    and carries no white space at either end: it is the trimmed identifier
    of the reference found under the key in the decoded, non-empty
    document.  An empty document is refused without being decoded. *)
Theorem relationshipResourceID_trimmed relationships key :
  (forall id,
      relationshipResourceID relationships key = asc.Ok id ->
      id <> "" /\ strings.TrimSpace id = id /\ relationships <> ""
      /\ exists references reference,
           Unmarshal relationships = asc.Ok references
           /\ references key = Some reference
           /\ id = strings.TrimSpace (asc.rdID reference))
  /\ (relationships = "" ->
      relationshipResourceID relationships key
      = asc.Err (asc.mkError ("missing " ++ key ++ " relationship") false)).
Proof.
  unfold relationshipResourceID. split.
  - intros id H.
    destruct relationships as [|c raw]; [discriminate|]. simpl in H.
    destruct (Unmarshal (String c raw)) as [references|err] eqn:Hdec;
      [|discriminate].
    destruct (references key) as [reference|] eqn:Hkey; [|discriminate].
    destruct (strings.TrimSpace (asc.rdID reference) =? "") eqn:Hid;
      [discriminate|].
    inversion H; subst. apply String.eqb_neq in Hid.
    split; [assumption|]. split; [apply TrimSpace_idempotent|].
    split; [discriminate|]. eauto.
  - intros ->. reflexivity.
Qed.

Lemma externalStates_none details : forall m0 m k,
  externalStates details m0 = asc.Ok m ->
  (forall d, In d details ->
             relationshipResourceID (asc.BuildBetaDetail.Relationships d) "build"
             <> asc.Ok k) ->
  m k = m0 k.
Proof.
  induction details as [|d details IH]; intros m0 m k H Hnone; simpl in H.
  - now inversion H.
  - destruct (relationshipResourceID (asc.BuildBetaDetail.Relationships d) "build")
      as [buildID|err] eqn:Hd; [|discriminate].
    rewrite (IH _ _ k H); [|intros d' Hd'; apply Hnone; now right].
    destruct (k =? buildID) eqn:E; [|reflexivity].
    apply String.eqb_eq in E. subst.
    exfalso. apply (Hnone d); [now left | assumption].
Qed.

(** X4. The map of external build states that [fillBuildsAndTestFlight]
    builds: a build for which no detail is listed keeps the empty state; a
    build has the trimmed state of the last detail that refers to it; and
    the loop fails exactly at the first detail whose build reference cannot
    be resolved, with that error: a failure is at such a detail, such a
    detail makes the loop fail, and the loop succeeds when every reference
    can be resolved. *)
Theorem externalStates_last_wins details :
  (forall m k,
      externalStates details (fun _ => "") = asc.Ok m ->
      (forall d, In d details ->
                 relationshipResourceID (asc.BuildBetaDetail.Relationships d) "build"
                 <> asc.Ok k) ->
      m k = "")
  /\ (forall m before d after k,
        externalStates details (fun _ => "") = asc.Ok m ->
        details = before ++ d :: after ->
        relationshipResourceID (asc.BuildBetaDetail.Relationships d) "build"
        = asc.Ok k ->
        (forall d', In d' after ->
                    relationshipResourceID (asc.BuildBetaDetail.Relationships d') "build"
                    <> asc.Ok k) ->
        m k = strings.TrimSpace (asc.BuildBetaDetail.ExternalBuildState d))
  /\ (forall err,
        externalStates details (fun _ => "") = asc.Err err ->
        exists before d after,
          details = before ++ d :: after
          /\ relationshipResourceID (asc.BuildBetaDetail.Relationships d) "build"
             = asc.Err err
          /\ forall d', In d' before ->
               exists k,
                 relationshipResourceID (asc.BuildBetaDetail.Relationships d') "build"
                 = asc.Ok k)
  /\ (forall before d after err,
        details = before ++ d :: after ->
        (forall d', In d' before ->
           exists k,
             relationshipResourceID (asc.BuildBetaDetail.Relationships d') "build"
             = asc.Ok k) ->
        relationshipResourceID (asc.BuildBetaDetail.Relationships d) "build"
        = asc.Err err ->
        externalStates details (fun _ => "") = asc.Err err)
  /\ ((forall d, In d details ->
          exists k,
            relationshipResourceID (asc.BuildBetaDetail.Relationships d) "build"
            = asc.Ok k) ->
      exists m, externalStates details (fun _ => "") = asc.Ok m).
Proof.
  split; [|split; [|split; [|split]]].
  - intros m k H Hnone. now rewrite (externalStates_none _ _ _ _ H Hnone).
  - generalize (fun _ : string => "").
    intros m0 m before. revert m0 m details.
    induction before as [|b before IH];
      intros m0 m details d after k H -> Hd Hafter; simpl in H.
    + rewrite Hd in H.
      rewrite (externalStates_none _ _ _ _ H Hafter).
      now rewrite String.eqb_refl.
    + destruct (relationshipResourceID (asc.BuildBetaDetail.Relationships b) "build")
        as [buildID|err]; [|discriminate].
      eapply IH; [exact H | reflexivity | exact Hd | exact Hafter].
  - generalize (fun _ : string => "").
    induction details as [|d details IH]; intros m0 err H; simpl in H;
      [discriminate|].
    destruct (relationshipResourceID (asc.BuildBetaDetail.Relationships d) "build")
      as [buildID|e] eqn:Hd.
    + destruct (IH _ _ H) as [before [d' [after [-> [Herr Hbefore]]]]].
      exists (d :: before), d', after. split; [reflexivity|].
      split; [assumption|].
      intros x [<-|Hx]; [eauto | now apply Hbefore].
    + inversion H; subst. exists [], d, details.
      split; [reflexivity|]. split; [assumption|]. intros ? [].
  - generalize (fun _ : string => "").
    intros m0 before. revert m0 details.
    induction before as [|b before IH];
      intros m0 details d after err -> Hbefore Hd; simpl.
    + now rewrite Hd.
    + destruct (Hbefore b (or_introl eq_refl)) as [k Hk]. rewrite Hk.
      apply (IH _ _ d after); [reflexivity | | exact Hd].
      intros d' Hin. apply Hbefore. now right.
  - generalize (fun _ : string => "").
    induction details as [|d details IH]; intros m0 Hall; simpl; [eauto|].
    destruct (Hall d (or_introl eq_refl)) as [k Hk]. rewrite Hk.
    apply IH. intros d' Hin. apply Hall. now right.
Qed.

End Relationships.

Lemma relationshipResourceID_trimmed_witness :
  "build-1" <> ""
  /\ strings.TrimSpace "build-1" = "build-1"
  /\ samples.buildRelationship <> ""
  /\ exists references reference,
       Unmarshal (Externals := samples.externalsJSON) samples.buildRelationship
       = asc.Ok references
       /\ references "build" = Some reference
       /\ "build-1" = strings.TrimSpace (asc.rdID reference).
Proof.
  apply (proj1 (relationshipResourceID_trimmed (ext := samples.externalsJSON)
                  samples.buildRelationship "build")).
  reflexivity.
Defined.

Lemma externalStates_last_wins_witness :
  match status.externalStates (ext := samples.externalsJSON)
          [samples.betaDetail "EXPIRED"; samples.betaDetail " IN_BETA_TESTING "]
          (fun _ => "") with
  | asc.Ok m =>
      m "build-1"
      = strings.TrimSpace
          (asc.BuildBetaDetail.ExternalBuildState
             (samples.betaDetail " IN_BETA_TESTING "))
  | asc.Err _ => False
  end.
Proof.
  destruct (status.externalStates (ext := samples.externalsJSON)
              [samples.betaDetail "EXPIRED"; samples.betaDetail " IN_BETA_TESTING "]
              (fun _ => "")) as [m|err] eqn:E; [|vm_compute in E; discriminate].
  apply (proj1 (proj2 (externalStates_last_wins (ext := samples.externalsJSON)
                         [samples.betaDetail "EXPIRED";
                          samples.betaDetail " IN_BETA_TESTING "]))
           m [samples.betaDetail "EXPIRED"] _ [] "build-1" E eq_refl).
  - reflexivity.
  - intros d' [].
Defined.

(** ** What the section tasks write *)

Section TaskWrites.
Import status.

Lemma orElse_assoc {A} (a b c : option A) :
  orElse a (orElse b c) = orElse (orElse a b) c.
Proof. now destruct a. Qed.

Lemma overlay_assoc a b r : overlay a (overlay b r) = overlay (overlay a b) r.
Proof. unfold overlay. simpl. now rewrite !orElse_assoc. Qed.

Lemma overlay_blank r : overlay blank r = r.
Proof. now destruct r. Qed.

Lemma uniform_ret {A} (a : A) : uniform (ret a).
Proof. intros resp. unfold ret. simpl. now rewrite overlay_blank. Qed.

Lemma uniform_fail {A} err : uniform (@fail A err).
Proof. intros resp. unfold fail. simpl. now rewrite overlay_blank. Qed.

Lemma uniform_try {A} (r : asc.result A) : uniform (try r).
Proof. destruct r; [apply uniform_ret | apply uniform_fail]. Qed.

Lemma uniform_bind {A B} (m : Fill A) (k : A -> Fill B) :
  uniform m -> (forall a, uniform (k a)) -> uniform (bind m k).
Proof.
  intros Hm Hk resp. unfold bind.
  rewrite (Hm resp). destruct (m blank) as [d [a|err]]; simpl.
  - rewrite (Hk a (overlay d resp)), (Hk a d). simpl.
    now rewrite overlay_assoc.
  - reflexivity.
Qed.

Lemma keeps_ret {X A} (proj : dashboardResponse -> X) (a : A) : keeps proj (ret a).
Proof. intros resp. reflexivity. Qed.

Lemma keeps_fail {X A} (proj : dashboardResponse -> X) err : keeps proj (@fail A err).
Proof. intros resp. reflexivity. Qed.

Lemma keeps_try {X A} (proj : dashboardResponse -> X) (r : asc.result A) :
  keeps proj (try r).
Proof. destruct r; [apply keeps_ret | apply keeps_fail]. Qed.

Lemma keeps_bind {X A B} (proj : dashboardResponse -> X) (m : Fill A) (k : A -> Fill B) :
  keeps proj m -> (forall a, keeps proj (k a)) -> keeps proj (bind m k).
Proof.
  intros Hm Hk resp. unfold bind.
  specialize (Hm resp). destruct (m resp) as [resp' [a|err]]; simpl in *.
  - now rewrite (Hk a resp').
  - assumption.
Qed.

End TaskWrites.

Ltac uniform_step :=
  match goal with
  | |- uniform (status.bind _ _) => apply uniform_bind; [|intros ?]
  | |- uniform (status.ret _) => apply uniform_ret
  | |- uniform (status.fail _) => apply uniform_fail
  | |- uniform (status.try _) => apply uniform_try
  | |- uniform (status.assign _) => intros [? ? ? ? ? ? ? ?]; reflexivity
  | |- uniform (match ?x with _ => _ end) => destruct x
  end.

Ltac keeps_step :=
  match goal with
  | |- keeps _ (status.bind _ _) => apply keeps_bind; [|intros ?]
  | |- keeps _ (status.ret _) => apply keeps_ret
  | |- keeps _ (status.fail _) => apply keeps_fail
  | |- keeps _ (status.try _) => apply keeps_try
  | |- keeps _ (status.assign _) => intros ?; reflexivity
  | |- keeps _ (match ?x with _ => _ end) => destruct x
  end.

Section FillWrites.
Import status.
Context {ext : Externals}.

Lemma uniform_fillBuildsAndTestFlight client appID includes :
  uniform (fillBuildsAndTestFlight client appID includes).
Proof. unfold fillBuildsAndTestFlight. repeat (cbv zeta; uniform_step). Qed.

Lemma uniform_fillAppStoreAndPhasedRelease client appID includes :
  uniform (fillAppStoreAndPhasedRelease client appID includes).
Proof. unfold fillAppStoreAndPhasedRelease. repeat (cbv zeta; uniform_step). Qed.

Lemma uniform_fillSubmissionAndReview client appID includes :
  uniform (fillSubmissionAndReview client appID includes).
Proof. unfold fillSubmissionAndReview. repeat (cbv zeta; uniform_step). Qed.

Ltac keeps_fill := repeat (cbv beta iota zeta delta [negb]; keeps_step).

(** X5. Each section task writes only the sections it is named for,
    whether it succeeds or fails, and of these only the ones asked for: the
    identity of the app and the sections of the other tasks are never
    touched. *)
Theorem tasks_write_their_own_sections client appID includes resp :
  (let r := fst (fillBuildsAndTestFlight client appID includes resp) in
   App r = App resp /\ AppStore r = AppStore resp
   /\ Submission r = Submission resp /\ Review r = Review resp
   /\ PhasedRelease r = PhasedRelease resp /\ Links r = Links resp
   /\ (builds includes = false -> Builds r = Builds resp)
   /\ (testflight includes = false -> TestFlight r = TestFlight resp))
  /\ (let r := fst (fillAppStoreAndPhasedRelease client appID includes resp) in
      App r = App resp /\ Builds r = Builds resp /\ TestFlight r = TestFlight resp
      /\ Submission r = Submission resp /\ Review r = Review resp
      /\ Links r = Links resp
      /\ (appstore includes = false -> AppStore r = AppStore resp)
      /\ (phasedRelease includes = false -> PhasedRelease r = PhasedRelease resp))
  /\ (let r := fst (fillSubmissionAndReview client appID includes resp) in
      App r = App resp /\ Builds r = Builds resp /\ TestFlight r = TestFlight resp
      /\ AppStore r = AppStore resp /\ PhasedRelease r = PhasedRelease resp
      /\ Links r = Links resp
      /\ (submission includes = false -> Submission r = Submission resp)
      /\ (review includes = false -> Review r = Review resp)).
Proof.
  split; [|split]; cbv zeta.
  - repeat split;
      try (intros Hoff);
      match goal with
      | |- ?proj (fst (?m resp)) = _ =>
          assert (Hk : keeps proj m);
          [unfold fillBuildsAndTestFlight; try rewrite Hoff; keeps_fill
          |exact (Hk resp)]
      end.
  - repeat split;
      try (intros Hoff);
      match goal with
      | |- ?proj (fst (?m resp)) = _ =>
          assert (Hk : keeps proj m);
          [unfold fillAppStoreAndPhasedRelease; try rewrite Hoff; keeps_fill
          |exact (Hk resp)]
      end.
  - repeat split;
      try (intros Hoff);
      match goal with
      | |- ?proj (fst (?m resp)) = _ =>
          assert (Hk : keeps proj m);
          [unfold fillSubmissionAndReview; try rewrite Hoff; keeps_fill
          |exact (Hk resp)]
      end.
Qed.

End FillWrites.

Section OnSuccess.
Import status.

Lemma onSuccess_ret {A} Q (a : A) resp : Q resp -> onSuccess Q (ret a) resp.
Proof. auto. Qed.

Lemma onSuccess_fail {A} Q err resp : onSuccess Q (@fail A err) resp.
Proof. exact I. Qed.

Lemma onSuccess_try {A} Q (r : asc.result A) resp : Q resp -> onSuccess Q (try r) resp.
Proof. destruct r; [auto | intros _; exact I]. Qed.

Lemma onSuccess_assign Q f resp : Q (f resp) -> onSuccess Q (assign f) resp.
Proof. auto. Qed.

Lemma onSuccess_bind {A B} Q (m : Fill A) (k : A -> Fill B) resp :
  onSuccess (fun resp' => forall a, onSuccess Q (k a) resp') m resp ->
  onSuccess Q (bind m k) resp.
Proof.
  unfold onSuccess, bind. destruct (m resp) as [resp' [a|err]]; auto.
  intros H. apply H.
Qed.

Lemma overlay_comm d1 d2 r :
  disjointWrites d1 d2 -> overlay d1 (overlay d2 r) = overlay d2 (overlay d1 r).
Proof.
  intros [H1 [H2 [H3 [H4 [H5 [H6 H7]]]]]]. unfold overlay. simpl. f_equal;
    match goal with
    | H : ?a = None \/ ?b = None |- orElse ?a (orElse ?b _) = _ =>
        destruct H as [-> | ->]; simpl; [reflexivity | now destruct a]
    end.
Qed.

Lemma fold_overlay_permutation (W : nat -> dashboardResponse) o1 o2 :
  Permutation o1 o2 ->
  (forall i j, In i o1 -> In j o1 -> i <> j -> disjointWrites (W i) (W j)) ->
  forall r,
    fold_left (fun r i => overlay (W i) r) o1 r
    = fold_left (fun r i => overlay (W i) r) o2 r.
Proof.
  induction 1 as [|x l l' Hperm IH|x y l|l l' l'' H1 IH1 H2 IH2];
    intros Hdisj r; simpl.
  - reflexivity.
  - apply IH. intros i j Hi Hj. apply Hdisj; now right.
  - f_equal. destruct (Nat.eq_dec x y) as [->|Hne]; [reflexivity|].
    apply overlay_comm. apply Hdisj; simpl; auto.
  - rewrite IH1 by assumption. apply IH2.
    intros i j Hi Hj. apply Hdisj; eapply Permutation_in;
      try (apply Permutation_sym; eassumption); assumption.
Qed.

Lemma replay_written tasks :
  (forall task, In task tasks -> uniform (run task)) ->
  forall order resp errs,
    fst (replay tasks order resp errs)
    = fold_left (fun r i => overlay (written tasks i) r) order resp.
Proof.
  intros Hu. induction order as [|i order IH]; intros resp errs; simpl;
    [reflexivity|].
  unfold written at 2.
  destruct (nth_error tasks i) as [current|] eqn:Hi.
  - rewrite (Hu current (nth_error_In _ _ Hi) resp).
    destruct (snd (run current blank)); apply IH.
  - rewrite overlay_blank. apply IH.
Qed.

(** A uniform task that fails on one snapshot fails on every snapshot. *)
Lemma uniform_fails task resp resp' err :
  uniform (run task) -> run task resp = (resp', asc.Err err) -> alwaysFails task.
Proof.
  intros Hu Hrun r. rewrite (Hu resp) in Hrun. rewrite (Hu r).
  inversion Hrun as [[Hfst Hsnd]]. rewrite Hsnd. eauto.
Qed.

(** Whether an error is sent at all does not depend on the order in which
    uniform tasks return. *)
Lemma replay_errors_any_order tasks o1 o2 resp1 resp2 :
  (forall task, In task tasks -> uniform (run task)) ->
  Permutation o1 (seq 0 (List.length tasks)) ->
  Permutation o2 (seq 0 (List.length tasks)) ->
  snd (replay tasks o1 resp1 []) = [] -> snd (replay tasks o2 resp2 []) = [].
Proof.
  intros Hu P1 P2 H1.
  destruct (replay_errors tasks o2 resp2 []) as [more [Hm [Hall _]]].
  simpl in Hm. rewrite Hm. destruct more as [|e more]; [reflexivity|].
  exfalso. inversion Hall as [|? ? He _]; subst.
  destruct He as [task [r [r' [err [Hin [Hrun _]]]]]].
  pose proof (uniform_fails _ _ _ _ (Hu task Hin) Hrun) as Hfail.
  destruct (In_nth_error _ _ Hin) as [i Hi].
  destruct (replay_errors tasks o1 resp1 []) as [more1 [Hm1 [_ Hne]]].
  simpl in Hm1. rewrite Hm1 in H1.
  apply (Hne i task); try assumption.
  apply (Permutation_in i (Permutation_sym P1)).
  apply in_seq. split; [lia|]. simpl. apply nth_error_Some. congruence.
Qed.

End OnSuccess.

Ltac onSuccess_step :=
  match goal with
  | |- forall _, _ => intros ?
  | |- onSuccess _ (status.bind _ _) _ => apply onSuccess_bind
  | |- onSuccess _ (status.ret _) _ => apply onSuccess_ret
  | |- onSuccess _ (status.fail _) _ => apply onSuccess_fail
  | |- onSuccess _ (status.try _) _ => apply onSuccess_try
  | |- onSuccess _ (status.assign _) _ => apply onSuccess_assign
  | |- onSuccess _ (if negb ?b then _ else _) _ => destruct b; cbn [negb]
  | |- onSuccess _ (match ?x with _ => _ end) _ => destruct x
  end.

Ltac onSuccess_run := repeat (cbv beta iota zeta; onSuccess_step).

Ltac keeps_run := repeat (cbv beta iota zeta delta [negb]; keeps_step).

Section DashboardSections.
Import status.
Context {ext : Externals}.

Lemma written_fillBuildsAndTestFlight client appID includes :
  let d := fst (fillBuildsAndTestFlight client appID includes blank) in
  AppStore d = None /\ Submission d = None /\ Review d = None
  /\ PhasedRelease d = None /\ Links d = None.
Proof.
  cbv zeta. repeat split;
    match goal with
    | |- ?proj (fst (?m blank)) = None =>
        assert (Hk : keeps proj m);
        [unfold fillBuildsAndTestFlight; keeps_run | exact (Hk blank)]
    end.
Qed.

Lemma written_fillAppStoreAndPhasedRelease client appID includes :
  let d := fst (fillAppStoreAndPhasedRelease client appID includes blank) in
  Builds d = None /\ TestFlight d = None /\ Submission d = None
  /\ Review d = None /\ Links d = None.
Proof.
  cbv zeta. repeat split;
    match goal with
    | |- ?proj (fst (?m blank)) = None =>
        assert (Hk : keeps proj m);
        [unfold fillAppStoreAndPhasedRelease; keeps_run | exact (Hk blank)]
    end.
Qed.

Lemma written_fillSubmissionAndReview client appID includes :
  let d := fst (fillSubmissionAndReview client appID includes blank) in
  Builds d = None /\ TestFlight d = None /\ AppStore d = None
  /\ PhasedRelease d = None /\ Links d = None.
Proof.
  cbv zeta. repeat split;
    match goal with
    | |- ?proj (fst (?m blank)) = None =>
        assert (Hk : keeps proj m);
        [unfold fillSubmissionAndReview; keeps_run | exact (Hk blank)]
    end.
Qed.

Ltac present_run :=
  cbn [builds testflight appstore submission review phasedRelease links];
  onSuccess_run; try (split; reflexivity).

Lemma present_fillBuildsAndTestFlight client appID includes :
  onSuccess
    (fun r => isSome (Builds r) = builds includes
              /\ isSome (TestFlight r) = testflight includes)
    (fillBuildsAndTestFlight client appID includes) blank.
Proof.
  destruct includes as [b1 b2 b3 b4 b5 b6 b7].
  unfold fillBuildsAndTestFlight. present_run.
Qed.

Lemma present_fillAppStoreAndPhasedRelease client appID includes :
  onSuccess
    (fun r => isSome (AppStore r) = appstore includes
              /\ isSome (PhasedRelease r) = phasedRelease includes)
    (fillAppStoreAndPhasedRelease client appID includes) blank.
Proof.
  destruct includes as [b1 b2 b3 b4 b5 b6 b7].
  unfold fillAppStoreAndPhasedRelease. present_run.
Qed.

Lemma present_fillSubmissionAndReview client appID includes :
  onSuccess
    (fun r => isSome (Submission r) = submission includes
              /\ isSome (Review r) = review includes)
    (fillSubmissionAndReview client appID includes) blank.
Proof.
  destruct includes as [b1 b2 b3 b4 b5 b6 b7].
  unfold fillSubmissionAndReview. present_run.
Qed.

End DashboardSections.

Section DashboardOrder.
Import status.
Context {ext : Externals}.

Lemma sectionTasks_uniform client appID includes task :
  In task (sectionTasks client appID includes) -> uniform (run task).
Proof.
  unfold sectionTasks. intros H.
  repeat (apply in_app_or in H; destruct H as [H|H]);
    match type of H with
    | In _ (if ?c then _ else _) =>
        destruct c; simpl in H; [destruct H as [<-|[]] | destruct H]
    end; simpl.
  - apply uniform_fillBuildsAndTestFlight.
  - apply uniform_fillAppStoreAndPhasedRelease.
  - apply uniform_fillSubmissionAndReview.
Qed.

Lemma sectionTasks_disjoint client appID includes i j :
  i <> j ->
  disjointWrites (written (sectionTasks client appID includes) i)
                 (written (sectionTasks client appID includes) j).
Proof.
  intros Hne.
  pose proof (written_fillBuildsAndTestFlight client appID includes) as Hb.
  pose proof (written_fillAppStoreAndPhasedRelease client appID includes) as Ha.
  pose proof (written_fillSubmissionAndReview client appID includes) as Hs.
  cbv zeta in Hb, Ha, Hs.
  destruct Hb as [Hb1 [Hb2 [Hb3 [Hb4 Hb5]]]].
  destruct Ha as [Ha1 [Ha2 [Ha3 [Ha4 Ha5]]]].
  destruct Hs as [Hs1 [Hs2 [Hs3 [Hs4 Hs5]]]].
  unfold written, sectionTasks.
  destruct (builds includes || testflight includes);
    destruct (appstore includes || phasedRelease includes);
    destruct (submission includes || review includes);
    destruct i as [|[|[|i]]]; destruct j as [|[|[|j]]];
    try congruence; simpl; rewrite ?nth_error_nil;
    unfold disjointWrites; simpl; repeat split; auto.
Qed.

(** When [runTasks] returns no error, none of the (uniform) tasks fails. *)
Lemma runTasks_all_succeed tasks limit schedule resp final task :
  (forall t, In t tasks -> uniform (run t)) ->
  runTasks tasks limit schedule resp = Some (final, None) ->
  In task tasks ->
  exists u, snd (run task blank) = asc.Ok u.
Proof.
  intros Hu HR Hin.
  destruct (snd (run task blank)) as [u|err] eqn:Hs; [eauto|]. exfalso.
  assert (Hfail : alwaysFails task).
  { apply (uniform_fails task blank (fst (run task blank)) err (Hu task Hin)).
    rewrite <- Hs. now destruct (run task blank). }
  destruct (runTasks_replay _ _ _ _ _ HR) as [Hpair Hperm].
  destruct (replay_errors tasks (completions schedule) resp [])
    as [more [Hm [_ Hne]]].
  simpl in Hm. rewrite Hm in Hpair.
  destruct (In_nth_error _ _ Hin) as [i Hi].
  assert (Htasks : tasks <> []) by (intros E; rewrite E in Hin; destruct Hin).
  destruct more as [|e more]; [|discriminate].
  apply (Hne i task); try assumption; [|reflexivity].
  apply (Permutation_in i (Permutation_sym (Hperm Htasks))).
  apply in_seq. split; [lia|]. simpl. apply nth_error_Some. congruence.
Qed.

(** X6. What [collectDashboard] returns depends on the scheduling of the
    tasks only in which error is reported: under any two schedules that let
    it return, it fails under both or under none, and when it succeeds it
    returns the same snapshot. *)
Theorem dashboard_independent_of_schedule
    client appID includes schedule1 schedule2 out1 out2 :
  collectDashboard client appID includes schedule1 = Some out1 ->
  collectDashboard client appID includes schedule2 = Some out2 ->
  fst out1 = fst out2 /\ (snd out1 = None <-> snd out2 = None).
Proof.
  unfold collectDashboard.
  destruct (GetApp client appID) as [appResp|err].
  2:{ intros H1 H2. inversion H1; inversion H2; subst. simpl. tauto. }
  set (tasks := sectionTasks client appID includes).
  set (resp0 := initialResponse appResp appID includes).
  cbv zeta. fold tasks resp0.
  destruct (runTasks tasks 3 schedule1 resp0) as [[r1 e1]|] eqn:R1;
    [|discriminate].
  destruct (runTasks tasks 3 schedule2 resp0) as [[r2 e2]|] eqn:R2;
    [|discriminate].
  destruct (runTasks_replay _ _ _ _ _ R1) as [P1 Hperm1].
  destruct (runTasks_replay _ _ _ _ _ R2) as [P2 Hperm2].
  pose proof (sectionTasks_uniform client appID includes) as Hu. fold tasks in Hu.
  assert (Hr : r1 = r2 /\ (e1 = None <-> e2 = None)).
  { destruct tasks as [|t ts] eqn:Etasks.
    - rewrite replay_no_tasks in P1, P2. inversion P1; inversion P2; subst.
      simpl. tauto.
    - rewrite <- Etasks in *.
      assert (Hne : tasks <> []) by (rewrite Etasks; discriminate).
      specialize (Hperm1 Hne). specialize (Hperm2 Hne).
      inversion P1 as [[Hr1 He1]]. inversion P2 as [[Hr2 He2]]. split.
      + rewrite !replay_written by assumption.
        apply fold_overlay_permutation.
        * eapply Permutation_trans; [exact Hperm1 | apply Permutation_sym, Hperm2].
        * intros i j _ _ Hij. unfold tasks.
          now apply sectionTasks_disjoint.
      + assert (Hnil : forall l : list asc.error, hd_error l = None <-> l = []).
        { intros [|? ?]; simpl; split; congruence. }
        rewrite !Hnil. split; intros H.
        * eapply replay_errors_any_order; [exact Hu | exact Hperm1 | exact Hperm2 | exact H].
        * eapply replay_errors_any_order; [exact Hu | exact Hperm2 | exact Hperm1 | exact H]. }
  destruct Hr as [-> Hiff].
  intros H1 H2.
  destruct e1 as [e1|]; destruct e2 as [e2|];
    inversion H1; inversion H2; subst; simpl.
  - split; [reflexivity|]. split; discriminate.
  - destruct Hiff as [_ Hiff]. specialize (Hiff eq_refl). discriminate.
  - destruct Hiff as [Hiff _]. specialize (Hiff eq_refl). discriminate.
  - tauto.
Qed.

End DashboardOrder.

Lemma dashboard_independent_of_schedule_witness :
  match status.collectDashboard (ext := samples.externals) samples.submissionsOK
          "app-1" samples.allSections samples.overlapped,
        status.collectDashboard (ext := samples.externals) samples.submissionsOK
          "app-1" samples.allSections (oneByOne 0 3)
  with
  | Some out1, Some out2 =>
      fst out1 = fst out2 /\ (snd out1 = None <-> snd out2 = None)
  | _, _ => False
  end.
Proof.
  destruct (status.collectDashboard (ext := samples.externals) samples.submissionsOK
              "app-1" samples.allSections samples.overlapped) as [out1|] eqn:E1;
    [|vm_compute in E1; discriminate].
  destruct (status.collectDashboard (ext := samples.externals) samples.submissionsOK
              "app-1" samples.allSections (oneByOne 0 3)) as [out2|] eqn:E2;
    [|vm_compute in E2; discriminate].
  exact (dashboard_independent_of_schedule (ext := samples.externals)
           _ _ _ _ _ _ _ E1 E2).
Defined.


Section DashboardPresence.
Import status.
Context {ext : Externals}.

Lemma onSuccess_ok {A} (Q : dashboardResponse -> Prop) (m : Fill A) resp u :
  onSuccess Q m resp -> snd (m resp) = asc.Ok u -> Q (fst (m resp)).
Proof.
  unfold onSuccess. destruct (m resp) as [r [v|e]]; simpl; intros HQ H;
    [exact HQ | discriminate].
Qed.

(** What a returned snapshot holds. *)
Lemma collected_sections client appID includes schedule resp :
  collectDashboard client appID includes schedule = Some (Some resp, None) ->
  (exists appResp,
      GetApp client appID = asc.Ok appResp
      /\ App resp
         = statusApp.mk (asc.ID (asc.Data appResp))
             (asc.AppAttributes.BundleID (asc.Attributes (asc.Data appResp)))
             (asc.AppAttributes.Name (asc.Attributes (asc.Data appResp))))
  /\ isSome (Builds resp) = builds includes
  /\ isSome (TestFlight resp) = testflight includes
  /\ isSome (AppStore resp) = appstore includes
  /\ isSome (Submission resp) = submission includes
  /\ isSome (Review resp) = review includes
  /\ isSome (PhasedRelease resp) = phasedRelease includes
  /\ isSome (Links resp) = links includes.
Proof.
  unfold collectDashboard.
  destruct (GetApp client appID) as [appResp|err]; [|discriminate].
  cbv zeta.
  set (tasks := sectionTasks client appID includes).
  set (resp0 := initialResponse appResp appID includes).
  destruct (runTasks tasks 3 schedule resp0) as [[r [e|]]|] eqn:R;
    try discriminate.
  intros H. inversion H; subst r. clear H.
  pose proof (sectionTasks_uniform client appID includes) as Hu. fold tasks in Hu.
  pose proof (fun task => runTasks_all_succeed _ _ _ _ _ task Hu R) as Hok.
  destruct (runTasks_replay _ _ _ _ _ R) as [Hpair Hperm].
  apply (f_equal fst) in Hpair. simpl in Hpair. rename Hpair into Hresp.
  rewrite replay_written in Hresp by assumption.
  assert (Hseq : resp = fold_left (fun r i => overlay (written tasks i) r)
                          (seq 0 (List.length tasks)) resp0).
  { destruct tasks as [|t ts] eqn:Etasks.
    - rewrite Hresp. clear. generalize resp0.
      induction (completions schedule) as [|i l IH]; intros r0; simpl;
        [reflexivity|].
      unfold written at 2. rewrite nth_error_nil, overlay_blank. apply IH.
    - rewrite Hresp. apply fold_overlay_permutation.
      + apply Hperm. discriminate.
      + intros i j _ _ Hij. rewrite <- Etasks. now apply sectionTasks_disjoint. }
  clear Hresp Hperm R.
  pose proof (written_fillBuildsAndTestFlight client appID includes) as Wb.
  pose proof (written_fillAppStoreAndPhasedRelease client appID includes) as Wa.
  pose proof (written_fillSubmissionAndReview client appID includes) as Ws.
  cbv zeta in Wb, Wa, Ws.
  destruct Wb as [Wb1 [Wb2 [Wb3 [Wb4 Wb5]]]].
  destruct Wa as [Wa1 [Wa2 [Wa3 [Wa4 Wa5]]]].
  destruct Ws as [Ws1 [Ws2 [Ws3 [Ws4 Ws5]]]].
  pose proof (present_fillBuildsAndTestFlight client appID includes) as Pb.
  pose proof (present_fillAppStoreAndPhasedRelease client appID includes) as Pa.
  pose proof (present_fillSubmissionAndReview client appID includes) as Ps.
  assert (Hlinks : isSome (Links resp0) = links includes
                   /\ Builds resp0 = None /\ TestFlight resp0 = None
                   /\ AppStore resp0 = None /\ Submission resp0 = None
                   /\ Review resp0 = None /\ PhasedRelease resp0 = None
                   /\ App resp0
                      = statusApp.mk (asc.ID (asc.Data appResp))
                          (asc.AppAttributes.BundleID (asc.Attributes (asc.Data appResp)))
                          (asc.AppAttributes.Name (asc.Attributes (asc.Data appResp)))).
  { unfold resp0, initialResponse. destruct (links includes); simpl; auto 10. }
  destruct Hlinks as [L0 [L1 [L2 [L3 [L4 [L5 [L6 L7]]]]]]].
  assert (Fb : In (mkSectionTask "builds/testflight"
                     (fillBuildsAndTestFlight client appID includes)) tasks ->
               isSome (Builds (fst (fillBuildsAndTestFlight client appID includes blank)))
               = builds includes
               /\ isSome (TestFlight (fst (fillBuildsAndTestFlight client appID includes blank)))
                  = testflight includes).
  { intros Hin. destruct (Hok _ Hin) as [u E]. exact (onSuccess_ok _ _ _ _ Pb E). }
  assert (Fa : In (mkSectionTask "appstore/phased-release"
                     (fillAppStoreAndPhasedRelease client appID includes)) tasks ->
               isSome (AppStore (fst (fillAppStoreAndPhasedRelease client appID includes blank)))
               = appstore includes
               /\ isSome (PhasedRelease (fst (fillAppStoreAndPhasedRelease client appID includes blank)))
                  = phasedRelease includes).
  { intros Hin. destruct (Hok _ Hin) as [u E]. exact (onSuccess_ok _ _ _ _ Pa E). }
  assert (Fs : In (mkSectionTask "submission/review"
                     (fillSubmissionAndReview client appID includes)) tasks ->
               isSome (Submission (fst (fillSubmissionAndReview client appID includes blank)))
               = submission includes
               /\ isSome (Review (fst (fillSubmissionAndReview client appID includes blank)))
                  = review includes).
  { intros Hin. destruct (Hok _ Hin) as [u E]. exact (onSuccess_ok _ _ _ _ Ps E). }
  clear Hok Pb Pa Ps.
  unfold tasks, sectionTasks in Hseq, Fb, Fa, Fs.
  destruct (builds includes || testflight includes) eqn:Cb;
    destruct (appstore includes || phasedRelease includes) eqn:Ca;
    destruct (submission includes || review includes) eqn:Cs;
    simpl in Hseq, Fb, Fa, Fs; unfold written in Hseq; simpl in Hseq;
    repeat match goal with
    | C : (_ || _) = false |- _ => apply orb_false_elim in C; destruct C
    end;
    try (destruct Fb as [? ?]; [tauto|]);
    try (destruct Fa as [? ?]; [tauto|]);
    try (destruct Fs as [? ?]; [tauto|]);
    rewrite Hseq; unfold overlay; simpl;
    rewrite ?Wb1, ?Wb2, ?Wb3, ?Wb4, ?Wb5, ?Wa1, ?Wa2, ?Wa3, ?Wa4, ?Wa5,
            ?Ws1, ?Ws2, ?Ws3, ?Ws4, ?Ws5, ?L1, ?L2, ?L3, ?L4, ?L5, ?L6, ?L7;
    simpl;
    (split; [exists appResp; split; reflexivity|]);
    repeat match goal with
    | |- context [orElse ?o None] =>
        replace (orElse o None) with o by (destruct o; reflexivity)
    end;
    repeat split; congruence.
Qed.

(** X7. A snapshot that [collectDashboard] returns describes the application
    that was fetched and holds exactly the sections that were asked for:
    each of the seven sections is present if and only if its flag is set. *)
Theorem sections_present_iff_included client appID includes schedule resp :
  collectDashboard client appID includes schedule = Some (Some resp, None) ->
  (exists appResp,
      GetApp client appID = asc.Ok appResp
      /\ App resp
         = statusApp.mk (asc.ID (asc.Data appResp))
             (asc.AppAttributes.BundleID (asc.Attributes (asc.Data appResp)))
             (asc.AppAttributes.Name (asc.Attributes (asc.Data appResp))))
  /\ isSome (Builds resp) = builds includes
  /\ isSome (TestFlight resp) = testflight includes
  /\ isSome (AppStore resp) = appstore includes
  /\ isSome (Submission resp) = submission includes
  /\ isSome (Review resp) = review includes
  /\ isSome (PhasedRelease resp) = phasedRelease includes
  /\ isSome (Links resp) = links includes.
Proof. apply collected_sections. Qed.

End DashboardPresence.


Lemma sections_present_iff_included_witness :
  match status.collectDashboard (ext := samples.externals) samples.submissionsOK
          "app-1" samples.allSections samples.overlapped
  with
  | Some (Some resp, None) =>
      isSome (status.Builds resp) = true /\ isSome (status.TestFlight resp) = true
      /\ isSome (status.AppStore resp) = true
      /\ isSome (status.Submission resp) = true
      /\ isSome (status.Review resp) = true
      /\ isSome (status.PhasedRelease resp) = true
      /\ isSome (status.Links resp) = true
  | _ => False
  end.
Proof.
  destruct (status.collectDashboard (ext := samples.externals) samples.submissionsOK
              "app-1" samples.allSections samples.overlapped)
    as [[[resp|] [e|]]|] eqn:E; try (vm_compute in E; discriminate).
  exact (proj2 (sections_present_iff_included (ext := samples.externals)
                  _ _ _ _ _ E)).
Defined.

Lemma tasks_write_their_own_sections_witness :
  status.builds (status.mkIncludeSet false true false false false false false)
  = false
  /\ status.Builds
       (fst (status.fillBuildsAndTestFlight (ext := samples.externals)
               samples.submissionsOK "app-1"
               (status.mkIncludeSet false true false false false false false)
               blank))
     = status.Builds blank.
Proof.
  split; [reflexivity|].
  destruct (tasks_write_their_own_sections (ext := samples.externals)
              samples.submissionsOK "app-1"
              (status.mkIncludeSet false true false false false false false) blank)
    as [[_ [_ [_ [_ [_ [_ [Hoff _]]]]]]] _].
  exact (Hoff eq_refl).
Defined.


(** ** The result of a validation run *)

Lemma stepwise_tidy : stepwise tidy.
Proof.
  constructor.
  - intros st. repeat split. exists []. now rewrite app_nil_r.
  - intros st1 st2 st3 [A1 [V1 [P1 [i1 [I1 F1]]]]] [A2 [V2 [P2 [i2 [I2 F2]]]]].
    repeat split; try congruence.
    exists (i1 ++ i2). split; [now rewrite I2, I1, app_assoc|].
    apply Forall_app. now split.
  - intros A c answer st. simpl. repeat split. exists []. now rewrite app_nil_r.
  - intros check message st. simpl. repeat split.
    eexists. split; [reflexivity|]. repeat constructor.
  - intros check message st. simpl. repeat split.
    eexists. split; [reflexivity|]. constructor; [now right | constructor].
Qed.

Lemma graded_counts issues :
  Forall graded issues ->
  (countSeverity "error" issues + countSeverity "warning" issues
   = List.length issues)%nat.
Proof.
  unfold countSeverity. induction 1 as [|issue issues [H|H] _ IH]; simpl;
    [reflexivity| |]; rewrite H; simpl; lia.
Qed.

Lemma no_error_all_warnings issues :
  Forall graded issues ->
  (countSeverity "error" issues = 0%nat
   <-> Forall (fun issue => submit.Severity issue = "warning") issues).
Proof.
  unfold countSeverity. induction 1 as [|issue issues [H|H] _ IH]; simpl.
  - split; [constructor | reflexivity].
  - rewrite H. simpl. split; [discriminate|].
    intros Hall. inversion Hall; subst. congruence.
  - rewrite H. simpl. rewrite IH. split.
    + intros Hall. now constructor.
    + intros Hall. now inversion Hall.
Qed.

Section ValidationResult.
Import submit.
Context {ext : Externals}.

(** The whole run respects what its steps respect, when setting the ready
    flag does. *)
Lemma respects_validation R client appID versionID :
  stepwise R ->
  (forall st,
      R st (mkState
              (mkResult (AppID (result_ st)) (VersionID (result_ st))
                 (Platform (result_ st)) (Issues (result_ st))
                 (ErrorCount (result_ st)) (WarnCount (result_ st))
                 (ErrorCount (result_ st) =? 0)%Z)
              (calls st))) ->
  respects R (validation client appID versionID).
Proof.
  intros HR Hready. unfold validation.
  repeat first
    [ apply (respects_checkBuildAttached _ HR)
    | apply (respects_checkVersionLocalizations _ HR)
    | apply (respects_checkAppInfoLocalizations _ HR)
    | apply (respects_checkAgeRating _ HR)
    | exact Hready
    | progress cbv zeta
    | respects_step HR ].
Qed.

Lemma runValidation_tidy client appID versionID platform :
  let r := fst (runValidation client appID versionID platform) in
  AppID r = appID /\ VersionID r = versionID /\ Platform r = platform
  /\ Forall graded (Issues r).
Proof.
  cbv zeta. unfold runValidation. simpl fst.
  destruct (respects_validation tidy client appID versionID stepwise_tidy)
    with (st := mkState (mkResult appID versionID platform [] 0 0 false) [])
    as [HA [HV [HP [issues [HI HF]]]]].
  { intros st. repeat split. exists []. now rewrite app_nil_r. }
  simpl in HA, HV, HP, HI. rewrite HI. auto.
Qed.

Lemma runValidation_counted client appID versionID platform :
  let r := fst (runValidation client appID versionID platform) in
  ErrorCount r = wrapInt (Z.of_nat (countSeverity "error" (Issues r)))
  /\ WarnCount r = wrapInt (Z.of_nat (countSeverity "warning" (Issues r))).
Proof.
  cbv zeta. unfold runValidation. simpl fst.
  apply (respects_validation (fun st st' => counted st -> counted st')
           client appID versionID stepwise_counted).
  - intros st H. exact H.
  - split; reflexivity.
Qed.

Lemma runValidation_ready client appID versionID platform :
  let r := fst (runValidation client appID versionID platform) in
  Ready r = (ErrorCount r =? 0)%Z.
Proof.
  cbv zeta. unfold runValidation, validation. simpl fst.
  rewrite bind_snd. unfold request at 1 2. simpl.
  destruct (GetAppStoreVersion client [] versionID) as [versionResp|err].
  - repeat rewrite bind_snd. reflexivity.
  - reflexivity.
Qed.

(** X8. The result of a validation run is about the app, version and
    platform it was asked about, and each of its issues is an error or a
    warning.  As long as the issues are fewer than 2^63, the two counters
    are the numbers of errors and of warnings and add up to the number of
    issues, and the result is ready exactly when every issue is a warning. *)
Theorem ready_iff_only_warnings client appID versionID platform :
  let r := fst (runValidation client appID versionID platform) in
  AppID r = appID /\ VersionID r = versionID /\ Platform r = platform
  /\ Forall graded (Issues r)
  /\ ((Z.of_nat (List.length (Issues r)) < 2 ^ 63)%Z ->
      ErrorCount r = Z.of_nat (countSeverity "error" (Issues r))
      /\ WarnCount r = Z.of_nat (countSeverity "warning" (Issues r))
      /\ (ErrorCount r + WarnCount r = Z.of_nat (List.length (Issues r)))%Z
      /\ (Ready r = true
          <-> Forall (fun issue => Severity issue = "warning") (Issues r))).
Proof.
  pose proof (runValidation_tidy client appID versionID platform) as Ht.
  pose proof (runValidation_counted client appID versionID platform) as Hc.
  pose proof (runValidation_ready client appID versionID platform) as Hr.
  cbv zeta in *.
  set (r := fst (runValidation client appID versionID platform)) in *.
  destruct Ht as [HA [HV [HP HF]]]. destruct Hc as [He Hw].
  repeat (split; [assumption|]).
  intros Hlen.
  pose proof (graded_counts _ HF) as Hsum.
  rewrite wrapInt_small in He by lia.
  rewrite wrapInt_small in Hw by lia.
  repeat split; try assumption; try lia.
  - intros Hready. apply (no_error_all_warnings _ HF).
    rewrite Hr in Hready. apply Z.eqb_eq in Hready. lia.
  - intros Hall. apply (no_error_all_warnings _ HF) in Hall.
    rewrite Hr. apply Z.eqb_eq. lia.
Qed.

End ValidationResult.


Lemma ready_iff_only_warnings_witness :
  (Z.of_nat
     (List.length
        (submit.Issues
           (fst (submit.runValidation (ext := samples.externals)
                   (samples.missingBuildAndDescription samples.versionOK)
                   "app-1" "ver-1" "IOS")))) < 2 ^ 63)%Z
  /\ submit.ErrorCount
       (fst (submit.runValidation (ext := samples.externals)
               (samples.missingBuildAndDescription samples.versionOK)
               "app-1" "ver-1" "IOS"))
     = Z.of_nat
         (countSeverity "error"
            (submit.Issues
               (fst (submit.runValidation (ext := samples.externals)
                       (samples.missingBuildAndDescription samples.versionOK)
                       "app-1" "ver-1" "IOS")))).
Proof.
  split; [vm_compute; reflexivity|].
  apply (ready_iff_only_warnings (ext := samples.externals)
           (samples.missingBuildAndDescription samples.versionOK)
           "app-1" "ver-1" "IOS").
  vm_compute. reflexivity.
Defined.

(** ** What a ready result tells *)

Lemma continues_in st st' issue :
  continues st st' ->
  In issue (submit.Issues (submit.result_ st)) ->
  In issue (submit.Issues (submit.result_ st')).
Proof.
  intros [_ [[issues H] _]] Hin. rewrite H. apply in_or_app. now left.
Qed.

Lemma forEach_adds {A} (body : A -> submit.Run unit) x issue :
  (forall y, respects continues (body y)) ->
  (forall st, In issue (submit.Issues (submit.result_ (snd (body x st))))) ->
  forall l, In x l ->
  forall st, In issue (submit.Issues (submit.result_ (snd (submit.forEach l body st)))).
Proof.
  intros Hbody Hx. induction l as [|y l IH]; intros Hin st; [destruct Hin|].
  simpl. rewrite bind_snd. destruct Hin as [->|Hin].
  - eapply continues_in; [|apply Hx].
    apply (respects_forEach continues stepwise_continues l body Hbody).
  - now apply IH.
Qed.

Lemma error_counted issue issues :
  In issue issues -> submit.Severity issue = "error" ->
  (0 < countSeverity "error" issues)%nat.
Proof.
  unfold countSeverity. intros Hin Hsev.
  assert (H : In issue (filter (fun i => submit.Severity i =? "error") issues)).
  { apply filter_In. split; [assumption|]. now apply String.eqb_eq. }
  destruct (filter _ issues); [destruct H | simpl; lia].
Qed.

Lemma addError_then check message (rest : submit.Run unit) st :
  respects continues rest ->
  In (submit.mkIssue check "error" message)
     (submit.Issues
        (submit.result_
           (snd (submit.bind (submit.addError check message) (fun _ => rest) st)))).
Proof.
  intros Hrest. rewrite bind_snd. eapply continues_in; [apply Hrest|].
  simpl. apply in_or_app. right. now left.
Qed.

(** The errors of the version localization check. *)
Lemma checkVersionLocalizations_errors client versionID st resp :
  submit.GetAppStoreVersionLocalizations client (submit.calls st) versionID 200
  = asc.Ok resp ->
  (asc.Data resp = [] ->
   In (submit.mkIssue "version_localizations" "error" "no version localizations found")
      (submit.Issues
         (submit.result_ (snd (submit.checkVersionLocalizations client versionID st)))))
  /\ (forall loc,
        In loc (asc.Data resp) ->
        strings.TrimSpace
          (asc.AppStoreVersionLocalizationAttributes.Description (asc.Attributes loc))
        = "" ->
        In (submit.mkIssue "description" "error"
              ("locale "
                 ++ asc.AppStoreVersionLocalizationAttributes.Locale (asc.Attributes loc)
                 ++ ": description is empty"))
           (submit.Issues
              (submit.result_
                 (snd (submit.checkVersionLocalizations client versionID st))))).
Proof.
  intros Hresp. unfold submit.checkVersionLocalizations.
  rewrite bind_snd. unfold submit.request at 1 2. simpl fst. simpl snd.
  rewrite Hresp. split.
  - intros ->. simpl. apply in_or_app. right. now left.
  - intros loc Hin Hblank.
    destruct (asc.Data resp) as [|first rest] eqn:Hdata; [destruct Hin|].
    rewrite <- Hdata in *. clear Hdata.
    apply forEach_adds with (x := loc); [| |assumption].
    + intros y. cbv zeta.
      repeat first [apply (respects_checkScreenshots _ stepwise_continues)
                   | respects_step stepwise_continues].
    + intros st0. cbv zeta. rewrite Hblank. simpl String.eqb. cbv iota.
      apply addError_then.
      repeat first [apply (respects_checkScreenshots _ stepwise_continues)
                   | respects_step stepwise_continues].
Qed.


Section ReadyResult.
Import submit.
Context {ext : Externals}.

(** X9. What a ready result tells, as long as the issues are fewer than
    2^63: the version was fetched and is in an editable state; the build
    request did not answer not-found; when the version localizations were
    received, there is at least one and none has a blank description; and
    the age rating request, the last of the run, did not answer not-found. *)
Theorem ready_requires client appID versionID platform :
  let r := fst (runValidation client appID versionID platform) in
  let calls := snd (runValidation client appID versionID platform) in
  (Z.of_nat (List.length (Issues r)) < 2 ^ 63)%Z ->
  Ready r = true ->
  exists versionResp,
    GetAppStoreVersion client [] versionID = asc.Ok versionResp
    /\ isEditableState
         (ResolveAppStoreVersionState (asc.Attributes (asc.Data versionResp)))
       = true
    /\ (forall err,
          GetAppStoreVersionBuild client [CallGetAppStoreVersion versionID] versionID
          = asc.Err err ->
          asc.IsNotFound err = false)
    /\ (forall resp,
          GetAppStoreVersionLocalizations client
            [CallGetAppStoreVersion versionID; CallGetAppStoreVersionBuild versionID]
            versionID 200
          = asc.Ok resp ->
          asc.Data resp <> []
          /\ forall loc,
               In loc (asc.Data resp) ->
               strings.TrimSpace
                 (asc.AppStoreVersionLocalizationAttributes.Description
                    (asc.Attributes loc))
               <> "")
    /\ (forall err,
          GetAgeRatingDeclarationForAppStoreVersion client (removelast calls) versionID
          = asc.Err err ->
          asc.IsNotFound err = false).
Proof.
  intros r calls Hlen Hready.
  assert (Hnone : forall issue, In issue (Issues r) -> Severity issue <> "error").
  { intros issue Hin Hsev.
    pose proof (error_counted _ _ Hin Hsev) as Hpos.
    pose proof (runValidation_counted client appID versionID platform) as [He _].
    pose proof (runValidation_ready client appID versionID platform) as Hr.
    cbv zeta in He, Hr. fold r in He, Hr.
    pose proof (runValidation_tidy client appID versionID platform)
      as [_ [_ [_ HF]]].
    fold r in HF. pose proof (graded_counts _ HF) as Hsum.
    rewrite wrapInt_small in He by lia.
    rewrite Hr in Hready. apply Z.eqb_eq in Hready. lia. }
  destruct (GetAppStoreVersion client [] versionID) as [versionResp|err] eqn:Hversion.
  2:{ exfalso.
      apply (Hnone (mkIssue "version" "error"
                      ("failed to fetch version: " ++ asc.Error err)));
        [|reflexivity].
      unfold r, runValidation, validation.
      rewrite bind_snd. unfold request at 1 2. simpl fst. simpl snd.
      simpl submit.calls. rewrite Hversion. simpl. now left. }
  exists versionResp. split; [reflexivity|].
  pose proof (validation_after_version client appID versionID platform versionResp
                Hversion) as E.
  cbv zeta in E.
  set (st1 := mkState (mkResult appID versionID platform [] 0 0 false)
                [CallGetAppStoreVersion versionID]) in *.
  match type of E with
  | context [checkBuildAttached client versionID ?st] => set (stS := st) in *
  end.
  set (stB := snd (checkBuildAttached client versionID stS)) in *.
  set (stL := snd (checkVersionLocalizations client versionID stB)) in *.
  set (stI := snd (checkAppInfoLocalizations client appID stL)) in *.
  set (stA := snd (checkAgeRating client versionID stI)) in *.
  assert (Hr : Issues r = Issues (result_ stA)) by (unfold r; now rewrite E).
  assert (Hc : calls = submit.calls stA) by (unfold calls; now rewrite E).
  assert (CB : continues stS stB)
    by apply (respects_checkBuildAttached _ stepwise_continues).
  assert (CL : continues stB stL)
    by apply (respects_checkVersionLocalizations _ stepwise_continues).
  assert (CI : continues stL stI)
    by apply (respects_checkAppInfoLocalizations _ stepwise_continues).
  assert (CA : continues stI stA)
    by apply (respects_checkAgeRating _ stepwise_continues).
  assert (HS : submit.calls stS = [CallGetAppStoreVersion versionID]).
  { unfold stS. destruct (negb _); reflexivity. }
  pose proof (checkBuildAttached_exact client versionID stS) as HB. fold stB in HB.
  pose proof (checkAgeRating_exact client versionID stI) as HA. fold stA in HA.
  assert (HcB : submit.calls stB
                = [CallGetAppStoreVersion versionID;
                   CallGetAppStoreVersionBuild versionID]).
  { rewrite HB. simpl. now rewrite HS. }
  rewrite Hr in Hnone.
  split; [|split; [|split]].
  - destruct (isEditableState _) eqn:Hed; [reflexivity|]. exfalso.
    eapply Hnone;
      [ apply (continues_in stI _ _ CA), (continues_in stL _ _ CI),
              (continues_in stB _ _ CL), (continues_in stS _ _ CB);
        unfold stS; simpl; left; reflexivity
      | reflexivity ].
  - intros err Herr. destruct (asc.IsNotFound err) eqn:Hnf; [|reflexivity].
    exfalso.
    eapply Hnone;
      [ apply (continues_in stI _ _ CA), (continues_in stL _ _ CI),
              (continues_in stB _ _ CL);
        rewrite HB, HS, Herr, Hnf; simpl; apply in_or_app; right; left;
        reflexivity
      | reflexivity ].
  - intros resp Hresp. rewrite <- HcB in Hresp.
    destruct (checkVersionLocalizations_errors client versionID stB resp Hresp)
      as [Hempty Hdesc].
    fold stL in Hempty, Hdesc. split.
    + intros Hnil.
      eapply Hnone;
        [ apply (continues_in stI _ _ CA), (continues_in stL _ _ CI);
          apply Hempty; exact Hnil
        | reflexivity ].
    + intros loc Hin Hblank.
      eapply Hnone;
        [ apply (continues_in stI _ _ CA), (continues_in stL _ _ CI);
          apply Hdesc; [exact Hin | exact Hblank]
        | reflexivity ].
  - intros err Herr. destruct (asc.IsNotFound err) eqn:Hnf; [|reflexivity].
    exfalso.
    assert (Hlast : removelast calls = submit.calls stI).
    { rewrite Hc, HA. simpl. apply removelast_last. }
    rewrite Hlast in Herr.
    eapply Hnone;
      [ rewrite HA, Herr, Hnf; simpl; apply in_or_app; right; left; reflexivity
      | reflexivity ].
Qed.

End ReadyResult.

Lemma ready_requires_witness :
  submit.Ready
    (fst (submit.runValidation (ext := samples.externals) samples.allChecksPass
            "app-1" "ver-1" "IOS"))
  = true
  /\ exists versionResp,
       submit.GetAppStoreVersion samples.allChecksPass [] "ver-1"
       = asc.Ok versionResp
       /\ submit.isEditableState (ext := samples.externals)
            (ResolveAppStoreVersionState (Externals := samples.externals)
               (asc.Attributes (asc.Data versionResp)))
          = true.
Proof.
  split; [vm_compute; reflexivity|].
  destruct (ready_requires (ext := samples.externals) samples.allChecksPass
              "app-1" "ver-1" "IOS")
    as [versionResp [Hversion [Heditable _]]];
    [vm_compute; reflexivity | vm_compute; reflexivity |].
  exists versionResp. split; assumption.
Defined.


(** ** The submission section *)

Lemma insertSorted_permutation x l :
  Permutation (status.insertSorted x l) (x :: l).
Proof.
  induction l as [|y l IH]; simpl; [reflexivity|].
  destruct (String.leb x y); [reflexivity|].
  eapply Permutation_trans; [apply perm_skip, IH | apply perm_swap].
Qed.

Lemma insertSorted_ascending x l :
  ascending l -> ascending (status.insertSorted x l).
Proof.
  induction l as [|y l IH]; simpl; [intros _; split; [constructor | exact I]|].
  intros [Hy Hl]. destruct (String.leb x y) eqn:Hxy.
  - simpl. repeat split; try assumption.
    constructor; [exact Hxy|].
    eapply Forall_impl; [|exact Hy]. intros z Hz.
    now apply (strLe_trans x y z).
  - simpl. split; [|now apply IH].
    assert (Hyx : strLe y x).
    { destruct (String.leb_total x y) as [H|H]; [congruence | exact H]. }
    eapply Permutation_Forall;
      [apply Permutation_sym, insertSorted_permutation|].
    now constructor.
Qed.

Lemma sortStrings_permutation l : Permutation (status.sortStrings l) l.
Proof.
  induction l as [|x l IH]; simpl; [reflexivity|].
  eapply Permutation_trans; [apply insertSorted_permutation | now apply perm_skip].
Qed.

Lemma sortStrings_ascending l : ascending (status.sortStrings l).
Proof.
  induction l as [|x l IH]; simpl; [exact I | now apply insertSorted_ascending].
Qed.

Section SubmissionSection.
Import status.
Context {ext : Externals}.

(** The state of a submission, as the loop reads it. *)
Local Abbreviation stateOf submission :=
  (asc.ReviewSubmissionAttributes.SubmissionState (asc.Attributes submission)).

Lemma submission_loop submissions : forall inFlight issues,
  fold_left
    (fun section submission =>
       let state := stateOf submission in
       let inFlight :=
         if isInFlightSubmissionState state then true
         else submissionSection.InFlight section in
       if EqualFold state ReviewSubmissionStateUnresolvedIssues then
         submissionSection.mk inFlight
           (submissionSection.BlockingIssues section
              ++ [("submission " ++ asc.ID submission ++ " has unresolved issues")%string])
       else
         submissionSection.mk inFlight (submissionSection.BlockingIssues section))
    submissions (submissionSection.mk inFlight issues)
  = submissionSection.mk
      (inFlight
       || existsb (fun s => isInFlightSubmissionState (stateOf s)) submissions)
      (issues
         ++ map (fun s => ("submission " ++ asc.ID s ++ " has unresolved issues")%string)
              (filter (fun s => EqualFold (stateOf s) ReviewSubmissionStateUnresolvedIssues)
                 submissions)).
Proof.
  induction submissions as [|s l IH]; intros inFlight issues; simpl.
  - now rewrite orb_false_r, app_nil_r.
  - destruct (EqualFold _ _); simpl; rewrite IH;
      destruct (isInFlightSubmissionState _); simpl;
      rewrite ?orb_true_r, <- ?app_assoc; reflexivity.
Qed.

(** X10. The submission section of the dashboard: it is marked in flight
    exactly when some review submission is in an in-flight state, and its
    blocking issues are, in ascending order, one message for each
    submission whose state is that of unresolved issues, whatever the
    letter case. *)
Theorem submission_section_summary client appID includes resp submissions :
  GetReviewSubmissions client appID 200 = asc.Ok submissions ->
  submission includes = true ->
  exists section,
    Submission (fst (fillSubmissionAndReview client appID includes resp))
    = Some section
    /\ submissionSection.InFlight section
       = existsb (fun s => isInFlightSubmissionState (stateOf s))
           (asc.Data submissions)
    /\ ascending (submissionSection.BlockingIssues section)
    /\ Permutation (submissionSection.BlockingIssues section)
         (map (fun s => ("submission " ++ asc.ID s ++ " has unresolved issues")%string)
            (filter
               (fun s => EqualFold (stateOf s) ReviewSubmissionStateUnresolvedIssues)
               (asc.Data submissions))).
Proof.
  intros Hget Hinc. unfold fillSubmissionAndReview.
  rewrite Hget, Hinc. cbv zeta.
  pose proof (submission_loop (asc.Data submissions) false []) as Hloop.
  cbv zeta in Hloop. unfold bind at 1, try at 1, ret at 1. rewrite Hloop.
  eexists. split.
  - unfold bind, try, ret, assign. destruct (review includes); reflexivity.
  - simpl. split; [reflexivity|]. split.
    + apply sortStrings_ascending.
    + apply sortStrings_permutation.
Qed.

End SubmissionSection.

Lemma submission_section_summary_witness :
  exists section,
    status.Submission
      (fst (status.fillSubmissionAndReview (ext := samples.externals)
              samples.submissionsOK "app-1" samples.allSections blank))
    = Some section
    /\ status.submissionSection.InFlight section = true.
Proof.
  destruct (submission_section_summary (ext := samples.externals)
              samples.submissionsOK "app-1" samples.allSections blank _
              eq_refl eq_refl)
    as [section [Hsection [Hflight _]]].
  exists section. split; [exact Hsection|]. rewrite Hflight. reflexivity.
Defined.


(** ** Optional resources of the dashboard *)

Section OptionalResources.
Import status.
Context {ext : Externals}.

Lemma written_then {X} (proj : dashboardResponse -> X) (m k : Fill unit) resp :
  keeps proj k -> snd (m resp) = asc.Ok tt ->
  proj (fst (bind m (fun _ => k) resp)) = proj (fst (m resp)).
Proof.
  intros Hk Hm. unfold bind. destruct (m resp) as [resp' [[]|err]];
    [apply Hk | discriminate].
Qed.

(** X11. The pre-release version of the latest build and the phased release
    of the latest version are optional: when the request for one answers
    not-found, the section is written without it (and the phased release
    task returns no error); on any other failure the task returns that
    error and leaves the section as it was. *)
Theorem not_found_is_tolerated client appID includes resp :
  (forall buildsResp latest rest err,
      GetBuilds client appID "-uploadedDate" 50 = asc.Ok buildsResp ->
      asc.Data buildsResp = latest :: rest ->
      builds includes = true ->
      GetBuildPreReleaseVersion client (asc.ID latest) = asc.Err err ->
      let out := fillBuildsAndTestFlight client appID includes resp in
      if asc.IsNotFound err then
        Builds (fst out)
        = Some (buildsSection.mk
                  (Some (latestBuild.mk (asc.ID latest) ""
                           (asc.BuildAttributes.Version (asc.Attributes latest))
                           (asc.BuildAttributes.ProcessingState (asc.Attributes latest))
                           (asc.BuildAttributes.UploadedDate (asc.Attributes latest))
                           "")))
      else out = (resp, asc.Err err))
  /\ (forall versions latest err,
        GetAppStoreVersions client appID 200 = asc.Ok versions ->
        selectLatestAppStoreVersion (asc.Data versions) = Some latest ->
        phasedRelease includes = true ->
        GetAppStoreVersionPhasedRelease client (asc.ID latest) = asc.Err err ->
        let out := fillAppStoreAndPhasedRelease client appID includes resp in
        if asc.IsNotFound err then
          snd out = asc.Ok tt
          /\ PhasedRelease (fst out)
             = Some (phasedReleaseSection.mk false "" "" "" 0 0)
        else
          snd out = asc.Err err /\ PhasedRelease (fst out) = PhasedRelease resp).
Proof.
  split.
  - intros buildsResp latest rest err Hget Hdata Hinc Hpre out.
    destruct (asc.IsNotFound err) eqn:Hnf;
      unfold out, fillBuildsAndTestFlight;
      rewrite Hget, Hinc; unfold try at 1, ret at 1, bind at 1;
      rewrite Hdata; simpl hd_error; cbv beta iota zeta; rewrite Hpre, Hnf;
      simpl negb; cbv iota.
    + etransitivity; [apply written_then; [keeps_run | reflexivity] | reflexivity].
    + reflexivity.
  - intros versions latest err Hget Hlatest Hinc Hphase out.
    unfold out, fillAppStoreAndPhasedRelease.
    rewrite Hget, Hinc.
    destruct (asc.IsNotFound err) eqn:Hnf; destruct (appstore includes);
      cbn -[selectLatestAppStoreVersion]; rewrite Hlatest;
      cbn -[selectLatestAppStoreVersion]; rewrite Hphase, Hnf;
      split; reflexivity.
Qed.

End OptionalResources.

Lemma not_found_is_tolerated_witness :
  status.PhasedRelease
    (fst (status.fillAppStoreAndPhasedRelease (ext := samples.externals)
            samples.submissionsOK "app-1" samples.allSections blank))
  = Some (status.phasedReleaseSection.mk false "" "" "" 0 0).
Proof.
  destruct (not_found_is_tolerated (ext := samples.externals)
              samples.submissionsOK "app-1" samples.allSections blank)
    as [_ Hphased].
  exact (proj2 (Hphased _ samples.ver2 samples.notFound eq_refl eq_refl eq_refl
                  eq_refl)).
Defined.


(** ** The [--include] flag *)

Section IncludeFlag.
Import status dashboard.
Variable SplitCSV : string -> list string.
Variable ToLower : string -> string.
Variable Quote : string -> string.

Lemma parseParts_ok parts : forall acc includes,
  parseParts Quote parts acc = asc.Ok includes ->
  Forall (fun part => In part allowedIncludes) parts
  /\ forall name,
       In name allowedIncludes ->
       (included includes name = true
        <-> included acc name = true \/ In name parts).
Proof.
  induction parts as [|part parts IH]; intros acc includes H; simpl in H.
  - inversion H; subst. split; [constructor|]. intros name _. simpl. tauto.
  - repeat
      match type of H with
      | (if ?c then _ else _) = _ =>
          let E := fresh "E" in
          destruct c eqn:E;
          [ apply String.eqb_eq in E; subst part;
            apply IH in H; destruct H as [HF Hiff];
            (split;
             [ constructor; [simpl; tauto | exact HF]
             | intros name Hname; rewrite (Hiff name Hname);
               simpl in Hname;
               repeat (destruct Hname as [<-|Hname]);
                 try (destruct Hname);
                 unfold included; simpl; intuition (try discriminate; auto) ])
          | ]
      end.
    discriminate.
Qed.

Lemma parseParts_error parts : forall acc err,
  parseParts Quote parts acc = asc.Err err ->
  exists before part after,
    parts = before ++ part :: after
    /\ Forall (fun part => In part allowedIncludes) before
    /\ ~ In part allowedIncludes
    /\ asc.Error err
       = ("--include contains unsupported section " ++ Quote part
            ++ " (allowed: builds,testflight,appstore,submission,review,phased-release,links)")%string.
Proof.
  induction parts as [|part parts IH]; intros acc err H; simpl in H;
    [discriminate|].
  repeat
    match type of H with
    | (if ?c then _ else _) = _ =>
        let E := fresh "E" in
        destruct c eqn:E;
        [ apply String.eqb_eq in E;
          apply IH in H; destruct H as [before [bad [after [Hp [HF [Hn He]]]]]];
          exists (part :: before), bad, after;
          (split; [rewrite Hp; reflexivity|]);
          (split; [constructor; [rewrite E; simpl; tauto | exact HF]|]);
          (split; assumption)
        | apply String.eqb_neq in E ]
    end.
  exists [], part, parts. split; [reflexivity|]. split; [constructor|].
  split.
  - unfold allowedIncludes. simpl. intuition congruence.
  - inversion H. reflexivity.
Qed.

(** X12. The sections named by [--include].  With no part at all every
    section is included.  Otherwise the value is accepted exactly when
    every part is one of the seven section names, and then a section is
    included exactly when its name is among the parts, in whatever order
    and however often; a refused value is refused for its first part that
    is no section name, which the error quotes. *)
Theorem parseInclude_sections value :
  let parts := SplitCSV (ToLower (strings.TrimSpace value)) in
  (parts = [] ->
   parseInclude SplitCSV ToLower Quote value
   = asc.Ok (mkIncludeSet true true true true true true true))
  /\ (parts <> [] ->
      Forall (fun part => In part allowedIncludes) parts ->
      exists includes,
        parseInclude SplitCSV ToLower Quote value = asc.Ok includes)
  /\ (forall includes,
        parts <> [] ->
        parseInclude SplitCSV ToLower Quote value = asc.Ok includes ->
        Forall (fun part => In part allowedIncludes) parts
        /\ forall name,
             In name allowedIncludes ->
             (included includes name = true <-> In name parts))
  /\ (forall err,
        parseInclude SplitCSV ToLower Quote value = asc.Err err ->
        exists before part after,
          parts = before ++ part :: after
          /\ Forall (fun part => In part allowedIncludes) before
          /\ ~ In part allowedIncludes
          /\ asc.Error err
             = ("--include contains unsupported section " ++ Quote part
                  ++ " (allowed: builds,testflight,appstore,submission,review,phased-release,links)")%string).
Proof.
  intros parts. unfold parseInclude. fold parts.
  split; [|split; [|split]].
  - intros ->. reflexivity.
  - intros Hne Hall.
    destruct parts as [|p ps]; [congruence|]. simpl Nat.eqb. cbv iota.
    destruct (parseParts Quote (p :: ps)
                (mkIncludeSet false false false false false false false))
      as [includes|err] eqn:E; [eauto|].
    exfalso. apply parseParts_error in E.
    destruct E as [before [part [after [Hp [_ [Hn _]]]]]].
    rewrite Hp in Hall. apply Forall_app in Hall. destruct Hall as [_ Hall].
    inversion Hall; subst. contradiction.
  - intros includes Hne H.
    destruct parts as [|p ps]; [congruence|]. simpl Nat.eqb in H. cbv iota in H.
    apply parseParts_ok in H. destruct H as [HF Hiff]. split; [exact HF|].
    intros name Hname. rewrite (Hiff name Hname).
    simpl in Hname.
    repeat (destruct Hname as [<-|Hname]); try (destruct Hname);
      unfold included; simpl; intuition discriminate.
  - intros err H.
    destruct parts as [|p ps]; [discriminate|]. simpl Nat.eqb in H. cbv iota in H.
    now apply parseParts_error in H.
Qed.

End IncludeFlag.


Lemma parseInclude_sections_witness :
  match dashboard.parseInclude samples.splitCSV samples.lowerASCII samples.quote
          "Builds, links"
  with
  | asc.Ok includes =>
      included includes "builds" = true /\ included includes "review" = false
  | asc.Err _ => False
  end.
Proof.
  destruct (dashboard.parseInclude samples.splitCSV samples.lowerASCII samples.quote
              "Builds, links") as [includes|err] eqn:E;
    [|vm_compute in E; discriminate].
  destruct (parseInclude_sections samples.splitCSV samples.lowerASCII samples.quote
              "Builds, links") as [_ [_ [Hok _]]].
  destruct (Hok includes) as [_ Hiff];
    [vm_compute; discriminate | exact E |].
  split.
  - apply Hiff; [simpl; tauto | vm_compute; tauto].
  - destruct (included includes "review") eqn:Hreview; [|reflexivity].
    apply Hiff in Hreview; [|simpl; tauto].
    vm_compute in Hreview. destruct Hreview as [H|[H|[]]]; discriminate.
Defined.


(** ** The rendered dashboard *)

Section RenderedDashboard.
Import status dashboard.
Context {ext : Externals}.

(** X13. What the table and the Markdown renderers show of a collected
    snapshot: the section of the app first, then the sections that were
    included and no other, in the fixed order builds, TestFlight, App Store,
    submission, review, phased release, links; every section has at least
    one row, and every row has a field and a value. *)
Theorem rendered_sections_follow_include client appID includes schedule resp :
  collectDashboard client appID includes schedule = Some (Some resp, None) ->
  map fst (dashboardSections resp)
  = ["App"]
      ++ (if builds includes then ["Builds"] else [])
      ++ (if testflight includes then ["TestFlight"] else [])
      ++ (if appstore includes then ["AppStore"] else [])
      ++ (if submission includes then ["Submission"] else [])
      ++ (if review includes then ["Review"] else [])
      ++ (if phasedRelease includes then ["PhasedRelease"] else [])
      ++ (if links includes then ["Links"] else [])
  /\ Forall
       (fun section =>
          snd section <> []
          /\ Forall (fun row => List.length row = 2%nat) (snd section))
       (dashboardSections resp).
Proof.
  intros H. apply collected_sections in H.
  destruct H as [_ [Hb [Ht [Ha [Hs [Hr [Hp Hl]]]]]]].
  rewrite <- Hb, <- Ht, <- Ha, <- Hs, <- Hr, <- Hp, <- Hl.
  unfold dashboardSections. split.
  - destruct (Builds resp), (TestFlight resp), (AppStore resp), (Submission resp),
      (Review resp), (PhasedRelease resp), (Links resp); reflexivity.
  - repeat (apply Forall_app; split);
      try match goal with
          | |- Forall _ (match ?o with _ => _ end) => destruct o
          end;
      repeat constructor; try discriminate;
      try match goal with
          | |- context [match ?o with _ => _ end] =>
              destruct o; repeat constructor; discriminate
          end.
Qed.

End RenderedDashboard.

Lemma rendered_sections_follow_include_witness :
  match status.collectDashboard (ext := samples.externals) samples.submissionsOK
          "app-1" samples.allSections samples.overlapped
  with
  | Some (Some resp, None) =>
      map fst (dashboard.dashboardSections resp)
      = ["App"; "Builds"; "TestFlight"; "AppStore"; "Submission"; "Review";
         "PhasedRelease"; "Links"]
  | _ => False
  end.
Proof.
  destruct (status.collectDashboard (ext := samples.externals) samples.submissionsOK
              "app-1" samples.allSections samples.overlapped)
    as [[[resp|] [e|]]|] eqn:E; try (vm_compute in E; discriminate).
  exact (proj1 (rendered_sections_follow_include (ext := samples.externals)
                  _ _ _ _ _ E)).
Defined.


(** ** Installing the skill pack *)

Lemma allBytes_Forall p s :
  install.allBytes p s = true ->
  Forall (fun c => p c = true) (list_ascii_of_string s).
Proof.
  induction s as [|c s IH]; simpl; [constructor|].
  intros H. apply andb_prop in H. destruct H as [Hc Hs].
  constructor; [exact Hc | now apply IH].
Qed.

Section SkillPack.
Import install.
Variable lookupNpx : string -> asc.result string.
Variable runCommand : string -> list string -> option asc.error.

(** X14. [asc install-skills] runs one command at most, and only after the
    package name has passed the checks: the command is the [npx] that was
    looked up, with the arguments [--yes skills add] and the trimmed package
    name, which is not empty, does not start with a hyphen and consists of
    letters, digits and [@ . _ / -] only; the error of the command, under
    the prefix of the subcommand, is the error returned.  Without that
    command the subcommand fails. *)
Theorem skills_installed_from_checked_package packageName :
  let out := exec lookupNpx runCommand packageName in
  let pkg := strings.TrimSpace packageName in
  (snd out = []
   \/ snd out = [LookPath "npx"]
   \/ exists path, snd out = [LookPath "npx"; Run path ["--yes"; "skills"; "add"; pkg]])
  /\ (forall name args,
        In (Run name args) (snd out) ->
        lookupNpx "npx" = asc.Ok name
        /\ args = ["--yes"; "skills"; "add"; pkg]
        /\ pkg <> ""
        /\ prefix "-" pkg = false
        /\ Forall (fun c => packageByte c = true) (list_ascii_of_string pkg)
        /\ fst out = option_map (asc.wrap "install skills") (runCommand name args))
  /\ (fst out = None -> exists name args, In (Run name args) (snd out)).
Proof.
  cbv zeta. unfold exec, installSkills.
  destruct (strings.TrimSpace packageName =? "") eqn:Hblank.
  { simpl. split; [auto|]. split; [intros ? ? []|discriminate]. }
  unfold validatePackageName.
  destruct (prefix "-" (strings.TrimSpace packageName)) eqn:Hhyphen.
  { simpl. split; [auto|]. split; [intros ? ? []|discriminate]. }
  destruct (MatchString (strings.TrimSpace packageName)) eqn:Hmatch; simpl negb;
    cbv iota.
  2:{ simpl. split; [auto|]. split; [intros ? ? []|discriminate]. }
  destruct (lookupNpx "npx") as [path|err] eqn:Hnpx.
  2:{ simpl. split; [auto|].
      split; [intros ? ? [H|[]]; discriminate | discriminate]. }
  assert (Hout : forall name args,
             In (Run name args)
                [LookPath "npx";
                 Run path ["--yes"; "skills"; "add"; strings.TrimSpace packageName]] ->
             name = path
             /\ args = ["--yes"; "skills"; "add"; strings.TrimSpace packageName]).
  { intros name args [H|[H|[]]]; [discriminate|]. inversion H. auto. }
  assert (Hbytes : Forall (fun c => packageByte c = true)
                     (list_ascii_of_string (strings.TrimSpace packageName))).
  { apply allBytes_Forall. unfold MatchString in Hmatch.
    destruct (strings.TrimSpace packageName); [discriminate | exact Hmatch]. }
  apply String.eqb_neq in Hblank.
  destruct (runCommand path _) as [err|] eqn:Hrun; simpl.
  - split; [right; right; eauto|].
    split; [|discriminate].
    intros name args Hin. destruct (Hout name args Hin) as [-> ->].
    rewrite Hrun. auto 10.
  - split; [right; right; eauto|].
    split; [|intros _; eexists _, _; right; left; reflexivity].
    intros name args Hin. destruct (Hout name args Hin) as [-> ->].
    rewrite Hrun. auto 10.
Qed.

End SkillPack.

Lemma skills_installed_from_checked_package_witness :
  In (install.Run "/usr/bin/npx" ["--yes"; "skills"; "add"; "rudrankriyam/asc-skills"])
     (snd (install.exec (fun _ => asc.Ok "/usr/bin/npx") (fun _ _ => None)
             " rudrankriyam/asc-skills "))
  /\ prefix "-" (strings.TrimSpace " rudrankriyam/asc-skills ") = false.
Proof.
  assert (Hin : In (install.Run "/usr/bin/npx"
                      ["--yes"; "skills"; "add"; "rudrankriyam/asc-skills"])
                   (snd (install.exec (fun _ => asc.Ok "/usr/bin/npx")
                           (fun _ _ => None) " rudrankriyam/asc-skills ")))
    by (vm_compute; auto).
  split; [exact Hin|].
  destruct (skills_installed_from_checked_package
              (fun _ => asc.Ok "/usr/bin/npx") (fun _ _ => None)
              " rudrankriyam/asc-skills ") as [_ [Hrun _]].
  destruct (Hrun _ _ Hin) as [_ [_ [_ [Hhyphen _]]]].
  exact Hhyphen.
Defined.


(** ** Writing a profile file over an existing one *)

Ltac io_step :=
  match goal with
  | |- context [match ?x with _ => _ end] =>
      lazymatch x with
      | context [match _ with _ => _ end] => fail
      | _ => let E := fresh "E" in destruct x eqn:E
      end
  end.

Ltac io_run :=
  unfold profiles.writeFileBytesNoSymlink, profiles.writeTemp,
    profiles.replaceExisting, profiles.check, profiles.bind, profiles.perform,
    profiles.ret;
  repeat (cbn [app fst snd negb]; try io_step).

Section WriteFileProperties.
Import profiles.
Variable sys : System.
Variable Dir : string -> string.
Variable IsNotExist : asc.error -> bool.
Variable Quote : string -> string.

(** X15. A symbolic link or a directory at the output path is left alone:
    the function returns an error, and has done nothing but make the
    parent directories and look at the path; no temporary file is created,
    and nothing is renamed or removed. *)
Theorem symlink_or_directory_is_left_alone path content perm info :
  lstat sys [MkdirAll (Dir path) 493] path = asc.Ok info ->
  isSymlink info = true \/ isDir info = true ->
  let out := writeFileBytesNoSymlink sys Dir IsNotExist Quote path content perm [] in
  fst out <> None
  /\ forall o, In o (snd out) -> o = MkdirAll (Dir path) 493 \/ o = Lstat path.
Proof.
  intros Hinfo Hkind out. unfold out. clear out.
  unfold writeFileBytesNoSymlink, check, bind, perform, ret.
  cbn [app fst snd].
  destruct (mkdirAll sys [] (Dir path) 493) as [err|].
  - cbn. split; [discriminate | intros o; simpl; intuition auto].
  - cbn [app fst snd]. rewrite Hinfo.
    destruct (isSymlink info) eqn:Hsym.
    + cbn. split; [discriminate | intros o; simpl; intuition auto].
    + destruct Hkind as [Hkind|Hkind]; [discriminate|]. rewrite Hkind.
      cbn. split; [discriminate | intros o; simpl; intuition auto].
Qed.

(** X16. The content goes to the temporary file and nowhere else.  A run
    that returns an error after the temporary file was made asks for its
    removal.  A run that returns no error has written the content to the
    temporary file and synced it, and then renamed it to the output path:
    that rename succeeded and is the last rename of the run. *)
Theorem temporary_file_is_renamed_or_removed path content perm tempPath :
  createTemp sys [MkdirAll (Dir path) 493; Lstat path] (Dir path) ".asc-profile-*"
  = asc.Ok tempPath ->
  let out := writeFileBytesNoSymlink sys Dir IsNotExist Quote path content perm [] in
  (forall name written,
      In (Copy name written) (snd out) -> name = tempPath /\ written = content)
  /\ (In (CreateTemp (Dir path) ".asc-profile-*") (snd out) ->
      fst out <> None ->
      In (Remove tempPath) (snd out))
  /\ (fst out = None ->
      exists before after,
        snd out = before ++ Rename tempPath path :: after
        /\ rename sys before tempPath path = None
        /\ In (Copy tempPath content) before
        /\ In (Sync tempPath) before
        /\ forall oldpath newpath, ~ In (Rename oldpath newpath) after).
Proof.
  intros Htemp out. unfold out. clear out.
  unfold writeFileBytesNoSymlink, check, bind, perform, ret.
  cbn [app fst snd].
  destruct (mkdirAll sys [] (Dir path) 493) as [err|];
    [cbn; repeat split; try discriminate; intros; intuition discriminate|].
  cbn [app fst snd].
  destruct (lstat sys [MkdirAll (Dir path) 493] path) as [info|err];
    [ destruct (isSymlink info);
      [cbn; repeat split; try discriminate; intros; intuition discriminate|];
      destruct (isDir info);
      [cbn; repeat split; try discriminate; intros; intuition discriminate|]
    | destruct (negb (IsNotExist err));
      [cbn; repeat split; try discriminate; intros; intuition discriminate|] ];
    rewrite Htemp; cbv zeta;
    unfold writeTemp, replaceExisting, check, bind, perform, ret;
    repeat (cbn [app fst snd negb]; try io_step);
    (split; [|split]);
    try (intros name written Hin; cbn in Hin;
         repeat (destruct Hin as [Hin|Hin];
                 [try discriminate; inversion Hin; auto|]);
         now destruct Hin);
    try (intros _ _; cbn; tauto);
    try (intros _ Hnone; cbn in Hnone; congruence);
    try discriminate;
    intros _;
    match goal with
    | H : rename sys ?h tempPath path = None |- _ =>
        exists h; eexists; split; [cbn; reflexivity|];
        split; [exact H|]; split; [cbn; tauto|]; split; [cbn; tauto|];
        intros oldpath newpath Hin; cbn in Hin; intuition discriminate
    end.
Qed.

End WriteFileProperties.


Lemma symlink_or_directory_is_left_alone_witness :
  fst (profiles.writeFileBytesNoSymlink
         (samples.fileSystem (asc.Ok (profiles.mkFileInfo true false)))
         samples.profileDir samples.isNotExist samples.quote
         samples.profilePath "profile" 420 [])
  <> None.
Proof.
  exact (proj1 (symlink_or_directory_is_left_alone
                  (samples.fileSystem (asc.Ok (profiles.mkFileInfo true false)))
                  samples.profileDir samples.isNotExist samples.quote
                  samples.profilePath "profile" 420
                  (profiles.mkFileInfo true false) eq_refl (or_introl eq_refl))).
Defined.

Lemma temporary_file_is_renamed_or_removed_witness :
  exists before after,
    snd (profiles.writeFileBytesNoSymlink
           (samples.fileSystem (asc.Err samples.notExist))
           samples.profileDir samples.isNotExist samples.quote
           samples.profilePath "profile" 420 [])
    = before
        ++ profiles.Rename "profiles/.asc-profile-1" samples.profilePath :: after
    /\ profiles.rename (samples.fileSystem (asc.Err samples.notExist)) before
         "profiles/.asc-profile-1" samples.profilePath
       = None
    /\ In (profiles.Copy "profiles/.asc-profile-1" "profile") before
    /\ In (profiles.Sync "profiles/.asc-profile-1") before
    /\ forall oldpath newpath, ~ In (profiles.Rename oldpath newpath) after.
Proof.
  exact (proj2 (proj2 (temporary_file_is_renamed_or_removed
                         (samples.fileSystem (asc.Err samples.notExist))
                         samples.profileDir samples.isNotExist samples.quote
                         samples.profilePath "profile" 420
                         "profiles/.asc-profile-1" eq_refl))
           eq_refl).
Defined.


(** ** The requests of the page loops *)

Section PageRequests.
Import asc validate.
Context {Item Out : Type}.
Variable get : list call -> pageOption -> result (Response (list Item)).
Variable mkCall : pageOption -> call.
Variable conv : list Item -> list Out.
Variable failure : string.

Lemma optionFor_wellFormed n :
  strings.TrimSpace n = n -> wellFormed (optionFor n).
Proof.
  intros Hn. unfold optionFor. rewrite Hn.
  destruct (n =? "") eqn:E; simpl; [reflexivity|].
  apply String.eqb_neq in E. auto.
Qed.

(** A loop entered with a trimmed link makes one request at least, the
    first for the link it was entered with, and well-formed requests only;
    what it returns is the list it was entered with, followed by
    conversions of pages. *)
Lemma pageLoop_requests fuel : forall n acc h r hf,
  strings.TrimSpace n = n ->
  pageLoop get mkCall conv failure fuel n acc h = Some (r, hf) ->
  exists cs,
    hf = h ++ mkCall (optionFor n) :: cs
    /\ Forall (fun c => exists opt, c = mkCall opt /\ wellFormed opt)
         (mkCall (optionFor n) :: cs)
    /\ forall l, r = Ok l ->
         exists pages, l = acc ++ flat_map (fun page => conv (Data page)) pages.
Proof.
  induction fuel as [|fuel IH]; intros n acc h r hf Hn H; [discriminate|].
  simpl in H.
  assert (Hfirst : exists opt, mkCall (optionFor n) = mkCall opt /\ wellFormed opt)
    by (eexists; split; [reflexivity | now apply optionFor_wellFormed]).
  destruct (get h (optionFor n)) as [resp|err].
  - destruct (strings.TrimSpace (Next (Links_ resp)) =? "") eqn:Hend.
    + inversion H; subst. exists []. split; [reflexivity|].
      split; [now constructor|].
      intros l Hl. inversion Hl; subst. exists [resp]. simpl.
      now rewrite app_nil_r.
    + apply IH in H; [|apply TrimSpace_idempotent].
      destruct H as [cs [Hhf [Hall Hout]]].
      exists (mkCall (optionFor (strings.TrimSpace (Next (Links_ resp)))) :: cs).
      split; [rewrite Hhf, <- app_assoc; reflexivity|].
      split; [now constructor|].
      intros l Hl. destruct (Hout l Hl) as [pages Hpages].
      exists (resp :: pages). rewrite Hpages. simpl. now rewrite <- app_assoc.
  - inversion H; subst. exists []. split; [reflexivity|].
    split; [now constructor|]. discriminate.
Qed.

End PageRequests.

Section SubscriptionRequests.
Import asc validate.

Lemma fetchAllSubscriptions_requests fuel client : forall groupIDs subs h r hf,
  Forall (fun g => strings.TrimSpace g <> "") groupIDs ->
  Forall (fun s => strings.TrimSpace (Subscription.GroupID s) <> "") subs ->
  fetchAllSubscriptions fuel client groupIDs subs h = Some (r, hf) ->
  exists cs,
    hf = h ++ cs
    /\ Forall (fun c => exists g opt,
                   c = CallGetSubscriptions g opt /\ In g groupIDs
                   /\ strings.TrimSpace g <> "" /\ wellFormed opt) cs
    /\ forall l, r = Ok l ->
         Forall (fun s => strings.TrimSpace (Subscription.GroupID s) <> "") l.
Proof.
  induction groupIDs as [|g gs IH]; intros subs h r hf Hgs Hsubs H; simpl in H.
  - inversion H; subst. exists []. rewrite app_nil_r.
    split; [reflexivity|]. split; [constructor|].
    intros l Hl. now inversion Hl; subst.
  - inversion Hgs as [|? ? Hg Hgs']; subst.
    rewrite fetchSubscriptions_pageLoop in H.
    destruct (pageLoop _ _ _ _ fuel "" subs h) as [[r1 h1]|] eqn:Hloop;
      [|discriminate].
    apply pageLoop_requests in Hloop; [|reflexivity].
    destruct Hloop as [cs1 [Hh1 [Hall1 Hout1]]].
    assert (Hall1' : Forall (fun c => exists g0 opt,
                                 c = CallGetSubscriptions g0 opt /\ In g0 (g :: gs)
                                 /\ strings.TrimSpace g0 <> "" /\ wellFormed opt)
                       (CallGetSubscriptions g (optionFor "") :: cs1)).
    { eapply Forall_impl; [|exact Hall1]. intros c [opt [-> Hopt]].
      exists g, opt. repeat split; auto. now left. }
    destruct r1 as [subs1|err].
    + destruct (Hout1 subs1 eq_refl) as [pages Hpages].
      apply IH in H; [|assumption|].
      * destruct H as [cs2 [Hhf [Hall2 Hout2]]].
        exists ((CallGetSubscriptions g (optionFor "") :: cs1) ++ cs2).
        split; [rewrite Hhf, Hh1, <- app_assoc; reflexivity|].
        split; [|exact Hout2].
        apply Forall_app. split; [exact Hall1'|].
        eapply Forall_impl; [|exact Hall2].
        intros c [g0 [opt [-> [Hin [Hg0 Hopt]]]]].
        exists g0, opt. repeat split; auto. now right.
      * rewrite Hpages. apply Forall_app. split; [assumption|].
        apply Forall_forall. intros s Hs. apply in_flat_map in Hs.
        destruct Hs as [page [_ Hs]]. apply in_map_iff in Hs.
        destruct Hs as [sub [<- _]]. exact Hg.
    + injection H as <- <-. eexists. split; [exact Hh1|].
      split; [exact Hall1' | discriminate].
Qed.

(** X17. The requests of [asc validate subscriptions], whatever the server
    answers: first the subscription groups of the app are asked for, page
    after page, then the subscriptions of groups; the first request of all
    is for the groups with the page size 200, every request is for the
    first page with that page size or for a link that is not blank and has
    no white space around it, no subscriptions are asked for of a group
    with a blank identifier, and no subscription that is handed on to the
    validation is of such a group. *)
Theorem subscription_requests_shape fuel client opts r log :
  runValidateSubscriptions fuel (Ok client) opts = Some (r, log) ->
  exists groupCalls subCalls,
    log = CallGetSubscriptionGroups (subAppID opts) (WithLimit 200) :: groupCalls
            ++ subCalls
    /\ Forall (fun c => exists opt,
                   c = CallGetSubscriptionGroups (subAppID opts) opt
                   /\ wellFormed opt) groupCalls
    /\ Forall (fun c => exists g opt,
                   c = CallGetSubscriptions g opt
                   /\ strings.TrimSpace g <> "" /\ wellFormed opt) subCalls
    /\ forall input, r = Ok input ->
         SubscriptionsInput_AppID input = subAppID opts
         /\ Forall (fun s => strings.TrimSpace (Subscription.GroupID s) <> "")
              (Subscriptions input).
Proof.
  unfold runValidateSubscriptions. rewrite fetchGroupIDs_pageLoop.
  destruct (pageLoop _ _ _ _ fuel "" [] []) as [[r1 h1]|] eqn:Hloop;
    [|discriminate].
  apply pageLoop_requests in Hloop; [|reflexivity].
  destruct Hloop as [groupCalls [Hh1 [Hall1 Hout1]]].
  simpl in Hh1. inversion Hall1 as [|? ? _ Hall1']; subst.
  destruct r1 as [groupIDs|err].
  - destruct (Hout1 groupIDs eq_refl) as [pages Hpages]. simpl in Hpages.
    assert (Hgroups : Forall (fun g => strings.TrimSpace g <> "") groupIDs).
    { rewrite Hpages. apply Forall_forall. intros g Hg.
      apply in_flat_map in Hg. destruct Hg as [page [_ Hg]].
      unfold keptGroupIDs in Hg. apply in_map_iff in Hg.
      destruct Hg as [group [<- Hgroup]]. apply filter_In in Hgroup.
      destruct Hgroup as [_ Hkept]. apply negb_true_iff in Hkept.
      now apply String.eqb_neq in Hkept. }
    destruct (fetchAllSubscriptions fuel client groupIDs [] _)
      as [[r2 h2]|] eqn:Hsubs; [|discriminate].
    apply fetchAllSubscriptions_requests in Hsubs; [|assumption|constructor].
    destruct Hsubs as [subCalls [Hh2 [Hall2 Hout2]]].
    assert (Hall2' : Forall (fun c => exists g opt,
                                 c = CallGetSubscriptions g opt
                                 /\ strings.TrimSpace g <> "" /\ wellFormed opt)
                       subCalls).
    { eapply Forall_impl; [|exact Hall2].
      intros c [g [opt [-> [_ [Hg Hopt]]]]]. eauto. }
    intros H. exists groupCalls, subCalls.
    destruct r2 as [subs|err]; inversion H; subst;
      (split; [reflexivity|]); (split; [assumption|]); (split; [assumption|]).
    + intros input Hinput. inversion Hinput; subst. simpl.
      split; [reflexivity | now apply Hout2].
    + discriminate.
  - intros H. inversion H; subst. exists groupCalls, [].
    rewrite app_nil_r. split; [reflexivity|]. split; [assumption|].
    split; [constructor | discriminate].
Qed.

End SubscriptionRequests.


Lemma subscription_requests_shape_witness :
  match validate.runValidateSubscriptions 3 (asc.Ok (samples.subsClient ""))
          samples.subsOptions
  with
  | Some (r, log) =>
      exists groupCalls subCalls,
        log = validate.CallGetSubscriptionGroups "app-1" (validate.WithLimit 200)
                :: groupCalls ++ subCalls
        /\ Forall (fun c => exists opt,
                       c = validate.CallGetSubscriptionGroups "app-1" opt
                       /\ wellFormed opt) groupCalls
        /\ Forall (fun c => exists g opt,
                       c = validate.CallGetSubscriptions g opt
                       /\ strings.TrimSpace g <> "" /\ wellFormed opt) subCalls
        /\ forall input, r = asc.Ok input ->
             validate.SubscriptionsInput_AppID input = "app-1"
             /\ Forall (fun s => strings.TrimSpace (validate.Subscription.GroupID s)
                                 <> "")
                  (validate.Subscriptions input)
  | None => False
  end.
Proof.
  destruct (validate.runValidateSubscriptions 3 (asc.Ok (samples.subsClient ""))
              samples.subsOptions) as [[r log]|] eqn:E;
    [|vm_compute in E; discriminate].
  exact (subscription_requests_shape _ _ _ _ _ E).
Defined.


(** ** The exit status of [asc submit validate] *)

Section SubmitValidateExec.
Import submit submitCommand.
Context {ext : Externals}.
Variable UsageError : string -> asc.error.
Variable ResolveAppID : string -> string.
Variable NormalizeAppStoreVersionPlatform : string -> asc.result string.
Variable GetASCClient : asc.result Client.
Variable ResolveAppStoreVersionID :
  Client -> string -> string -> string -> asc.result string.
Variable PrintOutputWithRenderers :
  SubmitValidateResult -> string -> bool -> option asc.error.
Variable NewReportedError : asc.error -> asc.error.

Local Abbreviation Exec :=
  (Exec UsageError ResolveAppID NormalizeAppStoreVersionPlatform GetASCClient
     ResolveAppStoreVersionID PrintOutputWithRenderers NewReportedError).

(** X18. [asc submit validate] validates only after its flags have passed:
    a result is printed only for a resolved, non-empty app, a normalized
    platform and exactly one of [--version] and [--version-id], the latter
    used trimmed as it is; without a printed result no validation request
    was made and an error is returned.  The command returns no error only
    for a printed result without errors, which is a ready result with
    warnings only as long as the issues are fewer than 2^63; and a ready
    result that was printed without error makes it return none. *)
Theorem command_succeeds_only_when_ready f :
  let e := Exec f in
  (forall result,
      printed e = Some result ->
      stderr e = []
      /\ AppID result = ResolveAppID (app f) /\ AppID result <> ""
      /\ NormalizeAppStoreVersionPlatform (platform f) = asc.Ok (Platform result)
      /\ (strings.TrimSpace (versionID f) = "" <-> strings.TrimSpace (version f) <> "")
      /\ (strings.TrimSpace (versionID f) <> "" ->
          VersionID result = strings.TrimSpace (versionID f)))
  /\ (printed e = None -> requests e = [] /\ returned e <> None)
  /\ (returned e = None ->
      exists result,
        printed e = Some result
        /\ (ErrorCount result <= 0)%Z
        /\ ((Z.of_nat (List.length (Issues result)) < 2 ^ 63)%Z ->
            Ready result = true
            /\ Forall (fun issue => Severity issue = "warning") (Issues result)))
  /\ (forall result,
        printed e = Some result ->
        Ready result = true ->
        PrintOutputWithRenderers result (output f) (pretty f) = None ->
        returned e = None).
Proof.
  cbv zeta. unfold submitCommand.Exec.
  destruct (strings.TrimSpace (version f) =? "") eqn:Hv;
    destruct (strings.TrimSpace (versionID f) =? "") eqn:Hid; simpl andb;
    cbv beta iota zeta;
    try (simpl; repeat split; intros; try discriminate; fail);
    (destruct (ResolveAppID (app f) =? "") eqn:Happ;
     [simpl; repeat split; intros; discriminate|]);
    (destruct (NormalizeAppStoreVersionPlatform (platform f))
       as [normalizedPlatform|err];
     [|simpl; repeat split; intros; discriminate]);
    (destruct GetASCClient as [client|err];
     [|simpl; repeat split; intros; discriminate]);
    match goal with
    | |- context [runValidation client _ ?v normalizedPlatform] =>
        assert (Hresolved : asc.Ok v = asc.Ok v) by reflexivity
    | |- context [match ?resolved with asc.Ok _ => _ | asc.Err _ => _ end] =>
        destruct resolved as [v|err] eqn:Hresolved;
        [|simpl; repeat split; intros; discriminate]
    end;
    match goal with
    | |- context [runValidation client _ ?v normalizedPlatform] =>
        pose proof (runValidation_tidy client (ResolveAppID (app f))
                      v normalizedPlatform) as Htidy;
        pose proof (runValidation_counted client (ResolveAppID (app f))
                      v normalizedPlatform) as Hcount;
        pose proof (runValidation_ready client (ResolveAppID (app f))
                      v normalizedPlatform) as Hready;
        cbv zeta in Htidy, Hcount, Hready;
        destruct (runValidation client (ResolveAppID (app f)) v
                    normalizedPlatform) as [result calls]
    end;
    simpl fst in Htidy, Hcount, Hready;
    destruct Htidy as [HA [HV [HP HF]]]; destruct Hcount as [He _];
    apply String.eqb_neq in Happ;
    first [apply String.eqb_eq in Hv | apply String.eqb_neq in Hv];
    first [apply String.eqb_eq in Hid | apply String.eqb_neq in Hid];
    (assert (Hfacts :
               AppID result = ResolveAppID (app f) /\ AppID result <> ""
               /\ asc.Ok normalizedPlatform = asc.Ok (Platform result)
               /\ (strings.TrimSpace (versionID f) = ""
                   <-> strings.TrimSpace (version f) <> "")
               /\ (strings.TrimSpace (versionID f) <> "" ->
                   VersionID result = strings.TrimSpace (versionID f)))
       by (repeat split; try congruence; try tauto));
    (assert (Hclean :
               (ErrorCount result >? 0)%Z = false ->
               (ErrorCount result <= 0)%Z
               /\ ((Z.of_nat (List.length (Issues result)) < 2 ^ 63)%Z ->
                   Ready result = true
                   /\ Forall (fun issue => Severity issue = "warning")
                        (Issues result)))
       by (intros Hpos; rewrite Z.gtb_ltb in Hpos; apply Z.ltb_ge in Hpos;
           split; [exact Hpos|]; intros Hlen;
           pose proof (graded_counts _ HF) as Hsum;
           rewrite wrapInt_small in He by lia;
           assert (Hzero : ErrorCount result = 0%Z) by lia;
           split;
           [ rewrite Hready; now apply Z.eqb_eq
           | apply (no_error_all_warnings _ HF); lia ]));
    (assert (Hpass : Ready result = true -> (ErrorCount result >? 0)%Z = false)
       by (intros Hr; rewrite Hready in Hr; apply Z.eqb_eq in Hr;
           rewrite Hr; reflexivity));
    (destruct (PrintOutputWithRenderers result (output f) (pretty f)) eqn:Hprint;
     [|destruct (ErrorCount result >? 0)%Z eqn:Hpos]); simpl;
    (split; [intros r Hr; inversion Hr; subst r; split; [reflexivity | exact Hfacts]|]);
    (split; [discriminate|]);
    (split;
     [ first [ discriminate
             | intros _; exists result; split; [reflexivity | now apply Hclean] ]
     | intros r Hr Hrd Hpr; inversion Hr; subst r;
       first [ congruence | discriminate (Hpass Hrd) ] ]).
Qed.

End SubmitValidateExec.


Lemma command_succeeds_only_when_ready_witness :
  exists result,
    submitCommand.printed
      (submitCommand.Exec (ext := samples.externals)
         (fun message => asc.mkError message false) (fun app => app)
         (fun platform => asc.Ok platform) (asc.Ok samples.allChecksPass)
         (fun _ _ _ _ => samples.unexpected) (fun _ _ _ => None) (fun err => err)
         (submitCommand.mkFlags "app-1" "" " ver-1 " "IOS" "json" false))
    = Some result
    /\ (submit.ErrorCount result <= 0)%Z.
Proof.
  destruct (command_succeeds_only_when_ready (ext := samples.externals)
              (fun message => asc.mkError message false) (fun app => app)
              (fun platform => asc.Ok platform) (asc.Ok samples.allChecksPass)
              (fun _ _ _ _ => samples.unexpected) (fun _ _ _ => None) (fun err => err)
              (submitCommand.mkFlags "app-1" "" " ver-1 " "IOS" "json" false))
    as [_ [_ [Hnone _]]].
  destruct Hnone as [result [Hprinted [Herrors _]]]; [vm_compute; reflexivity|].
  exists result. split; assumption.
Defined.

(** ** The screenshot check *)

Lemma forEach_one_request_each {A} (body : A -> submit.Run unit)
    (c : A -> submit.call) (P : submit.SubmitValidateIssue -> Prop) :
  (forall x st,
      submit.calls (snd (body x st)) = submit.calls st ++ [c x]
      /\ submit.ErrorCount (submit.result_ (snd (body x st)))
         = submit.ErrorCount (submit.result_ st)
      /\ exists issues,
           submit.Issues (submit.result_ (snd (body x st)))
           = submit.Issues (submit.result_ st) ++ issues
           /\ (List.length issues <= 1)%nat /\ Forall P issues) ->
  forall l st,
    submit.calls (snd (submit.forEach l body st)) = submit.calls st ++ map c l
    /\ submit.ErrorCount (submit.result_ (snd (submit.forEach l body st)))
       = submit.ErrorCount (submit.result_ st)
    /\ exists issues,
         submit.Issues (submit.result_ (snd (submit.forEach l body st)))
         = submit.Issues (submit.result_ st) ++ issues
         /\ (List.length issues <= List.length l)%nat /\ Forall P issues.
Proof.
  intros Hbody. induction l as [|x l IH]; intros st; simpl.
  - rewrite app_nil_r. repeat split. exists []. rewrite app_nil_r.
    repeat split; [simpl; lia | constructor].
  - rewrite bind_snd.
    destruct (Hbody x st) as [Hc [He [i1 [Hi [Hl HP]]]]].
    destruct (IH (snd (body x st))) as [Hc' [He' [i2 [Hi' [Hl' HP']]]]].
    split; [rewrite Hc', Hc, <- app_assoc; reflexivity|].
    split; [congruence|].
    exists (i1 ++ i2). split; [rewrite Hi', Hi, app_assoc; reflexivity|].
    split; [rewrite length_app; lia | now apply Forall_app].
Qed.

(** X19. The screenshot check of one localization asks for its screenshot
    sets and then for the screenshots of every set received, once each and
    in their order.  It adds an error only when no set was received at all;
    for sets received it adds warnings of the check [screenshots] only, one
    per set at most, and leaves the error count as it was. *)
Theorem screenshots_checked_set_by_set client localizationID locale st :
  let st' := snd (submit.checkScreenshots client localizationID locale st) in
  match submit.GetAppScreenshotSets client (submit.calls st) localizationID with
  | asc.Err err =>
      st' = submit.mkState
              (warningAdded (submit.result_ st) "screenshots"
                 ("locale " ++ locale ++ ": unable to check screenshots: "
                    ++ asc.Error err))
              (submit.calls st ++ [submit.CallGetAppScreenshotSets localizationID])
  | asc.Ok sets =>
      submit.calls st'
      = submit.calls st
          ++ submit.CallGetAppScreenshotSets localizationID
             :: map (fun set => submit.CallGetAppScreenshots (asc.ID set))
                  (asc.Data sets)
      /\ match asc.Data sets with
         | [] =>
             submit.result_ st'
             = errorAdded (submit.result_ st) "screenshots"
                 ("locale " ++ locale ++ ": no screenshot sets found")
         | _ :: _ =>
             submit.ErrorCount (submit.result_ st')
             = submit.ErrorCount (submit.result_ st)
             /\ exists warnings,
                  submit.Issues (submit.result_ st')
                  = submit.Issues (submit.result_ st) ++ warnings
                  /\ (List.length warnings <= List.length (asc.Data sets))%nat
                  /\ Forall (fun issue =>
                               submit.Check issue = "screenshots"
                               /\ submit.Severity issue = "warning")
                       warnings
         end
  end.
Proof.
  cbv zeta. unfold submit.checkScreenshots.
  rewrite bind_snd. unfold submit.request at 1 2. simpl fst. simpl snd.
  destruct (submit.GetAppScreenshotSets client (submit.calls st) localizationID)
    as [sets|err]; [|reflexivity].
  destruct (asc.Data sets) as [|first rest] eqn:Hdata; [split; reflexivity|].
  rewrite <- Hdata. clear Hdata.
  match goal with
  | |- context [submit.forEach _ ?body ?s] =>
      destruct (forEach_one_request_each body
                  (fun set => submit.CallGetAppScreenshots (asc.ID set))
                  (fun issue => submit.Check issue = "screenshots"
                                /\ submit.Severity issue = "warning"))
        with (l := asc.Data sets) (st := s) as [Hc [He Hi]]
  end.
  { intros set s. cbv beta. rewrite !bind_snd. unfold submit.request.
    simpl fst. simpl snd.
    destruct (submit.GetAppScreenshots client (submit.calls s) (asc.ID set))
      as [screenshots|err].
    - destruct (asc.Data screenshots); simpl; repeat split.
      + eexists. split; [reflexivity|]. split; [simpl; lia|].
        repeat constructor.
      + exists []. rewrite app_nil_r. repeat split; [simpl; lia | constructor].
    - simpl. repeat split. eexists. split; [reflexivity|].
      split; [simpl; lia|]. repeat constructor. }
  simpl in Hc, He, Hi. rewrite Hc, <- app_assoc. split; [reflexivity|].
  split; assumption.
Qed.


(** ** The TestFlight section *)

Section TestFlightSection.
Import status.
Context {ext : Externals}.

Lemma bind_ok {A B} (m : Fill A) (k : A -> Fill B) resp resp' b :
  bind m k resp = (resp', asc.Ok b) ->
  exists a resp1, m resp = (resp1, asc.Ok a) /\ k a resp1 = (resp', asc.Ok b).
Proof.
  unfold bind. destruct (m resp) as [resp1 [a|err]]; [eauto | discriminate].
Qed.

Lemma try_ok {A} (r : asc.result A) resp resp' a :
  try r resp = (resp', asc.Ok a) -> r = asc.Ok a /\ resp' = resp.
Proof.
  destruct r as [a'|err]; simpl; unfold ret, fail; intros H; inversion H; auto.
Qed.

(** X20. The TestFlight section, when the app has builds and the task
    succeeds: the beta details and the beta review submissions of these
    builds were received; the latest distributed build is the first build,
    in the order of the answer (latest upload first), whose external state
    is in beta testing or ready for testing, shown with that state in upper
    case, and none when no build is in such a state; the beta review state
    and date are those of the latest beta review submission. *)
Theorem testflight_shows_first_distributed_build
    client appID includes resp resp' buildsResp :
  fillBuildsAndTestFlight client appID includes resp = (resp', asc.Ok tt) ->
  testflight includes = true ->
  GetBuilds client appID "-uploadedDate" 50 = asc.Ok buildsResp ->
  asc.Data buildsResp <> [] ->
  exists section betaDetails states reviewSubmissions,
    TestFlight resp' = Some section
    /\ GetBuildBetaDetails client (map (@asc.ID _) (asc.Data buildsResp)) 200
       = asc.Ok betaDetails
    /\ externalStates (asc.Data betaDetails) (fun _ => "") = asc.Ok states
    /\ GetBetaAppReviewSubmissions client (map (@asc.ID _) (asc.Data buildsResp)) 200
       = asc.Ok reviewSubmissions
    /\ (forall before build after,
          asc.Data buildsResp = before ++ build :: after ->
          isDistributedState
            (ToUpper (strings.TrimSpace (states (asc.ID build)))) = true ->
          (forall earlier, In earlier before ->
             isDistributedState
               (ToUpper (strings.TrimSpace (states (asc.ID earlier)))) = false) ->
          testFlightSection.LatestDistributedBuildID section = asc.ID build
          /\ testFlightSection.ExternalBuildState section
             = ToUpper (strings.TrimSpace (states (asc.ID build))))
    /\ ((forall build, In build (asc.Data buildsResp) ->
           isDistributedState
             (ToUpper (strings.TrimSpace (states (asc.ID build)))) = false) ->
        testFlightSection.LatestDistributedBuildID section = ""
        /\ testFlightSection.ExternalBuildState section = "")
    /\ match selectLatestBetaReviewSubmission (asc.Data reviewSubmissions) with
       | Some latest =>
           testFlightSection.BetaReviewState section
           = asc.BetaAppReviewSubmissionAttributes.BetaReviewState
               (asc.Attributes latest)
           /\ testFlightSection.SubmittedDate section = betaSubmittedDate latest
       | None =>
           testFlightSection.BetaReviewState section = ""
           /\ testFlightSection.SubmittedDate section = ""
       end.
Proof.
  intros H Htf Hget Hdata. unfold fillBuildsAndTestFlight in H.
  rewrite Hget, Htf in H.
  apply bind_ok in H. destruct H as [b [resp0 [Hb H]]].
  apply try_ok in Hb. destruct Hb as [Hb ->]. inversion Hb; subst b. clear Hb.
  cbv zeta in H.
  apply bind_ok in H. destruct H as [u [resp1 [_ H]]].
  simpl negb in H. cbv iota in H.
  destruct (asc.Data buildsResp) as [|first rest] eqn:Hbuilds; [congruence|].
  rewrite <- Hbuilds in *. clear Hbuilds Hdata.
  apply bind_ok in H. destruct H as [betaDetails [resp2 [Hbeta H]]].
  apply try_ok in Hbeta. destruct Hbeta as [Hbeta ->].
  apply bind_ok in H. destruct H as [states [resp3 [Hstates H]]].
  apply try_ok in Hstates. destruct Hstates as [Hstates ->].
  apply bind_ok in H. destruct H as [reviewSubmissions [resp4 [Hreview H]]].
  apply try_ok in Hreview. destruct Hreview as [Hreview ->].
  unfold assign in H. inversion H as [Hresp']. clear H.
  eexists _, betaDetails, states, reviewSubmissions.
  split; [reflexivity|]. split; [assumption|]. split; [assumption|].
  split; [assumption|]. simpl.
  set (distributed := fun build : asc.Resource asc.BuildAttributes.t =>
         isDistributedState (ToUpper (strings.TrimSpace (states (asc.ID build))))).
  split; [|split].
  - intros before build after Hsplit Hbuild Hbefore.
    assert (Hfind : find distributed (asc.Data buildsResp) = Some build).
    { rewrite Hsplit. clear Hsplit.
      induction before as [|x before IH]; simpl.
      - unfold distributed at 1. now rewrite Hbuild.
      - unfold distributed at 1. rewrite (Hbefore x (or_introl eq_refl)).
        apply IH. intros earlier Hin. apply Hbefore. now right. }
    rewrite Hfind. split; reflexivity.
  - intros Hnone.
    assert (Hfind : find distributed (asc.Data buildsResp) = None).
    { revert Hnone. generalize (asc.Data buildsResp).
      induction l as [|x l IH]; intros Hnone; simpl; [reflexivity|].
      unfold distributed at 1. rewrite (Hnone x (or_introl eq_refl)).
      apply IH. intros build Hin. apply Hnone. now right. }
    rewrite Hfind. split; reflexivity.
  - destruct (selectLatestBetaReviewSubmission (asc.Data reviewSubmissions));
      split; reflexivity.
Qed.

End TestFlightSection.


Lemma testflight_shows_first_distributed_build_witness :
  exists section,
    status.TestFlight
      (fst (status.fillBuildsAndTestFlight (ext := samples.externalsJSON)
              samples.twoBuilds "app-1" samples.allSections blank))
    = Some section
    /\ status.testFlightSection.LatestDistributedBuildID section = "build-1"
    /\ status.testFlightSection.ExternalBuildState section = "IN_BETA_TESTING".
Proof.
  destruct (status.fillBuildsAndTestFlight (ext := samples.externalsJSON)
              samples.twoBuilds "app-1" samples.allSections blank)
    as [resp' [[]|err]] eqn:E; [|vm_compute in E; discriminate].
  destruct (testflight_shows_first_distributed_build (ext := samples.externalsJSON)
              samples.twoBuilds "app-1" samples.allSections blank resp' _
              E eq_refl eq_refl)
    as [section [betaDetails [states [reviewSubmissions
         [Hsection [Hbeta [Hstates [_ [Hfirst _]]]]]]]]];
    [discriminate|].
  exists section. split; [exact Hsection|].
  vm_compute in Hbeta. inversion Hbeta; subst betaDetails. clear Hbeta.
  assert (Hstate : states "build-1" = "in_beta_testing"
                   /\ states "build-2" = "").
  { vm_compute in Hstates. inversion Hstates; subst states. split; reflexivity. }
  destruct Hstate as [Hone Htwo].
  destruct (Hfirst
              [asc.mkResource "build-2"
                 (asc.BuildAttributes.mk "43" "VALID" "2026-02-21T00:00:00Z")]
              (asc.mkResource "build-1"
                 (asc.BuildAttributes.mk "42" "VALID" "2026-02-20T00:00:00Z"))
              [])
    as [Hid Hext].
  - reflexivity.
  - simpl asc.ID. rewrite Hone. reflexivity.
  - intros earlier [<-|[]]. simpl asc.ID. rewrite Htwo. reflexivity.
  - split; [exact Hid|]. rewrite Hext. simpl asc.ID. rewrite Hone. reflexivity.
Defined.


Section PageLog.
Import asc validate.
Context {Item : Type}.
Variable get : list call -> pageOption -> result (Response (list Item)).
Variable mkCall : pageOption -> call.

(** The request for the page that a received page links to. *)
Local Abbreviation follow page :=
  (mkCall (WithNextURL (strings.TrimSpace (Next (Links_ page))))).

(** The requests of a loop that has fetched [pages] and asks for the next:
    the request it was entered with, then one request for each page
    fetched, by the trimmed link of that page, which is not blank. *)
Lemma Fetched_log n h pages n' h' :
  Fetched get mkCall n h pages n' h' ->
  h' ++ [mkCall (optionFor n')]
  = h ++ mkCall (optionFor n) :: map (fun page => follow page) pages
  /\ Forall (fun page => strings.TrimSpace (Next (Links_ page)) <> "") pages.
Proof.
  induction 1 as [n h|n h resp pages n' h' Hget Hnext _ [IHlog IHall]]; simpl.
  - split; [reflexivity | constructor].
  - split; [|now constructor].
    rewrite IHlog, <- app_assoc. simpl. repeat f_equal.
    unfold optionFor. rewrite TrimSpace_idempotent.
    apply String.eqb_neq in Hnext. now rewrite Hnext.
Qed.

End PageLog.

Section PurchaseRequests.
Import asc validate.

(** X21. The requests of [asc validate iap], whatever the server answers:
    without a client nothing is requested and the error is returned under
    the name of the command.  With a client the run is a traversal of the
    pages the server answers with: the first request asks for the in-app
    purchases of the app with the page size 200, and every later request
    is made by the trimmed link of the page received just before it,
    which is not blank; the run ends at the first failed request, with its
    error under the name of the traversal, or at the first page whose link
    is blank, and then hands on the app and the purchases of exactly the
    pages received, page after page. *)
Theorem iap_requests_shape fuel clientFactory opts r log :
  runValidateIAP fuel clientFactory opts = Some (r, log) ->
  match clientFactory with
  | Err err => r = Err (wrap "validate iap" err) /\ log = []
  | Ok client =>
      exists pages next history,
        Fetched (fun h opt => GetInAppPurchasesV2 client h (iapAppID opts) opt)
          (CallGetInAppPurchasesV2 (iapAppID opts)) "" [] pages next history
        /\ log = history ++ [CallGetInAppPurchasesV2 (iapAppID opts) (optionFor next)]
        /\ log
           = CallGetInAppPurchasesV2 (iapAppID opts) (WithLimit 200)
             :: map (fun page =>
                       CallGetInAppPurchasesV2 (iapAppID opts)
                         (WithNextURL (strings.TrimSpace (Next (Links_ page)))))
                  pages
        /\ Forall (fun page => strings.TrimSpace (Next (Links_ page)) <> "") pages
        /\ match r with
           | Ok input =>
               exists last,
                 GetInAppPurchasesV2 client history (iapAppID opts) (optionFor next)
                 = Ok last
                 /\ strings.TrimSpace (Next (Links_ last)) = ""
                 /\ input
                    = mkIAPInput (iapAppID opts)
                        (flat_map (fun page => map toIAP (Data page))
                           (pages ++ [last]))
           | Err e =>
               exists err,
                 GetInAppPurchasesV2 client history (iapAppID opts) (optionFor next)
                 = Err err
                 /\ e = wrap "validate iap: failed to fetch in-app purchases" err
           end
  end.
Proof.
  unfold runValidateIAP. destruct clientFactory as [client|err].
  2:{ intros H. inversion H. split; reflexivity. }
  rewrite fetchInAppPurchases_pageLoop.
  destruct (pageLoop _ _ _ _ fuel "" [] []) as [[r1 h1]|] eqn:Hloop;
    [|discriminate].
  apply pageLoop_sound in Hloop.
  destruct Hloop as [pages [next [history [Hfetched [Hlog Hr]]]]].
  destruct (Fetched_log _ _ _ _ _ _ _ Hfetched) as [Hshape Hlinks].
  simpl in Hshape.
  intros H. exists pages, next, history.
  split; [exact Hfetched|].
  destruct r1 as [iaps|err]; inversion H; subst;
    (split; [reflexivity|]); (split; [exact Hshape|]); (split; [exact Hlinks|]).
  - destruct Hr as [last [Hlast [Hend Hiaps]]]. exists last.
    split; [exact Hlast|]. split; [exact Hend|]. simpl in Hiaps. now rewrite Hiaps.
  - exact Hr.
Qed.

End PurchaseRequests.

Lemma iap_requests_shape_witness :
  match validate.runValidateIAP 3 (asc.Ok samples.iapTwoPages) samples.iapOptions with
  | Some (r, log) =>
      exists pages next history,
        Fetched
          (fun h opt => validate.GetInAppPurchasesV2 samples.iapTwoPages h "app-1" opt)
          (validate.CallGetInAppPurchasesV2 "app-1") "" [] pages next history
        /\ log = history ++ [validate.CallGetInAppPurchasesV2 "app-1" (optionFor next)]
        /\ log
           = validate.CallGetInAppPurchasesV2 "app-1" (validate.WithLimit 200)
             :: map (fun page =>
                       validate.CallGetInAppPurchasesV2 "app-1"
                         (validate.WithNextURL
                            (strings.TrimSpace (asc.Next (asc.Links_ page)))))
                  pages
        /\ Forall (fun page => strings.TrimSpace (asc.Next (asc.Links_ page)) <> "")
             pages
        /\ match r with
           | asc.Ok input =>
               exists last,
                 validate.GetInAppPurchasesV2 samples.iapTwoPages history "app-1"
                   (optionFor next)
                 = asc.Ok last
                 /\ strings.TrimSpace (asc.Next (asc.Links_ last)) = ""
                 /\ input
                    = validate.mkIAPInput "app-1"
                        (flat_map (fun page => map validate.toIAP (asc.Data page))
                           (pages ++ [last]))
           | asc.Err e =>
               exists err,
                 validate.GetInAppPurchasesV2 samples.iapTwoPages history "app-1"
                   (optionFor next)
                 = asc.Err err
                 /\ e = asc.wrap "validate iap: failed to fetch in-app purchases" err
           end
  | None => False
  end.
Proof.
  destruct (validate.runValidateIAP 3 (asc.Ok samples.iapTwoPages) samples.iapOptions)
    as [[r log]|] eqn:E; [|vm_compute in E; discriminate].
  exact (iap_requests_shape _ _ _ _ _ E).
Defined.

(** ** The app info check *)

Section AppInfoCheck.
Import submit.

(** The issues of one app info localization. *)
Local Abbreviation issuesOf loc :=
  ((if strings.TrimSpace
         (asc.AppInfoLocalizationAttributes.Name (asc.Attributes loc)) =? ""
    then [mkIssue "name" "error"
            ("locale " ++ asc.AppInfoLocalizationAttributes.Locale (asc.Attributes loc)
               ++ ": app name is empty")]
    else [])
   ++ (if strings.TrimSpace
            (asc.AppInfoLocalizationAttributes.PrivacyPolicyURL (asc.Attributes loc))
          =? ""
       then [mkIssue "privacy_policy_url" "warning"
               ("locale "
                  ++ asc.AppInfoLocalizationAttributes.Locale (asc.Attributes loc)
                  ++ ": privacy policy URL is empty")]
       else [])).

Lemma forEach_issues {A} (body : A -> Run unit)
    (issues : A -> list SubmitValidateIssue) :
  (forall x st,
      submit.calls (snd (body x st)) = submit.calls st
      /\ Issues (result_ (snd (body x st))) = Issues (result_ st) ++ issues x) ->
  forall l st,
    submit.calls (snd (forEach l body st)) = submit.calls st
    /\ Issues (result_ (snd (forEach l body st)))
       = Issues (result_ st) ++ flat_map issues l.
Proof.
  intros Hbody. induction l as [|x l IH]; intros st; simpl.
  - now rewrite app_nil_r.
  - rewrite bind_snd. destruct (Hbody x st) as [Hc Hi].
    destruct (IH (snd (body x st))) as [Hc' Hi'].
    split; [congruence|]. now rewrite Hi', Hi, app_assoc.
Qed.

(** X22. The app info check makes two requests at most: for the app info
    records of the app and, when there is one, for the localizations of the
    first record, with the page size 200; other records are not looked at.
    For the localizations received it adds, in their order, an error for
    each one with a blank name and a warning for each one with a blank
    privacy policy URL, and nothing else. *)
Theorem app_info_check_reads_first_record client appID st appInfoResp :
  GetAppInfos client (submit.calls st) appID = asc.Ok appInfoResp ->
  let st' := snd (checkAppInfoLocalizations client appID st) in
  match asc.Data appInfoResp with
  | [] =>
      submit.calls st' = submit.calls st ++ [CallGetAppInfos appID]
      /\ result_ st' = errorAdded (result_ st) "app_info" "no app info records found"
  | appInfo :: _ =>
      submit.calls st'
      = submit.calls st
          ++ [CallGetAppInfos appID; CallGetAppInfoLocalizations (asc.ID appInfo) 200]
      /\ forall locs,
           GetAppInfoLocalizations client
             (submit.calls st ++ [CallGetAppInfos appID]) (asc.ID appInfo) 200
           = asc.Ok locs ->
           asc.Data locs <> [] ->
           Issues (result_ st')
           = Issues (result_ st) ++ flat_map (fun loc => issuesOf loc) (asc.Data locs)
  end.
Proof.
  intros Hinfos. cbv zeta. unfold checkAppInfoLocalizations.
  rewrite bind_snd. unfold request at 1 2. simpl fst. simpl snd.
  rewrite Hinfos.
  destruct (asc.Data appInfoResp) as [|appInfo others]; [split; reflexivity|].
  cbv zeta. rewrite bind_snd. unfold request at 1 2. simpl fst. simpl snd.
  simpl submit.calls.
  destruct (GetAppInfoLocalizations client
              (submit.calls st ++ [CallGetAppInfos appID]) (asc.ID appInfo) 200)
    as [locs|err].
  2:{ simpl. rewrite <- app_assoc. split; [reflexivity | discriminate]. }
  destruct (asc.Data locs) as [|first rest] eqn:Hlocs.
  { simpl. rewrite <- app_assoc. split; [reflexivity|].
    intros ? H. inversion H; subst. congruence. }
  rewrite <- Hlocs. clear Hlocs.
  match goal with
  | |- context [forEach _ ?body ?s] =>
      destruct (forEach_issues body (fun loc => issuesOf loc))
        with (l := asc.Data locs) (st := s) as [Hc Hi]
  end.
  { intros loc s. cbv beta zeta. rewrite bind_snd.
    destruct (strings.TrimSpace
                (asc.AppInfoLocalizationAttributes.Name (asc.Attributes loc)) =? "");
      destruct (strings.TrimSpace
                  (asc.AppInfoLocalizationAttributes.PrivacyPolicyURL
                     (asc.Attributes loc)) =? "");
      simpl; rewrite ?app_nil_r, <- ?app_assoc; split; reflexivity. }
  split.
  - rewrite Hc. simpl. now rewrite <- app_assoc.
  - intros locs' H _. inversion H; subst. exact Hi.
Qed.

End AppInfoCheck.


Lemma app_info_check_reads_first_record_witness :
  submit.calls
    (snd (submit.checkAppInfoLocalizations
            (samples.missingBuildAndDescription samples.versionOK) "app-1"
            (submit.mkState (submit.mkResult "app-1" "ver-1" "IOS" [] 0 0 false) [])))
  = [submit.CallGetAppInfos "app-1";
     submit.CallGetAppInfoLocalizations "info-1" 200].
Proof.
  exact (proj1 (app_info_check_reads_first_record
                  (samples.missingBuildAndDescription samples.versionOK) "app-1"
                  (submit.mkState
                     (submit.mkResult "app-1" "ver-1" "IOS" [] 0 0 false) [])
                  _ eq_refl)).
Defined.

(** ** The printed result *)

Section PrintedResult.
Import submit submitCommand.
Variable RenderTable : list string -> list (list string) -> string.
Variable RenderMarkdown : list string -> list (list string) -> string.

(** X23. What the table and the Markdown renderers print of a result: the
    first line is the status line of a ready result exactly when the result
    is ready; the rows handed to the table printer are one row for each
    issue, in the order of the issues, or the single row
    [all, info, no issues found] when there is none, so that the table is
    never without rows; and every row has the three cells check, severity
    and message. *)
Theorem printed_result_lists_every_issue result :
  prefix ("Status: READY" ++ newline) (printValidateTable RenderTable result)
  = Ready result
  /\ prefix ("**Status:** READY" ++ newline)
       (printValidateMarkdown RenderMarkdown result)
     = Ready result
  /\ issueRows result <> []
  /\ Forall (fun row => List.length row = 3%nat) (issueRows result)
  /\ (Issues result = [] -> issueRows result = [["all"; "info"; "no issues found"]])
  /\ (Issues result <> [] ->
      issueRows result
      = map (fun issue => [Check issue; Severity issue; Message issue])
          (Issues result)).
Proof.
  split; [|split; [|split; [|split; [|split]]]].
  - unfold printValidateTable. destruct (Ready result); reflexivity.
  - unfold printValidateMarkdown. destruct (Ready result); reflexivity.
  - unfold issueRows. destruct (Issues result); simpl; discriminate.
  - unfold issueRows. destruct (Issues result) as [|issue issues]; simpl.
    + repeat constructor.
    + constructor; [reflexivity|]. apply Forall_forall. intros row Hrow.
      apply in_map_iff in Hrow. destruct Hrow as [i [<- _]]. reflexivity.
  - intros Hnone. unfold issueRows. rewrite Hnone. reflexivity.
  - unfold issueRows. destruct (Issues result); [congruence | reflexivity].
Qed.

End PrintedResult.


Lemma printed_result_lists_every_issue_witness :
  submitCommand.issueRows (submit.mkResult "app-1" "ver-1" "IOS" [] 0 0 true)
  = [["all"; "info"; "no issues found"]].
Proof.
  destruct (printed_result_lists_every_issue (fun _ _ => "") (fun _ _ => "")
              (submit.mkResult "app-1" "ver-1" "IOS" [] 0 0 true))
    as [_ [_ [_ [_ [Hnone _]]]]].
  exact (Hnone eq_refl).
Defined.
